(** * GovTrack: the record store, the simulation ticker, the metrics
      aggregator, the expenditure query and the report workflow

    A shallow embedding of the state-handling code of the [GovTrackPage]
    component (the React state cells, the [setInterval] callback, the
    [useMemo] queries, the overview metrics and the report handlers),
    followed by the properties established about it.

    Further parts.  The budgets and projects queries with their sort,
    the filter options, the comparison set and the watchlist, the
    controls of the report form, [relativeTime], the seeding of the
    expenditures, the guided tour of [HelpSystem] and the
    [PrivacyAnalytics] object are embedded in the same way.

    Numbers.  A JavaScript [number] is modelled as an exact rational or
    one of the three IEEE special values.  Finite doubles are idealised:
    no rounding error, no overflow, and a single unsigned zero (it
    behaves as [+0], so [x / 0] with [x > 0] is [+Infinity]).  Every
    operation below follows the ECMAScript table for its special cases.

    Effects.  [Math.random()] and [new Date().toISOString()] are read
    from two oracles (the k-th call returns the k-th value); the code
    that calls them lives in a small state monad over the two call
    counters. *)

From Stdlib Require Import QArith Qround Qabs Lqa ZArith Lia List Bool.
From Stdlib Require Import String Ascii DecimalString.
From Stdlib Require Decimal DecimalZ.
From Stdlib Require Import Sorted Permutation OrderedTypeEx.
Import ListNotations.

Set Implicit Arguments.

(* ===================================================================== *)
(** ** JavaScript numbers *)
(* ===================================================================== *)

Module JS.

Inductive number : Type :=
| NaN
| PosInf
| NegInf
| Fin (q : Q).

Definition isNaN (x : number) : bool :=
  match x with NaN => true | _ => false end.

Definition isFinite (x : number) : bool :=
  match x with Fin _ => true | _ => false end.

Definition Qlt_bool (a b : Q) : bool := negb (Qle_bool b a).

(** Sign of an infinity times the sign of a finite non-zero factor. *)
Definition inf_of_sign (positive : bool) : number :=
  if positive then PosInf else NegInf.

Definition neg (x : number) : number :=
  match x with
  | NaN => NaN
  | PosInf => NegInf
  | NegInf => PosInf
  | Fin q => Fin (- q)
  end.

Definition add (x y : number) : number :=
  match x, y with
  | NaN, _ | _, NaN => NaN
  | PosInf, NegInf | NegInf, PosInf => NaN
  | PosInf, _ | _, PosInf => PosInf
  | NegInf, _ | _, NegInf => NegInf
  | Fin a, Fin b => Fin (a + b)
  end.

Definition sub (x y : number) : number := add x (neg y).

(** [inf * q]: NaN at zero, otherwise an infinity of the product sign. *)
Definition mul_inf (positive : bool) (q : Q) : number :=
  if Qeq_bool q 0 then NaN
  else inf_of_sign (Bool.eqb positive (Qlt_bool 0 q)).

Definition mul (x y : number) : number :=
  match x, y with
  | NaN, _ | _, NaN => NaN
  | PosInf, PosInf | NegInf, NegInf => PosInf
  | PosInf, NegInf | NegInf, PosInf => NegInf
  | PosInf, Fin q | Fin q, PosInf => mul_inf true q
  | NegInf, Fin q | Fin q, NegInf => mul_inf false q
  | Fin a, Fin b => Fin (a * b)
  end.

Definition div (x y : number) : number :=
  match x, y with
  | NaN, _ | _, NaN => NaN
  | (PosInf | NegInf), (PosInf | NegInf) => NaN
  | PosInf, Fin q => inf_of_sign (Qle_bool 0 q)
  | NegInf, Fin q => inf_of_sign (negb (Qle_bool 0 q))
  | Fin _, (PosInf | NegInf) => Fin 0
  | Fin a, Fin b =>
      if Qeq_bool b 0 then
        (if Qeq_bool a 0 then NaN else inf_of_sign (Qlt_bool 0 a))
      else Fin (a / b)
  end.

(** The relational operators: every comparison with NaN is false. *)
Definition lt (x y : number) : bool :=
  match x, y with
  | NaN, _ | _, NaN => false
  | _, NegInf => false
  | PosInf, _ => false
  | NegInf, _ => true
  | _, PosInf => true
  | Fin a, Fin b => Qlt_bool a b
  end.

Definition le (x y : number) : bool :=
  match x, y with
  | NaN, _ | _, NaN => false
  | NegInf, _ => true
  | _, PosInf => true
  | _, NegInf => false
  | PosInf, _ => false
  | Fin a, Fin b => Qle_bool a b
  end.

Definition gt (x y : number) : bool := lt y x.
Definition ge (x y : number) : bool := le y x.

(** [Math.min], [Math.max]: NaN when either argument is NaN. *)
Definition Math_min (x y : number) : number :=
  match x, y with
  | NaN, _ | _, NaN => NaN
  | _, _ => if le x y then x else y
  end.

Definition Math_max (x y : number) : number :=
  match x, y with
  | NaN, _ | _, NaN => NaN
  | _, _ => if le x y then y else x
  end.

Definition Math_abs (x : number) : number :=
  match x with
  | NaN => NaN
  | PosInf | NegInf => PosInf
  | Fin q => Fin (Qabs q)
  end.

(** [Math.round]: the nearest integer, ties towards [+Infinity]. *)
Definition Math_round (x : number) : number :=
  match x with
  | Fin q => Fin (inject_Z (Qfloor (q + (1 # 2))))
  | _ => x
  end.

(** A number is an integer when it is finite with no fractional part. *)
Definition isInteger (x : number) : bool :=
  match x with
  | Fin q => Qeq_bool q (inject_Z (Qfloor q))
  | _ => false
  end.

(** Truthiness of a number ([0] and [NaN] are falsy). *)
Definition truthy (x : number) : bool :=
  match x with
  | NaN => false
  | Fin q => negb (Qeq_bool q 0)
  | _ => true
  end.

Definition of_nat (n : nat) : number := Fin (inject_Z (Z.of_nat n)).

End JS.

Export JS.

Declare Scope js_scope.
Delimit Scope js_scope with js.
Bind Scope js_scope with number.
Infix "+" := add : js_scope.
Infix "-" := sub : js_scope.
Infix "*" := mul : js_scope.
Infix "/" := div : js_scope.
Infix "<?" := lt : js_scope.
Infix "<=?" := le : js_scope.
Infix ">?" := gt (at level 70) : js_scope.
Infix ">=?" := ge (at level 70) : js_scope.

(** [const clamp = (v, min = 0, max = 100) => Math.min(Math.max(v, min), max)] *)
Definition clamp_between (v lo hi : number) : number :=
  Math_min (Math_max v lo) hi.

Definition clamp (v : number) : number :=
  clamp_between v (Fin 0) (Fin 100).

(* ===================================================================== *)
(** ** Entity types *)
(* ===================================================================== *)

Open Scope string_scope.

(** [status: "On Track" | "Delayed" | "Completed" | "At Risk"] *)
Inductive ProjectStatus : Type := OnTrack | Delayed | Completed | AtRisk.

(** [status: "Submitted" | "Under Review" | "Resolved"] *)
Inductive ReportStatus : Type := Submitted | UnderReview | Resolved.

(** [severity: "Low" | "Medium" | "High"] *)
Inductive Severity : Type := Low | Medium | High.

Definition ProjectStatus_eqb (a b : ProjectStatus) : bool :=
  match a, b with
  | OnTrack, OnTrack | Delayed, Delayed
  | Completed, Completed | AtRisk, AtRisk => true
  | _, _ => false
  end.

Definition ReportStatus_eqb (a b : ReportStatus) : bool :=
  match a, b with
  | Submitted, Submitted | UnderReview, UnderReview
  | Resolved, Resolved => true
  | _, _ => false
  end.

Record Budget : Type := mkBudget {
  b_id : string;
  b_department : string;
  b_category : string;
  allocated : number;
  b_spent : number;
  b_region : string;
  lastUpdated : string
}.

Record Project : Type := mkProject {
  p_id : string;
  p_name : string;
  p_department : string;
  budget : number;
  p_spent : number;
  p_status : ProjectStatus;
  progress : number;
  startDate : string;
  endDate : string;
  p_region : string;
  p_description : string;
  updatedAt : string;
  risk : number
}.

(** [projectId?: string]: an absent property is [None]. *)
Record Expenditure : Type := mkExpenditure {
  e_id : string;
  e_projectId : option string;
  e_department : string;
  e_description : string;
  amount : number;
  date : string;
  e_category : string
}.

(** A stored report.  [subject] and [description] are declared [string],
    but [confirmSubmitReport] copies the draft's cells unchecked, so at
    run time they hold whatever the draft held, [undefined] included. *)
Record IrregularityReport : Type := mkReport {
  r_id : string;
  r_type : string;
  r_subject : option string;
  r_description : option string;
  r_department : option string;
  r_projectId : option string;
  createdAt : string;
  r_status : ReportStatus;
  r_severity : Severity;
  reference : option string
}.

(** [Partial<IrregularityReport>]: every property may be absent. *)
Record ReportDraft : Type := mkDraft {
  d_id : option string;
  d_type : option string;
  d_subject : option string;
  d_description : option string;
  d_department : option string;
  d_projectId : option string;
  d_createdAt : option string;
  d_status : option ReportStatus;
  d_severity : option Severity;
  d_reference : option string
}.

(** The four collections held in the component's state cells. *)
Record Store : Type := mkStore {
  budgets : list Budget;
  projects : list Project;
  expenditures : list Expenditure;
  reports : list IrregularityReport
}.

(* ===================================================================== *)
(** ** Sample data *)
(* ===================================================================== *)

Section SampleData.

(** [now.toISOString()] at mount time. *)
Variable now : string.

Definition seedBudget (id dept cat : string) (alloc spent : Q)
    (region : string) : Budget :=
  mkBudget id dept cat (Fin alloc) (Fin spent) region now.

Definition initialBudgets : list Budget :=
  [ seedBudget "b1" "Health" "Public Services" 50000000 21500000 "National";
    seedBudget "b2" "Education" "Public Services" 42000000 28900000 "National";
    seedBudget "b3" "Transport" "Infrastructure" 65000000 41200000 "National";
    seedBudget "b4" "Agriculture" "Economic" 18000000 9000000 "Rural";
    seedBudget "b5" "Energy" "Infrastructure" 30000000 11000000 "National";
    seedBudget "b6" "Tourism" "Economic" 8000000 3500000 "Coastal";
    seedBudget "b7" "Defense" "Security" 90000000 61000000 "National";
    seedBudget "b8" "Justice" "Security" 27000000 14000000 "National" ].

Definition seedProject (id name dept : string) (bud spent : Q)
    (st : ProjectStatus) (prog : Q) (sd ed region descr : string)
    (rk : Q) : Project :=
  mkProject id name dept (Fin bud) (Fin spent) st (Fin prog)
            sd ed region descr now (Fin rk).

Definition initialProjects : list Project :=
  [ seedProject "p1" "Rural Clinic Expansion" "Health" 12000000 4600000
      OnTrack 39 "2024-01-15" "2025-07-30" "Rural"
      "Building and upgrading rural health clinics to expand access." 25;
    seedProject "p2" "Highway Modernization" "Transport" 30000000 15800000
      Delayed 52 "2023-09-01" "2025-12-31" "National"
      "Modernizing key national highway corridors for safety and capacity." 55;
    seedProject "p3" "Digital Classrooms Initiative" "Education" 15000000
      7200000 OnTrack 47 "2024-02-01" "2025-06-15" "National"
      "Deploying digital tools and connectivity in public schools." 30;
    seedProject "p4" "Green Energy Pilot" "Energy" 10000000 4800000
      OnTrack 49 "2024-03-01" "2025-03-01" "National"
      "Pilot renewable microgrid systems for remote areas." 35;
    seedProject "p5" "Agri Supply Chain Upgrade" "Agriculture" 8000000
      2700000 AtRisk 28 "2024-04-01" "2025-10-01" "Rural"
      "Improving cold storage and logistics for produce." 68;
    seedProject "p6" "Judicial Case System" "Justice" 6000000 2400000
      OnTrack 36 "2024-01-10" "2025-01-10" "National"
      "Implementing digital case management for courts." 40;
    seedProject "p7" "Border Security Upgrade" "Defense" 22000000 9600000
      Delayed 44 "2023-12-01" "2025-08-01" "National"
      "Deploying modern surveillance and control infrastructure." 58;
    seedProject "p8" "Eco Tourism Campaign" "Tourism" 5000000 1700000
      OnTrack 34 "2024-05-01" "2025-05-01" "Coastal"
      "Promoting sustainable tourism development." 32;
    seedProject "p9" "School Nutrition Upgrade" "Education" 9000000
      3000000 OnTrack 33 "2024-03-15" "2025-09-15" "National"
      "Enhancing nutritional standards for school meals." 29 ].

End SampleData.

(* ===================================================================== *)
(** ** The ambient effects: random draws and the clock *)
(* ===================================================================== *)

(** How many times each oracle has been consulted so far. *)
Record World : Type := mkWorld {
  random_calls : nat;
  clock_calls : nat
}.

Definition Sim (A : Type) : Type := World -> A * World.

Definition ret {A} (a : A) : Sim A := fun w => (a, w).

Definition bind {A B} (m : Sim A) (k : A -> Sim B) : Sim B :=
  fun w => let (a, w') := m w in k a w'.

Declare Scope sim_scope.
Delimit Scope sim_scope with sim.
Notation "x <- m ;; k" := (bind m (fun x => k))
  (at level 61, m at next level, right associativity) : sim_scope.

Open Scope sim_scope.

(** [prev.map(f)] with an effectful callback: elements are visited in
    index order and the result has one entry per element. *)
Fixpoint mapM {A B} (f : A -> Sim B) (l : list A) : Sim (list B) :=
  match l with
  | [] => ret []
  | x :: xs => y <- f x ;; ys <- mapM f xs ;; ret (y :: ys)
  end.

(** Run an effectful step [n] times in a row. *)
Fixpoint iterM {A} (n : nat) (f : A -> Sim A) (a : A) : Sim A :=
  match n with
  | O => ret a
  | S n' => a' <- f a ;; iterM n' f a'
  end.

(* ===================================================================== *)
(** ** Simulation ticker *)
(* ===================================================================== *)

Section Ticker.

(** The k-th call of [Math.random()] returns [random k]. *)
Variable random : nat -> Q.

(** The k-th [new Date().toISOString()] returns [clock k]. *)
Variable clock : nat -> string.

Definition Math_random : Sim number :=
  fun w => (Fin (random (random_calls w)),
            mkWorld (S (random_calls w)) (clock_calls w)).

Definition Date_toISOString : Sim string :=
  fun w => (clock (clock_calls w),
            mkWorld (random_calls w) (S (clock_calls w))).

(** [const inc = Math.random() * 4] *)
Definition increment (r_inc : number) : number := (r_inc * Fin 4)%js.

(** [Math.round(p.budget * (inc / 100) * (0.8 + Math.random() * 0.4))] *)
Definition extraSpend (p : Project) (inc r_spend : number) : number :=
  Math_round (budget p * (inc / Fin 100)
              * (Fin 0.8 + r_spend * Fin 0.4))%js.

(** The [risk:] property of the replacement object. *)
Definition nextRisk (p : Project) (r_risk : number) : number :=
  match p_status p with
  | Delayed | AtRisk => Math_min (Fin 90) (risk p + r_risk * Fin 3)%js
  | _ => Math_max (Fin 10) (risk p + (r_risk * Fin 4 - Fin 2))%js
  end.

(** The object literal [{ ...p, progress, spent, status, updatedAt, risk }]
    once its three draws and its clock reading are known. *)
Definition updatedProject (p : Project) (r_inc r_spend : number)
    (now : string) (r_risk : number) : Project :=
  let inc := increment r_inc in
  mkProject (p_id p) (p_name p) (p_department p) (budget p)
    (Math_min (budget p) (p_spent p + extraSpend p inc r_spend)%js)
    (if (progress p + inc >=? Fin 100)%js then Completed else p_status p)
    (clamp (progress p + inc)%js)
    (startDate p) (endDate p) (p_region p) (p_description p)
    now
    (nextRisk p r_risk).

(** The callback of [setProjects((prev) => prev.map((p) => ...))]:
    the gate draw always happens; the other three draws and the clock
    reading happen, in source order, only when the gate opens. *)
Definition tickProject (p : Project) : Sim Project :=
  g <- Math_random ;;
  if (g <? Fin 0.2)%js && (progress p <? Fin 100)%js then
    r_inc <- Math_random ;;
    r_spend <- Math_random ;;
    now <- Date_toISOString ;;
    r_risk <- Math_random ;;
    ret (updatedProject p r_inc r_spend now r_risk)
  else ret p.

(** [Math.round(b.allocated * 0.0005 * Math.random() * 50)] *)
Definition delta (b : Budget) (r : number) : number :=
  Math_round (allocated b * Fin 0.0005 * r * Fin 50)%js.

(** The object literal [{ ...b, spent: newSpent, lastUpdated }]. *)
Definition updatedBudget (b : Budget) (r : number) (now : string) : Budget :=
  let newSpent :=
    Math_min (allocated b * Fin 1.15)%js (b_spent b + delta b r)%js in
  mkBudget (b_id b) (b_department b) (b_category b) (allocated b)
    newSpent (b_region b) now.

(** The callback of [setBudgets((prev) => prev.map((b) => ...))]. *)
Definition tickBudget (b : Budget) : Sim Budget :=
  g <- Math_random ;;
  if (g <? Fin 0.15)%js then
    r <- Math_random ;;
    now <- Date_toISOString ;;
    ret (updatedBudget b r now)
  else ret b.

(** One firing of the interval: projects first, then budgets; the
    expenditures and the reports are not touched. *)
Definition tick (s : Store) : Sim Store :=
  ps <- mapM tickProject (projects s) ;;
  bs <- mapM tickBudget (budgets s) ;;
  ret (mkStore bs ps (expenditures s) (reports s)).

Definition run_ticks (n : nat) (s : Store) : Sim Store :=
  iterM n tick s.

End Ticker.

(** The store right after mount: sample budgets and projects, no report.
    The sample expenditures are drawn at random at mount time, so they
    are a parameter here. *)
Definition initialStore (now : string) (exps : list Expenditure) : Store :=
  mkStore (initialBudgets now) (initialProjects now) exps [].

Definition world0 : World := mkWorld 0 0.

(* ===================================================================== *)
(** ** Metrics aggregator *)
(* ===================================================================== *)

(** [budgets.reduce((s, b) => s + b.allocated, 0)] *)
Definition totalAllocated (bs : list Budget) : number :=
  fold_left (fun s b => (s + allocated b)%js) bs (Fin 0).

(** [budgets.reduce((s, b) => s + b.spent, 0)] *)
Definition totalSpent (bs : list Budget) : number :=
  fold_left (fun s b => (s + b_spent b)%js) bs (Fin 0).

(** [(totalSpent / totalAllocated) * 100] *)
Definition overallUtilization (bs : list Budget) : number :=
  (totalSpent bs / totalAllocated bs * Fin 100)%js.

(** [(b.spent / b.allocated) * 100], the per-budget utilization. *)
Definition utilization (b : Budget) : number :=
  (b_spent b / allocated b * Fin 100)%js.

Definition avgDeviation (utilizations : list number) : number :=
  (fold_left (fun s u => s + Math_abs (u - Fin 60))%js utilizations (Fin 0)
   / of_nat (List.length utilizations))%js.

Definition resolutionRatio (rs : list IrregularityReport) : number :=
  let resolved :=
    List.length (filter (fun r => ReportStatus_eqb (r_status r) Resolved) rs) in
  if truthy (of_nat (List.length rs))
  then (of_nat resolved / of_nat (List.length rs))%js
  else Fin 0.5.

Definition transparencyIndex (bs : list Budget)
    (rs : list IrregularityReport) : number :=
  let utilizations := map utilization bs in
  let norm :=
    (Math_max (Fin 0) (Fin 100 - avgDeviation utilizations) / Fin 100)%js in
  Math_round ((Fin 0.6 * norm + Fin 0.4 * resolutionRatio rs) * Fin 100)%js.

(* ===================================================================== *)
(** ** Query pipeline: expenditures *)
(* ===================================================================== *)

(** [String.prototype.toLowerCase], on the ASCII letters. *)
Definition lower_ascii (c : ascii) : ascii :=
  let n := nat_of_ascii c in
  if ((65 <=? n) && (n <=? 90))%nat then ascii_of_nat (n + 32) else c.

Fixpoint toLowerCase (s : string) : string :=
  match s with
  | EmptyString => EmptyString
  | String c s' => String (lower_ascii c) (toLowerCase s')
  end.

(** [s.includes(sub)] *)
Fixpoint includes (s sub : string) : bool :=
  if String.prefix sub s then true
  else match s with
       | EmptyString => false
       | String _ s' => includes s' sub
       end.

(** Truthiness of a string and of an optional string. *)
Definition nonempty (s : string) : bool :=
  match s with EmptyString => false | _ => true end.

Definition truthy_opt (o : option string) : bool :=
  match o with None => false | Some s => nonempty s end.

(** [new Set(ids).has(id)] *)
Definition Set_has (ids : list string) (id : string) : bool :=
  existsb (String.eqb id) ids.

(** [Array.prototype.sort(cmp)]: a stable sort; [x] is moved behind [y]
    only when [cmp(x, y) > 0] (a NaN verdict counts as "equal"). *)
Fixpoint insert_by {A} (cmp : A -> A -> number) (x : A) (l : list A) : list A :=
  match l with
  | [] => [x]
  | y :: ys =>
      if (cmp x y >? Fin 0)%js then y :: insert_by cmp x ys
      else x :: y :: ys
  end.

Definition sort_by {A} (cmp : A -> A -> number) (l : list A) : list A :=
  fold_right (insert_by cmp) [] l.

Section Query.

(** [new Date(iso).getTime()]; NaN on a string that is not a date. *)
Variable getTime : string -> number.

Definition matchesSearch (search : string) (e : Expenditure) : bool :=
  includes (toLowerCase (e_description e)) (toLowerCase search)
  || includes (toLowerCase (e_department e)) (toLowerCase search).

(** [!e.projectId || regionProjects.has(e.projectId)] *)
Definition passesRegion (regionProjects : list string)
    (e : Expenditure) : bool :=
  negb (truthy_opt (e_projectId e))
  || match e_projectId e with
     | Some pid => Set_has regionProjects pid
     | None => false
     end.

Definition byDateDesc (a b : Expenditure) : number :=
  (getTime (date b) - getTime (date a))%js.

Definition filteredExpenditures (exps : list Expenditure)
    (search filterDept filterRegion filterCategory : string)
    (ps : list Project) : list Expenditure :=
  let data := exps in
  let data :=
    if nonempty search then filter (matchesSearch search) data else data in
  let data :=
    if negb (String.eqb filterDept "All")
    then filter (fun e => String.eqb (e_department e) filterDept) data
    else data in
  let data :=
    if negb (String.eqb filterRegion "All") then
      let regionProjects :=
        map p_id
          (filter (fun p => String.eqb (p_region p) filterRegion) ps) in
      filter (passesRegion regionProjects) data
    else data in
  let data :=
    if negb (String.eqb filterCategory "All")
    then filter (fun e => String.eqb (e_category e) filterCategory) data
    else data in
  sort_by byDateDesc data.

End Query.

(* ===================================================================== *)
(** ** Report workflow *)
(* ===================================================================== *)

(** The state cells the report handlers read and write. *)
Record ReportPage : Type := mkPage {
  showReportModal : bool;
  showReportConfirmation : bool;
  reportDraft : ReportDraft;
  page_reports : list IrregularityReport
}.

(** [{ severity: "Medium", type: "Spending Concern" }] *)
Definition defaultDraft : ReportDraft :=
  mkDraft None (Some "Spending Concern") None None None None None None
          (Some Medium) None.

(** The cells as [useState] initialises them. *)
Definition initialPage : ReportPage := mkPage false false defaultDraft [].

(** [a || b] on an optional property. *)
Definition or_else {A} (o : option A) (d : option A) : option A :=
  match o with Some _ => o | None => d end.

(** [{ severity: "Medium", type: "Spending Concern", ...defaults }]: a
    property carried by [defaults] overrides the literal's.  (A property
    present with the value [undefined] is not told apart from an absent
    one; no caller passes such a property.) *)
Definition openReportModal (defaults : ReportDraft) (s : ReportPage)
    : ReportPage :=
  mkPage true (showReportConfirmation s)
    (mkDraft (d_id defaults)
       (or_else (d_type defaults) (d_type defaultDraft))
       (d_subject defaults) (d_description defaults)
       (d_department defaults) (d_projectId defaults)
       (d_createdAt defaults) (d_status defaults)
       (or_else (d_severity defaults) (d_severity defaultDraft))
       (d_reference defaults))
    (page_reports s).

Definition submitReport (s : ReportPage) : ReportPage :=
  if negb (truthy_opt (d_subject (reportDraft s)))
     || negb (truthy_opt (d_description (reportDraft s)))
  then s
  else mkPage (showReportModal s) true (reportDraft s) (page_reports s).

(** ["r" + Date.now()] *)
Definition reportId (now_ms : Z) : string :=
  "r" ++ NilZero.string_of_int (Z.to_int now_ms).

(** [reportDraft.type || "Spending Concern"] *)
Definition draftTypeOrDefault (d : ReportDraft) : string :=
  match d_type d with
  | Some t => if nonempty t then t else "Spending Concern"
  | None => "Spending Concern"
  end.

(** [(reportDraft.severity as any) || "Medium"] *)
Definition draftSeverityOrDefault (d : ReportDraft) : Severity :=
  match d_severity d with Some v => v | None => Medium end.

(** [now_ms] is what [Date.now()] returns and [now_iso] what
    [new Date().toISOString()] returns during the call. *)
Definition confirmSubmitReport (now_ms : Z) (now_iso : string)
    (s : ReportPage) : ReportPage :=
  let d := reportDraft s in
  let newReport :=
    mkReport (reportId now_ms) (draftTypeOrDefault d)
      (d_subject d) (d_description d) (d_department d) (d_projectId d)
      now_iso Submitted (draftSeverityOrDefault d) (d_reference d) in
  mkPage false false defaultDraft (newReport :: page_reports s).

Definition cancelSubmitReport (s : ReportPage) : ReportPage :=
  mkPage (showReportModal s) false (reportDraft s) (page_reports s).

(** The workflow state the page is in: the confirmation dialog is open
    exactly while a submission awaits confirmation. *)
Inductive WorkflowState : Type := Drafting | PendingConfirmation.

Definition workflowState (s : ReportPage) : WorkflowState :=
  if showReportConfirmation s then PendingConfirmation else Drafting.

(* ===================================================================== *)
(** ** Overview: project status counts *)
(* ===================================================================== *)

(** The object built by
    [projects.reduce((acc, p) => { acc[p.status] = (acc[p.status] || 0) + 1;
    return acc; }, {})]: its keys in insertion order, each with its
    count.  Counting starts at 0 and goes up by 1, so a count is kept as
    a natural number. *)
Fixpoint bump (k : ProjectStatus) (acc : list (ProjectStatus * nat))
    : list (ProjectStatus * nat) :=
  match acc with
  | [] => [(k, 1%nat)]
  | (k', n) :: rest =>
      if ProjectStatus_eqb k' k then (k', S n) :: rest
      else (k', n) :: bump k rest
  end.

Definition projectStatusCounts (ps : list Project)
    : list (ProjectStatus * nat) :=
  fold_left (fun acc p => bump (p_status p) acc) ps [].

(** [acc[k]]: [undefined] on a key the object does not have. *)
Fixpoint countOf (k : ProjectStatus) (acc : list (ProjectStatus * nat))
    : option nat :=
  match acc with
  | [] => None
  | (k', n) :: rest => if ProjectStatus_eqb k' k then Some n else countOf k rest
  end.

(* ===================================================================== *)
(** ** Query pipeline: budgets and projects, sorting *)
(* ===================================================================== *)

(** [direction: "asc" | "desc"] *)
Inductive SortDirection : Type := asc | desc.

(** [interface SortConfig<T> { key: keyof T | null; direction }] *)
Record SortConfig (K : Type) : Type := mkSort {
  sort_key : option K;
  sort_direction : SortDirection
}.

(** [keyof Budget] and [keyof Project]. *)
Inductive BudgetKey : Type :=
| Bk_id | Bk_department | Bk_category | Bk_allocated | Bk_spent
| Bk_region | Bk_lastUpdated.

Inductive ProjectKey : Type :=
| Pk_id | Pk_name | Pk_department | Pk_budget | Pk_spent | Pk_status
| Pk_progress | Pk_startDate | Pk_endDate | Pk_region | Pk_description
| Pk_updatedAt | Pk_risk.

(** What [a[k]] can be: a number or a string. *)
Inductive FieldValue : Type :=
| NumberValue (n : number)
| StringValue (s : string).

(** The string a status is at run time. *)
Definition statusLabel (st : ProjectStatus) : string :=
  match st with
  | OnTrack => "On Track"
  | Delayed => "Delayed"
  | Completed => "Completed"
  | AtRisk => "At Risk"
  end.

Definition budgetField (k : BudgetKey) (b : Budget) : FieldValue :=
  match k with
  | Bk_id => StringValue (b_id b)
  | Bk_department => StringValue (b_department b)
  | Bk_category => StringValue (b_category b)
  | Bk_allocated => NumberValue (allocated b)
  | Bk_spent => NumberValue (b_spent b)
  | Bk_region => StringValue (b_region b)
  | Bk_lastUpdated => StringValue (lastUpdated b)
  end.

Definition projectField (k : ProjectKey) (p : Project) : FieldValue :=
  match k with
  | Pk_id => StringValue (p_id p)
  | Pk_name => StringValue (p_name p)
  | Pk_department => StringValue (p_department p)
  | Pk_budget => NumberValue (budget p)
  | Pk_spent => NumberValue (p_spent p)
  | Pk_status => StringValue (statusLabel (p_status p))
  | Pk_progress => NumberValue (progress p)
  | Pk_startDate => StringValue (startDate p)
  | Pk_endDate => StringValue (endDate p)
  | Pk_region => StringValue (p_region p)
  | Pk_description => StringValue (p_description p)
  | Pk_updatedAt => StringValue (updatedAt p)
  | Pk_risk => NumberValue (risk p)
  end.

(** [handleSortBudgets] and [handleSortProjects]: the same key flips the
    direction, another key starts ascending. *)
Definition handleSort {K} (eqb : K -> K -> bool) (key : K)
    (prev : SortConfig K) : SortConfig K :=
  match sort_key prev with
  | Some k =>
      if eqb k key
      then mkSort (Some key)
             (match sort_direction prev with asc => desc | desc => asc end)
      else mkSort (Some key) asc
  | None => mkSort (Some key) asc
  end.

Definition BudgetKey_eqb (a b : BudgetKey) : bool :=
  match a, b with
  | Bk_id, Bk_id | Bk_department, Bk_department | Bk_category, Bk_category
  | Bk_allocated, Bk_allocated | Bk_spent, Bk_spent | Bk_region, Bk_region
  | Bk_lastUpdated, Bk_lastUpdated => true
  | _, _ => false
  end.

Definition ProjectKey_eqb (a b : ProjectKey) : bool :=
  match a, b with
  | Pk_id, Pk_id | Pk_name, Pk_name | Pk_department, Pk_department
  | Pk_budget, Pk_budget | Pk_spent, Pk_spent | Pk_status, Pk_status
  | Pk_progress, Pk_progress | Pk_startDate, Pk_startDate
  | Pk_endDate, Pk_endDate | Pk_region, Pk_region
  | Pk_description, Pk_description | Pk_updatedAt, Pk_updatedAt
  | Pk_risk, Pk_risk => true
  | _, _ => false
  end.

Definition handleSortBudgets : BudgetKey -> SortConfig BudgetKey ->
                               SortConfig BudgetKey :=
  handleSort BudgetKey_eqb.

Definition handleSortProjects : ProjectKey -> SortConfig ProjectKey ->
                                SortConfig ProjectKey :=
  handleSort ProjectKey_eqb.

Section SortedQueries.

(** [a.localeCompare(b)], which depends on the host's locale data. *)
Variable localeCompare : string -> string -> number.

(** [String(n)] on a number. *)
Variable numberToString : number -> string.

(** [String(av)] *)
Definition String_of (v : FieldValue) : string :=
  match v with
  | NumberValue n => numberToString n
  | StringValue s => s
  end.

(** The comparator handed to [data.sort]: numbers by difference, anything
    else by [localeCompare], negated for a descending sort. *)
Definition compareFields (dir : SortDirection) (av bv : FieldValue) : number :=
  match av, bv with
  | NumberValue a, NumberValue b =>
      match dir with asc => (a - b)%js | desc => (b - a)%js end
  | _, _ =>
      (localeCompare (String_of av) (String_of bv)
       * match dir with asc => Fin 1 | desc => Fin (-1) end)%js
  end.

Definition matchesBudgetSearch (search : string) (b : Budget) : bool :=
  includes (toLowerCase (b_department b)) (toLowerCase search)
  || includes (toLowerCase (b_category b)) (toLowerCase search).

Definition filteredBudgets (bs : list Budget)
    (search filterDept filterRegion filterCategory : string)
    (sortBudgets : SortConfig BudgetKey) : list Budget :=
  let data := bs in
  let data :=
    if nonempty search then filter (matchesBudgetSearch search) data
    else data in
  let data :=
    if negb (String.eqb filterDept "All")
    then filter (fun b => String.eqb (b_department b) filterDept) data
    else data in
  let data :=
    if negb (String.eqb filterRegion "All")
    then filter (fun b => String.eqb (b_region b) filterRegion) data
    else data in
  let data :=
    if negb (String.eqb filterCategory "All")
    then filter (fun b => String.eqb (b_category b) filterCategory) data
    else data in
  match sort_key sortBudgets with
  | Some k =>
      sort_by (fun a b => compareFields (sort_direction sortBudgets)
                            (budgetField k a) (budgetField k b)) data
  | None => data
  end.

Definition matchesProjectSearch (search : string) (p : Project) : bool :=
  includes (toLowerCase (p_name p)) (toLowerCase search)
  || includes (toLowerCase (p_department p)) (toLowerCase search).

Definition filteredProjects (ps : list Project)
    (search filterDept filterRegion filterStatus : string)
    (sortProjects : SortConfig ProjectKey) : list Project :=
  let data := ps in
  let data :=
    if nonempty search then filter (matchesProjectSearch search) data
    else data in
  let data :=
    if negb (String.eqb filterDept "All")
    then filter (fun p => String.eqb (p_department p) filterDept) data
    else data in
  let data :=
    if negb (String.eqb filterRegion "All")
    then filter (fun p => String.eqb (p_region p) filterRegion) data
    else data in
  let data :=
    if negb (String.eqb filterStatus "All")
    then filter (fun p => String.eqb (statusLabel (p_status p)) filterStatus)
           data
    else data in
  match sort_key sortProjects with
  | Some k =>
      sort_by (fun a b => compareFields (sort_direction sortProjects)
                            (projectField k a) (projectField k b)) data
  | None => data
  end.

End SortedQueries.

(* ===================================================================== *)
(** ** Filter options, comparison set and watchlist *)
(* ===================================================================== *)

(** A [Set<string>]: its members, once each, in insertion order. *)
Definition Set_add (s : list string) (x : string) : list string :=
  if Set_has s x then s else s ++ [x].

Definition Set_delete (s : list string) (x : string) : list string :=
  filter (fun y => negb (String.eqb y x)) s.

(** [new Set(xs)] *)
Definition Set_from (xs : list string) : list string :=
  fold_left Set_add xs [].

(** The verdict of [Array.prototype.sort()] without a comparator on two
    strings: their order by code units. *)
Definition defaultCompare (a b : string) : number :=
  match String.compare a b with
  | Lt => Fin (-1)
  | Eq => Fin 0
  | Gt => Fin 1
  end.

(** [["All", ...Array.from(new Set(values)).sort()]] *)
Definition options (values : list string) : list string :=
  "All" :: sort_by defaultCompare (Set_from values).

Definition departments (bs : list Budget) : list string :=
  options (map b_department bs).

Definition regions (bs : list Budget) (ps : list Project) : list string :=
  options (map b_region bs ++ map p_region ps).

Definition categories (bs : list Budget) : list string :=
  options (map b_category bs).

(** [addOrRemoveCompare] and [toggleWatch]: copy the set, then delete the
    identifier if it is there and add it otherwise. *)
Definition addOrRemoveCompare (id : string) (prev : list string)
    : list string :=
  let n := prev in
  if Set_has n id then Set_delete n id else Set_add n id.

Definition toggleWatch (id : string) (prev : list string) : list string :=
  let n := prev in
  if Set_has n id then Set_delete n id else Set_add n id.

(** [s.slice(1)] *)
Definition slice1 (s : string) : string :=
  match s with
  | EmptyString => EmptyString
  | String _ t => t
  end.

(** The callback of [budgets.find] in [compareItems]. *)
Definition budgetMatches (id : string) (b : Budget) : bool :=
  String.eqb ("b" ++ slice1 (b_id b)) id || String.eqb (b_id b) id.

(** One identifier of the comparison set resolved:
    [budgets.find(...) || projects.find(...)]. *)
Definition resolveCompare (bs : list Budget) (ps : list Project)
    (id : string) : option (Budget + Project) :=
  match find (budgetMatches id) bs with
  | Some b => Some (inl b)
  | None =>
      match find (fun p => String.eqb (p_id p) id) ps with
      | Some p => Some (inr p)
      | None => None
      end
  end.

(** [.filter(Boolean)] on the resolved identifiers. *)
Fixpoint filterBoolean {A} (l : list (option A)) : list A :=
  match l with
  | [] => []
  | Some x :: rest => x :: filterBoolean rest
  | None :: rest => filterBoolean rest
  end.

Definition compareItems (compareSet : list string) (bs : list Budget)
    (ps : list Project) : list (Budget + Project) :=
  filterBoolean (map (resolveCompare bs ps) compareSet).

(* ===================================================================== *)
(** ** Report form: the handlers bound to its controls *)
(* ===================================================================== *)

(** [setReportDraft(f)] *)
Definition setReportDraft (f : ReportDraft -> ReportDraft) (s : ReportPage)
    : ReportPage :=
  mkPage (showReportModal s) (showReportConfirmation s) (f (reportDraft s))
    (page_reports s).

(** [e.target.value || undefined] *)
Definition valueOrUndefined (v : string) : option string :=
  if nonempty v then Some v else None.

(** [(r) => ({ ...r, type: e.target.value })] and its siblings, one for
    each control of the form. *)
Definition withType (v : string) (r : ReportDraft) : ReportDraft :=
  mkDraft (d_id r) (Some v) (d_subject r) (d_description r) (d_department r)
    (d_projectId r) (d_createdAt r) (d_status r) (d_severity r)
    (d_reference r).

Definition withSeverity (v : Severity) (r : ReportDraft) : ReportDraft :=
  mkDraft (d_id r) (d_type r) (d_subject r) (d_description r)
    (d_department r) (d_projectId r) (d_createdAt r) (d_status r) (Some v)
    (d_reference r).

Definition withDepartment (v : string) (r : ReportDraft) : ReportDraft :=
  mkDraft (d_id r) (d_type r) (d_subject r) (d_description r)
    (valueOrUndefined v) (d_projectId r) (d_createdAt r) (d_status r)
    (d_severity r) (d_reference r).

Definition withProjectId (v : string) (r : ReportDraft) : ReportDraft :=
  mkDraft (d_id r) (d_type r) (d_subject r) (d_description r)
    (d_department r) (valueOrUndefined v) (d_createdAt r) (d_status r)
    (d_severity r) (d_reference r).

Definition withSubject (v : string) (r : ReportDraft) : ReportDraft :=
  mkDraft (d_id r) (d_type r) (Some v) (d_description r) (d_department r)
    (d_projectId r) (d_createdAt r) (d_status r) (d_severity r)
    (d_reference r).

Definition withDescription (v : string) (r : ReportDraft) : ReportDraft :=
  mkDraft (d_id r) (d_type r) (d_subject r) (Some v) (d_department r)
    (d_projectId r) (d_createdAt r) (d_status r) (d_severity r)
    (d_reference r).

Definition withReference (v : string) (r : ReportDraft) : ReportDraft :=
  mkDraft (d_id r) (d_type r) (d_subject r) (d_description r)
    (d_department r) (d_projectId r) (d_createdAt r) (d_status r)
    (d_severity r) (Some v).

(** [setShowReportModal(false)] *)
Definition closeReportModal (s : ReportPage) : ReportPage :=
  mkPage false (showReportConfirmation s) (reportDraft s) (page_reports s).

(** What the user can do to the report cells: the buttons that open the
    form, the controls of the form, and the buttons of the two dialogs.
    [ConfirmSubmit] carries what the clock reads during the call. *)
Inductive ReportEvent : Type :=
| OpenReport (defaults : ReportDraft)
| CloseReport
| ChangeType (v : string)
| ChangeSeverity (v : Severity)
| ChangeDepartment (v : string)
| ChangeProjectId (v : string)
| ChangeSubject (v : string)
| ChangeDescription (v : string)
| ChangeReference (v : string)
| SubmitReport
| ConfirmSubmit (now_ms : Z) (now_iso : string)
| CancelSubmit.

Definition handleReportEvent (s : ReportPage) (e : ReportEvent) : ReportPage :=
  match e with
  | OpenReport defaults => openReportModal defaults s
  | CloseReport => closeReportModal s
  | ChangeType v => setReportDraft (withType v) s
  | ChangeSeverity v => setReportDraft (withSeverity v) s
  | ChangeDepartment v => setReportDraft (withDepartment v) s
  | ChangeProjectId v => setReportDraft (withProjectId v) s
  | ChangeSubject v => setReportDraft (withSubject v) s
  | ChangeDescription v => setReportDraft (withDescription v) s
  | ChangeReference v => setReportDraft (withReference v) s
  | SubmitReport => submitReport s
  | ConfirmSubmit now_ms now_iso => confirmSubmitReport now_ms now_iso s
  | CancelSubmit => cancelSubmitReport s
  end.

Definition handleReportEvents (s : ReportPage) (es : list ReportEvent)
    : ReportPage :=
  fold_left handleReportEvent es s.

(* ===================================================================== *)
(** ** Relative time *)
(* ===================================================================== *)

(** [Math.floor] *)
Definition Math_floor (x : number) : number :=
  match x with
  | Fin q => Fin (inject_Z (Qfloor q))
  | _ => x
  end.

Section RelativeTime.

(** [new Date(iso).getTime()]; NaN on a string that is not a date. *)
Variable getTime : string -> number.

(** [String(n)], as [n + "m ago"] applies it to the number. *)
Variable numberToString : number -> string.

(** [now] is what [Date.now()] returns during the call. *)
Definition relativeTime (now : number) (iso : string) : string :=
  let diff := (now - getTime iso)%js in
  let mins := Math_floor (diff / Fin 60000) in
  if (mins <? Fin 1)%js then "just now"
  else if (mins <? Fin 60)%js then numberToString mins ++ "m ago"
  else
    let hrs := Math_floor (mins / Fin 60) in
    if (hrs <? Fin 24)%js then numberToString hrs ++ "h ago"
    else
      let days := Math_floor (hrs / Fin 24) in
      numberToString days ++ "d ago".

End RelativeTime.

(* ===================================================================== *)
(** ** Seeded expenditures *)
(* ===================================================================== *)

(** [const cats = [...]] *)
Definition cats : list string :=
  ["Procurement"; "Labor"; "Logistics"; "Training"; "Consulting"].

(** [cats[i]]; the loop keeps [i] below 3, inside the array. *)
Definition cats_at (i : nat) : string := nth i cats EmptyString.

(** [String(i)] on a loop index. *)
Definition indexToString (i : nat) : string :=
  NilZero.string_of_uint (Nat.to_uint i).

Section SampleExpenditures.

(** The k-th call of [Math.random()] returns [random k]. *)
Variable random : nat -> Q.

(** The k-th reading of the clock by [Date.now()] returns [now_ms k]. *)
Variable now_ms : nat -> number.

(** [new Date(ms).toISOString()] *)
Variable toISOString : number -> string.

Definition Date_now : Sim number :=
  fun w => (now_ms (clock_calls w),
            mkWorld (random_calls w) (S (clock_calls w))).

(** The object pushed for project [p] at loop index [i]; its properties
    are evaluated in the order they are written. *)
Definition sampleExpenditure (p : Project) (i : nat) : Sim Expenditure :=
  r_amount <- Math_random random ;;
  now <- Date_now ;;
  r_date <- Math_random random ;;
  ret (mkExpenditure
         (p_id p ++ "-tx" ++ indexToString i)
         (Some (p_id p))
         (p_department p)
         (cats_at i ++ " expense")
         (Math_round (r_amount * Fin 200000) + Fin 20000)%js
         (toISOString (now - r_date * Fin 1000000000)%js)
         (cats_at i)).

(** [for (let i = 0; i < 3; i++) sample.push(...)] *)
Definition projectExpenditures (p : Project) : Sim (list Expenditure) :=
  mapM (sampleExpenditure p) [0; 1; 2]%nat.

(** [projects.forEach(...)], then [return sample]. *)
Definition sampleExpenditures (ps : list Project) : Sim (list Expenditure) :=
  rows <- mapM projectExpenditures ps ;;
  ret (List.concat rows).

End SampleExpenditures.

(* ===================================================================== *)
(** ** Help system: the guided tour *)
(* ===================================================================== *)

(** The one-character string that holds a double quote. *)
Definition dquote : string := String (ascii_of_nat 34) EmptyString.

Record HelpStep : Type := mkHelpStep {
  step_id : string;
  step_title : string;
  step_content : string;
  step_target : string;
  step_position : string
}.

(** The cells of the tour, with what [trackClick] and [speak] were
    handed so far, oldest first. *)
Record Tour : Type := mkTour {
  currentStep : nat;
  showTour : bool;
  tracked : list string;
  spoken : list string
}.

(** [trackClick(name)] and [speak(text)] *)
Definition trackClick (name : string) (s : Tour) : Tour :=
  mkTour (currentStep s) (showTour s) (tracked s ++ [name]) (spoken s).

Definition speak (text : string) (s : Tour) : Tour :=
  mkTour (currentStep s) (showTour s) (tracked s) (spoken s ++ [text]).

Definition setCurrentStep (n : nat) (s : Tour) : Tour :=
  mkTour n (showTour s) (tracked s) (spoken s).

Definition setShowTour (b : bool) (s : Tour) : Tour :=
  mkTour (currentStep s) b (tracked s) (spoken s).

Section HelpTour.

(** The translation lookup [t] of [useLanguage]. *)
Variable t : string -> string.

Definition helpSteps : list HelpStep :=
  [ mkHelpStep "welcome" (t "help.guide.welcome")
      "This dashboard provides transparent access to government budget and project information. You can explore budgets, track project progress, and report concerns."
      ".govtrack-logo" "bottom";
    mkHelpStep "navigation" (t "help.guide.navigation")
      "Use these tabs to switch between different views: Overview for key metrics, Budgets for department allocations, Projects for ongoing initiatives, Spending for detailed transactions, and Reports for transparency issues."
      ".main-navigation" "bottom";
    mkHelpStep "filters" (t "help.guide.filters")
      "Apply filters to narrow down data by department, region, status, or category. Use the search box to find specific items quickly."
      ".filters-section" "bottom";
    mkHelpStep "accessibility" "Accessibility Features"
      "Click the accessibility button to adjust text size, enable high contrast, turn on voice output, and change language settings."
      ".accessibility-button" "left";
    mkHelpStep "reporting" "Report Issues"
      ("Found something concerning? Use the " ++ dquote ++ "Report Issue"
       ++ dquote
       ++ " button to submit transparency concerns or irregularities for review.")
      ".report-button" "left" ].

(** [speak(helpSteps[i].title)]: reading [.title] off [undefined], for an
    index outside the array, throws; [None] stands for the exception. *)
Definition speakTitle (i : nat) (s : Tour) : option Tour :=
  match nth_error helpSteps i with
  | Some step => Some (speak (step_title step) s)
  | None => None
  end.

Definition startTour (s : Tour) : Tour :=
  speak "Starting guided tour"
    (trackClick "help_tour_start" (setShowTour true (setCurrentStep 0 s))).

Definition endTour (s : Tour) : Tour :=
  speak "Tour completed"
    (trackClick "help_tour_complete" (setCurrentStep 0 (setShowTour false s))).

Definition skipTour (s : Tour) : Tour :=
  trackClick "help_tour_skip" (setCurrentStep 0 (setShowTour false s)).

Definition nextStep (s : Tour) : option Tour :=
  if (currentStep s <? List.length helpSteps - 1)%nat
  then speakTitle (currentStep s + 1) (setCurrentStep (currentStep s + 1) s)
  else Some (endTour s).

Definition prevStep (s : Tour) : option Tour :=
  if (0 <? currentStep s)%nat
  then speakTitle (currentStep s - 1) (setCurrentStep (currentStep s - 1) s)
  else Some s.

(** The [keydown] listener; it is registered only while the tour shows. *)
Definition handleKeyDown (key : string) (s : Tour) : option Tour :=
  if negb (showTour s) then Some s
  else if String.eqb key "ArrowRight" || String.eqb key "Enter" then nextStep s
  else if String.eqb key "ArrowLeft" then prevStep s
  else if String.eqb key "Escape" then Some (endTour s)
  else Some s.

(** What the user can do to the tour. *)
Inductive TourEvent : Type :=
| ClickStart
| ClickNext
| ClickPrev
| ClickSkip
| KeyDown (key : string).

Definition handleTourEvent (s : Tour) (e : TourEvent) : option Tour :=
  match e with
  | ClickStart => Some (startTour s)
  | ClickNext => nextStep s
  | ClickPrev => prevStep s
  | ClickSkip => Some (skipTour s)
  | KeyDown key => handleKeyDown key s
  end.

Fixpoint handleTourEvents (s : Tour) (es : list TourEvent) : option Tour :=
  match es with
  | [] => Some s
  | e :: rest =>
      match handleTourEvent s e with
      | Some s' => handleTourEvents s' rest
      | None => None
      end
  end.

End HelpTour.

(** The cells as [useState] initialises them. *)
Definition initialTour : Tour := mkTour 0 false [] [].

(* ===================================================================== *)
(** ** Privacy-respecting analytics *)
(* ===================================================================== *)

(** [AnalyticsEvent['type']] *)
Inductive EventType : Type :=
| PageView | Interaction | SearchEvent | ExportEvent | FilterEvent | ErrorEvent.

(** A value of an event's [data]: what [typeof] and [Array.isArray] tell
    apart.  [OtherValue] stands for the rest (objects, [null],
    [undefined], functions). *)
#[warnings="-register-all"] Inductive DataValue : Type :=
| StringData (s : string)
| NumberData (n : number)
| BooleanData (b : bool)
| ArrayData (items : list DataValue)
| OtherValue.

(** A [Record<string, any>]: its own properties in the order of
    [Object.entries]. *)
Definition DataRecord : Type := list (string * DataValue).

Record AnalyticsEvent : Type := mkEvent {
  ev_type : EventType;
  ev_data : DataRecord;
  ev_timestamp : number;
  ev_sessionId : string
}.

Record UserPreferences : Type := mkPreferences {
  analyticsEnabled : bool;
  dataRetentionDays : number
}.

(** [Partial<UserPreferences>] *)
Record PartialPreferences : Type := mkPartialPreferences {
  pp_analyticsEnabled : option bool;
  pp_dataRetentionDays : option number
}.

(** The fields of a [PrivacyAnalytics] object, and the preferences entry
    of [localStorage] it writes. *)
Record PrivacyAnalytics : Type := mkAnalytics {
  pa_events : list AnalyticsEvent;
  pa_sessionId : string;
  pa_preferences : UserPreferences;
  pa_savedPreferences : option UserPreferences
}.

Definition maxEvents : nat := 1000.

Definition sensitiveFields : list string :=
  ["email"; "phone"; "address"; "name"; "ssn"; "id";
   "password"; "token"; "key"; "secret"; "auth"].

Definition isSensitiveField (fieldName : string) : bool :=
  existsb (fun field => includes (toLowerCase fieldName) field)
    sensitiveFields.

(** [obj[key] = value] on a record: the property keeps its place when it
    exists and is added last otherwise. *)
Fixpoint assign (key : string) (value : DataValue) (obj : DataRecord)
    : DataRecord :=
  match obj with
  | [] => [(key, value)]
  | (k, v) :: rest =>
      if String.eqb k key then (k, value) :: rest
      else (k, v) :: assign key value rest
  end.

(** [array.slice(-n)]: the last [n] elements. *)
Definition slice_last {A} (n : nat) (l : list A) : list A :=
  skipn (List.length l - n) l.

Section Analytics.

(** The three [replace] calls of [sanitizeString], which put [email],
    [phone] and [ssn] in the place of what their patterns match. *)
Variable redact : string -> string.

(** The k-th reading of the clock by [Date.now()] returns [now_ms k]. *)
Variable now_ms : nat -> number.

Definition sanitizeString (str : string) : string :=
  substring 0 100 (redact str).

(** [typeof item === 'string' ? this.sanitizeString(item) : item] *)
Definition sanitizeItem (item : DataValue) : DataValue :=
  match item with
  | StringData s => StringData (sanitizeString s)
  | _ => item
  end.

(** One round of the loop of [sanitizeData]. *)
Definition sanitizeEntry (sanitized : DataRecord) (entry : string * DataValue)
    : DataRecord :=
  let (key, value) := entry in
  if isSensitiveField key then sanitized
  else
    match value with
    | StringData s => assign key (StringData (sanitizeString s)) sanitized
    | NumberData _ | BooleanData _ => assign key value sanitized
    | ArrayData items => assign key (ArrayData (map sanitizeItem items)) sanitized
    | OtherValue => sanitized
    end.

Definition sanitizeData (data : DataRecord) : DataRecord :=
  fold_left sanitizeEntry data [].

Definition cleanupOldEvents (a : PrivacyAnalytics) : Sim PrivacyAnalytics :=
  now <- Date_now now_ms ;;
  let cutoffTime :=
    (now - dataRetentionDays (pa_preferences a) * Fin 24 * Fin 60 * Fin 60
           * Fin 1000)%js in
  let events :=
    filter (fun event => (ev_timestamp event >? cutoffTime)%js) (pa_events a) in
  let events :=
    if (maxEvents <? List.length events)%nat
    then slice_last maxEvents events else events in
  ret (mkAnalytics events (pa_sessionId a) (pa_preferences a)
         (pa_savedPreferences a)).

Definition clearAllData (a : PrivacyAnalytics) : PrivacyAnalytics :=
  mkAnalytics [] (pa_sessionId a) (pa_preferences a) (pa_savedPreferences a).

(** [{ ...this.preferences, ...preferences }] *)
Definition mergePreferences (old : UserPreferences)
    (new : PartialPreferences) : UserPreferences :=
  mkPreferences
    (match pp_analyticsEnabled new with
     | Some b => b
     | None => analyticsEnabled old
     end)
    (match pp_dataRetentionDays new with
     | Some d => d
     | None => dataRetentionDays old
     end).

Definition setPreferences (preferences : PartialPreferences)
    (a : PrivacyAnalytics) : PrivacyAnalytics :=
  let merged := mergePreferences (pa_preferences a) preferences in
  let a := mkAnalytics (pa_events a) (pa_sessionId a) merged (Some merged) in
  if negb (analyticsEnabled merged) then clearAllData a else a.

Definition track (type : EventType) (data : DataRecord) (a : PrivacyAnalytics)
    : Sim PrivacyAnalytics :=
  if negb (analyticsEnabled (pa_preferences a)) then ret a
  else
    let sanitizedData := sanitizeData data in
    now <- Date_now now_ms ;;
    let event := mkEvent type sanitizedData now (pa_sessionId a) in
    cleanupOldEvents
      (mkAnalytics (pa_events a ++ [event]) (pa_sessionId a)
         (pa_preferences a) (pa_savedPreferences a)).

(** The constructor: [sessionId] is the generated identifier and
    [loaded] what [loadPreferences] read from [localStorage], if it held
    preferences. *)
Definition newPrivacyAnalytics (sessionId : string)
    (loaded : option UserPreferences) : Sim PrivacyAnalytics :=
  let preferences :=
    match loaded with
    | Some p => p
    | None => mkPreferences true (Fin 30)
    end in
  cleanupOldEvents (mkAnalytics [] sessionId preferences loaded).

(** The calls the hooks make on the one analytics object. *)
Inductive AnalyticsCall : Type :=
| Track (type : EventType) (data : DataRecord)
| UpdatePreferences (preferences : PartialPreferences)
| ClearData.

Definition analyticsCall (a : PrivacyAnalytics) (c : AnalyticsCall)
    : Sim PrivacyAnalytics :=
  match c with
  | Track type data => track type data a
  | UpdatePreferences preferences => ret (setPreferences preferences a)
  | ClearData => ret (clearAllData a)
  end.

Fixpoint analyticsCalls (a : PrivacyAnalytics) (cs : list AnalyticsCall)
    : Sim PrivacyAnalytics :=
  match cs with
  | [] => ret a
  | c :: rest => a' <- analyticsCall a c ;; analyticsCalls a' rest
  end.

End Analytics.

(* ===================================================================== *)
(** ** Predicates and sample inputs used in the statements *)
(* ===================================================================== *)

(** The fields of a project that no tick writes. *)
Definition sameProjectFrame (p p' : Project) : Prop :=
  p_id p' = p_id p /\ p_name p' = p_name p /\
  p_department p' = p_department p /\ budget p' = budget p /\
  startDate p' = startDate p /\ endDate p' = endDate p /\
  p_region p' = p_region p /\ p_description p' = p_description p.

(** The fields of a budget that no tick writes. *)
Definition sameBudgetFrame (b b' : Budget) : Prop :=
  b_id b' = b_id b /\ b_department b' = b_department b /\
  b_category b' = b_category b /\ allocated b' = allocated b /\
  b_region b' = b_region b.

(** [status = Completed] only with [progress >= 100]. *)
Definition completedOnlyWhenFull (p : Project) : Prop :=
  p_status p = Completed -> (progress p >=? Fin 100)%js = true.


(** A budget whose spending is at most 115% of a non-negative allocation. *)
Definition withinCap (b : Budget) : Prop :=
  (Fin 0 <=? allocated b)%js = true /\
  isFinite (allocated b) = true /\
  (b_spent b <=? allocated b * Fin 1.15)%js = true.

(** An oracle whose every draw is [q]. *)
Definition steady (q : Q) : nat -> Q := fun _ => q.

(** A clock stuck at one instant. *)
Definition frozenClock : nat -> string := fun _ => "2025-01-01T00:00:00.000Z".

(** A finished project that is still flagged as delayed. *)
Definition finishedProject : Project :=
  mkProject "p0" "Finished Works" "Transport" (Fin 1000000) (Fin 990000)
    Delayed (Fin 100) "2023-01-01" "2024-01-01" "National"
    "Completed road works." "2024-01-01T00:00:00.000Z" (Fin 55).

Definition finishedStore : Store := mkStore [] [finishedProject] [] [].


(** Draws under which every project is rewritten at every tick with an
    increment of 0.04 and a risk draw of 0.99, and no budget is rewritten:
    a tick makes 9 x 4 draws for the projects, then 8 for the budgets. *)
Definition driftOracle (k : nat) : Q :=
  let r := (k mod 44)%nat in
  if (r <? 36)%nat then (if (r mod 4 =? 3)%nat then 0.99 else 0.01) else 0.99.

(** Either [+Infinity] or a finite number that is not negative. *)
Definition nonnegOrInf (x : number) : Prop :=
  match x with
  | PosInf => True
  | Fin q => (0 <= q)%Q
  | _ => False
  end.

(** A finite number between two rationals. *)
Definition finiteBetween (lo hi : Q) (x : number) : Prop :=
  exists q, x = Fin q /\ (lo <= q <= hi)%Q.

(** A budget with nothing allocated and nothing spent, and one with
    nothing allocated and something spent. *)
Definition emptyBudget : Budget :=
  mkBudget "b0" "Archives" "Public Services" (Fin 0) (Fin 0) "National"
    "2025-01-01T00:00:00.000Z".

Definition unfundedBudget : Budget :=
  mkBudget "b9" "Archives" "Public Services" (Fin 0) (Fin 5000) "National"
    "2025-01-01T00:00:00.000Z".

(** A budget whose allocation went negative. *)
Definition clawedBackBudget : Budget :=
  mkBudget "b8" "Archives" "Public Services" (Fin (-1000)) (Fin 250)
    "National" "2025-01-01T00:00:00.000Z".

(** The expenditure names no project (the property is absent or is the
    empty string), or names a project of the list lying in the region. *)
Definition namesNoProjectOrOneIn (ps : list Project) (region : string)
    (e : Expenditure) : Prop :=
  e_projectId e = None \/ e_projectId e = Some EmptyString \/
  exists p, In p ps /\ e_projectId e = Some (p_id p) /\ p_region p = region.

(** A date parser for the examples: every string is the epoch. *)
Definition epochOnly : string -> number := fun _ => Fin 0.

(** An expenditure whose projectId is the empty string. *)
Definition unlinkedExpenditure : Expenditure :=
  mkExpenditure "x-tx0" (Some EmptyString) "Health" "Procurement expense"
    (Fin 50000) "2025-01-01T00:00:00.000Z" "Procurement".

Definition ruralExpenditure : Expenditure :=
  mkExpenditure "p1-tx0" (Some "p1") "Health" "Procurement expense"
    (Fin 50000) "2025-01-01T00:00:00.000Z" "Procurement".

Definition nationalExpenditure : Expenditure :=
  mkExpenditure "p2-tx0" (Some "p2") "Transport" "Labor expense"
    (Fin 70000) "2025-01-02T00:00:00.000Z" "Labor".

(** A draft as the form leaves it once subject and description are typed. *)
Definition sampleDraft : ReportDraft :=
  mkDraft None None (Some "Budget Concern: Health")
    (Some "Spending is far ahead of reported progress.")
    (Some "Health") None None None None None.

(** A draft awaiting confirmation whose type is the empty string. *)
Definition untypedPage : ReportPage :=
  mkPage true true
    (mkDraft None (Some EmptyString) (Some "Budget Concern: Health")
       (Some "Spending is far ahead of reported progress.")
       (Some "Health") None None None (Some High) None)
    [].

(** Open the form, fill it in, submit, and confirm at clock reading [t]. *)
Definition fileReport (t : Z) (iso : string) (s : ReportPage) : ReportPage :=
  confirmSubmitReport t iso (submitReport (openReportModal sampleDraft s)).

(** Risk is a number of at least 10, and of at most 90 while the project
    is Delayed or At Risk. *)
Definition riskBounded (p : Project) : Prop :=
  (Fin 0 <=? risk p)%js = true /\
  (Fin 10 <=? risk p)%js = true /\
  (p_status p = Delayed \/ p_status p = AtRisk ->
   (risk p <=? Fin 90)%js = true).

(** A project whose progress is a number between 0 and 100. *)
Definition progressBounded (p : Project) : Prop :=
  (Fin 0 <=? progress p)%js = true /\ (progress p <=? Fin 100)%js = true.

(** The status is kept or becomes Completed; the identifier is kept. *)
Definition statusKeptOrCompleted (p p' : Project) : Prop :=
  p_id p' = p_id p /\ (p_status p' = p_status p \/ p_status p' = Completed).

(** A budget with a positive allocation and a spent between 0 and 115%
    of it. *)
Definition fundedWithinCap (b : Budget) : Prop :=
  exists a sq, allocated b = Fin a /\ b_spent b = Fin sq /\
               (0 < a)%Q /\ (0 <= sq <= a * 1.15)%Q.

(** How many projects of the list have the status [k]. *)
Definition withStatus (k : ProjectStatus) (ps : list Project) : nat :=
  List.length (filter (fun p => ProjectStatus_eqb (p_status p) k) ps).

(** Draws under which, for the first thirteen ticks, every project is
    rewritten at every tick with an increment of 3.96 and no budget is
    rewritten. *)
Definition rushOracle (k : nat) : Q :=
  let r := (k mod 44)%nat in
  if (r <? 36)%nat
  then match (r mod 4)%nat with O => 0.01 | 1%nat => 0.99 | _ => 0.5 end
  else 0.99.

(** Under the comparator [cmp], [x] need not be moved behind [y]. *)
Definition notAfter {A} (cmp : A -> A -> number) (x y : A) : Prop :=
  (cmp x y >? Fin 0)%js = false.

(** The condition the four filter steps of [filteredBudgets] add up to. *)
Definition keepsBudget (search filterDept filterRegion filterCategory : string)
    (b : Budget) : bool :=
  (negb (nonempty search) || matchesBudgetSearch search b)
  && (String.eqb filterDept "All" || String.eqb (b_department b) filterDept)
  && (String.eqb filterRegion "All" || String.eqb (b_region b) filterRegion)
  && (String.eqb filterCategory "All"
      || String.eqb (b_category b) filterCategory).

(** The condition the four filter steps of [filteredProjects] add up to. *)
Definition keepsProject (search filterDept filterRegion filterStatus : string)
    (p : Project) : bool :=
  (negb (nonempty search) || matchesProjectSearch search p)
  && (String.eqb filterDept "All" || String.eqb (p_department p) filterDept)
  && (String.eqb filterRegion "All" || String.eqb (p_region p) filterRegion)
  && (String.eqb filterStatus "All"
      || String.eqb (statusLabel (p_status p)) filterStatus).

(** [a === b] on two field values. *)
Definition strictEquals (a b : FieldValue) : bool :=
  match a, b with
  | NumberValue (Fin p), NumberValue (Fin q) => Qeq_bool p q
  | NumberValue PosInf, NumberValue PosInf => true
  | NumberValue NegInf, NumberValue NegInf => true
  | StringValue s, StringValue t => String.eqb s t
  | _, _ => false
  end.

(** A [localeCompare] for the examples: the order by code units. *)
Definition codeUnitCompare (a b : string) : number := defaultCompare a b.

(** A [String(n)] for the examples. *)
Definition noDigits (n : number) : string := EmptyString.

(** The identifier of an entry of the comparison panel. *)
Definition itemId (x : Budget + Project) : string :=
  match x with
  | inl b => b_id b
  | inr p => p_id p
  end.

(** Some budget or some project of the store carries the identifier. *)
Definition inStore (bs : list Budget) (ps : list Project) (id : string) : bool :=
  existsb (fun b => String.eqb (b_id b) id) bs
  || existsb (fun p => String.eqb (p_id p) id) ps.

(** Budget identifiers are written with a leading [b], as the seeded ones. *)
Definition budgetIdShape (b : Budget) : Prop :=
  exists t, b_id b = String "b" t.

Definition isConfirm (e : ReportEvent) : bool :=
  match e with ConfirmSubmit _ _ => true | _ => false end.

(** A field that holds a non-empty string. *)
Definition filled (o : option string) : Prop :=
  exists v, o = Some v /\ v <> EmptyString.

(** The draft carries a type and a severity. *)
Definition draftClassified (d : ReportDraft) : Prop :=
  d_type d <> None /\ d_severity d <> None.

(** The page after the form was opened and a subject and a description
    were typed. *)
Definition typedPage : ReportPage :=
  handleReportEvents initialPage
    [OpenReport defaultDraft; ChangeSubject "Budget Concern: Health";
     ChangeDescription "Spending above plan."].

(** The whole number of units of [unit] milliseconds that fit in [d]. *)
Definition wholeUnits (d unit : Q) : number :=
  Fin (inject_Z (Qfloor (d / unit))).

(** A [String(n)] for the examples: the decimal digits of a whole number. *)
Definition showWhole (n : number) : string :=
  match n with
  | Fin q => NilZero.string_of_int (Z.to_int (Qfloor q))
  | NaN => "NaN"
  | PosInf => "Infinity"
  | NegInf => "-Infinity"
  end.

(** A [getTime] for the examples: every string reads as the epoch, but
    for the empty one, which is no date. *)
Definition epochUnlessEmpty (iso : string) : number :=
  if nonempty iso then Fin 0 else NaN.

(** The three identifiers the seeding gives to the expenditures of a
    project. *)
Definition expenditureIds (p : Project) : list string :=
  [p_id p ++ "-tx0"; p_id p ++ "-tx1"; p_id p ++ "-tx2"].

(** An expenditure as the seeding writes it for one project of [ps]. *)
Definition seededFrom (ps : list Project) (e : Expenditure) : Prop :=
  exists p i,
    In p ps /\ (i < 3)%nat /\
    e_id e = p_id p ++ "-tx" ++ indexToString i /\
    e_projectId e = Some (p_id p) /\
    e_department e = p_department p /\
    e_category e = cats_at i /\
    e_description e = e_category e ++ " expense" /\
    exists a, amount e = Fin (inject_Z a) /\ (20000 <= a <= 220000)%Z.

(** A [Date.now()] and a [toISOString] for the examples: a clock stuck at
    one instant. *)
Definition frozenNow : nat -> number := fun _ => Fin 1735689600000.

Definition frozenISO : number -> string :=
  fun _ => "2025-01-01T00:00:00.000Z".

(** An item of a stored array, as far as [sanitizeData] looks at it: a
    string has at most 100 characters.  Nothing is said of an item that
    is not a string: an array or an object inside an array is stored as
    it was given, with whatever it holds. *)
Definition shortIfString (v : DataValue) : Prop :=
  match v with
  | StringData s => (String.length s <= 100)%nat
  | _ => True
  end.

(** The value of a stored field: a string of at most 100 characters, a
    number, a boolean, or an array whose string items have at most 100
    characters each; never an object. *)
Definition sanitizedValue (v : DataValue) : Prop :=
  match v with
  | StringData s => (String.length s <= 100)%nat
  | NumberData _ | BooleanData _ => True
  | ArrayData items => Forall shortIfString items
  | OtherValue => False
  end.

(** A record with no sensitive field name, whose fields hold sanitized
    values only. *)
Definition sanitizedRecord (d : DataRecord) : Prop :=
  Forall (fun entry => isSensitiveField (fst entry) = false /\
                       sanitizedValue (snd entry)) d.

(** What one call keeps true of the object: at most [maxEvents] events,
    each carrying the object's session identifier and sanitized data. *)
Definition storeInvariant (a : PrivacyAnalytics) : Prop :=
  (List.length (pa_events a) <= maxEvents)%nat /\
  Forall (fun e => ev_sessionId e = pa_sessionId a /\
                   sanitizedRecord (ev_data e)) (pa_events a).

(** A call that does not switch the analytics on. *)
Definition keepsOptOut (c : AnalyticsCall) : Prop :=
  match c with
  | UpdatePreferences p => pp_analyticsEnabled p <> Some true
  | _ => True
  end.

(** A [redact] for the examples: nothing is replaced. *)
Definition noRedaction (s : string) : string := s.

(** A string of ASCII characters only.  On such a string
    [String.prototype.toLowerCase] lowers the letters A to Z and leaves
    the rest, which is what [toLowerCase] does. *)
Definition asciiOnly (s : string) : bool :=
  forallb (fun c => (nat_of_ascii c <? 128)%nat) (list_ascii_of_string s).

(** There is no search, or the search and the texts it is matched against
    are ASCII. *)
Definition asciiBudgetSearch (search : string) (bs : list Budget) : Prop :=
  search = EmptyString \/
  (asciiOnly search = true /\
   Forall (fun b => asciiOnly (b_department b) = true /\
                    asciiOnly (b_category b) = true) bs).

Definition asciiProjectSearch (search : string) (ps : list Project) : Prop :=
  search = EmptyString \/
  (asciiOnly search = true /\
   Forall (fun p => asciiOnly (p_name p) = true /\
                    asciiOnly (p_department p) = true) ps).

(** A comparator of strings that orders them consistently, as
    [localeCompare] does: its verdict is never NaN, the verdicts on a pair
    and on the swapped pair have opposite signs, and coming no later is
    transitive. *)
Definition consistentCompare (cmp : string -> string -> number) : Prop :=
  (forall a b, isNaN (cmp a b) = false) /\
  (forall a b, (Fin 0 <? cmp a b)%js = (cmp b a <? Fin 0)%js) /\
  (forall a b c, (cmp a b <=? Fin 0)%js = true ->
                 (cmp b c <=? Fin 0)%js = true ->
                 (cmp a c <=? Fin 0)%js = true).

(** The numbers in column [k] are finite (no NaN, no infinity), so that
    their differences order the budgets consistently. *)
Definition finiteColumn (k : BudgetKey) (bs : list Budget) : Prop :=
  Forall (fun b => match budgetField k b with
                   | NumberValue n => isFinite n = true
                   | StringValue _ => True
                   end) bs.

Definition finiteSortColumn (cfg : SortConfig BudgetKey) (bs : list Budget)
    : Prop :=
  match sort_key cfg with
  | Some k => finiteColumn k bs
  | None => True
  end.

(* ===================================================================== *)
(** * Properties *)
(* ===================================================================== *)

(** ** Comparisons on rationals and numbers *)

Lemma Qle_bool_reflect (a b : Q) : reflect (a <= b)%Q (Qle_bool a b).
Proof.
  destruct (Qle_bool a b) eqn:E; constructor.
  - now apply Qle_bool_iff.
  - intros H. apply Qle_bool_iff in H. congruence.
Qed.

Lemma Qlt_bool_reflect (a b : Q) : reflect (a < b)%Q (Qlt_bool a b).
Proof.
  unfold Qlt_bool.
  destruct (Qle_bool_reflect b a); constructor; lra.
Qed.

Lemma Qeq_bool_reflect (a b : Q) : reflect (a == b)%Q (Qeq_bool a b).
Proof.
  destruct (Qeq_bool a b) eqn:E; constructor.
  - now apply Qeq_bool_iff.
  - intros H. apply Qeq_bool_iff in H. congruence.
Qed.

Lemma le_Fin (a b : Q) : (Fin a <=? Fin b)%js = true <-> (a <= b)%Q.
Proof. simpl. destruct (Qle_bool_reflect a b); intuition congruence. Qed.

Lemma lt_Fin (a b : Q) : (Fin a <? Fin b)%js = true <-> (a < b)%Q.
Proof. simpl. destruct (Qlt_bool_reflect a b); intuition congruence. Qed.

Lemma lt_le_false (x y : number) :
  (x <? y)%js = true -> (y <=? x)%js = false.
Proof.
  destruct x, y; simpl; try congruence.
  unfold Qlt_bool. now destruct (Qle_bool q0 q).
Qed.

(** Case analysis on [Math.min] / [Math.max] of two finite numbers. *)
Lemma Math_min_Fin (a b : Q) :
  exists m, Math_min (Fin a) (Fin b) = Fin m /\
            ((a <= b /\ m = a) \/ (b < a /\ m = b))%Q.
Proof.
  simpl. destruct (Qle_bool_reflect a b).
  - exists a. split; auto.
  - exists b. split; auto. right. split; auto. lra.
Qed.

Lemma Math_max_Fin (a b : Q) :
  exists m, Math_max (Fin a) (Fin b) = Fin m /\
            ((a <= b /\ m = b) \/ (b < a /\ m = a))%Q.
Proof.
  simpl. destruct (Qle_bool_reflect a b).
  - exists b. split; auto.
  - exists a. split; auto. right. split; auto. lra.
Qed.

(** Rounding keeps a number between two integers it lies between. *)
Lemma Qfloor_half_bounds (q : Q) (lo hi : Z) :
  (inject_Z lo <= q <= inject_Z hi)%Q ->
  (lo <= Qfloor (q + (1 # 2)) <= hi)%Z.
Proof.
  intros [Hlo Hhi]. split.
  - rewrite <- (Qfloor_Z lo). apply Qfloor_resp_le. lra.
  - pose proof (Qfloor_le (q + (1 # 2))) as Hle.
    assert (H : (inject_Z (Qfloor (q + (1 # 2))) < inject_Z (hi + 1))%Q).
    { rewrite inject_Z_plus. change (inject_Z 1) with 1%Q. lra. }
    rewrite <- Zlt_Qlt in H. lia.
Qed.

Lemma Math_round_nonneg (q : Q) :
  (0 <= q)%Q -> exists m, Math_round (Fin q) = Fin m /\ (0 <= m)%Q.
Proof.
  intros Hq. exists (inject_Z (Qfloor (q + (1 # 2)))). split; [reflexivity|].
  change 0%Q with (inject_Z 0). rewrite <- Zle_Qle.
  rewrite <- (Qfloor_Z 0). apply Qfloor_resp_le.
  change (inject_Z 0) with 0%Q. lra.
Qed.

(** ** The effect monad *)

(** A relation that every call of the callback establishes between its
    argument and its result holds position by position. *)
Lemma mapM_Forall2 {A B} (f : A -> Sim B) (P : A -> Prop)
    (R : A -> B -> Prop) :
  (forall x w, P x -> R x (fst (f x w))) ->
  forall l w, Forall P l -> Forall2 R l (fst (mapM f l w)).
Proof.
  intros Hf. induction l as [|x xs IH]; intros w Hl; simpl.
  - constructor.
  - inversion Hl as [|? ? Hx Hxs]; subst.
    unfold bind. pose proof (Hf x w Hx) as Hy.
    destruct (f x w) as [y w1]. specialize (IH w1 Hxs).
    destruct (mapM f xs w1) as [ys w2]. simpl in *.
    constructor; assumption.
Qed.

Lemma mapM_Forall {A} (f : A -> Sim A) (P : A -> Prop) :
  (forall x w, P x -> P (fst (f x w))) ->
  forall l w, Forall P l -> Forall P (fst (mapM f l w)).
Proof.
  intros Hf l w Hl.
  pose proof (@mapM_Forall2 A A f P (fun _ y => P y) Hf l w Hl) as H.
  remember (fst (mapM f l w)) as l'. clear Heql' Hl.
  induction H; constructor; auto.
Qed.

Lemma Forall2_nth_error {A B} (R : A -> B -> Prop) (l : list A) (l' : list B) :
  Forall2 R l l' ->
  forall i x, nth_error l i = Some x ->
              exists y, nth_error l' i = Some y /\ R x y.
Proof.
  induction 1 as [|a b l l' Hab _ IH]; intros i x Hi.
  - destruct i; discriminate.
  - destruct i as [|i]; simpl in *.
    + inversion Hi; subst. eauto.
    + eauto.
Qed.

(** Running one more tick is running the ticks and then one tick. *)
Lemma iterM_S_last {A} (f : A -> Sim A) (n : nat) (a : A) (w : World) :
  iterM (S n) f a w = (let (a', w') := iterM n f a w in f a' w').
Proof.
  revert a w. induction n as [|n IH]; intros a w.
  - simpl. unfold bind, ret. now destruct (f a w).
  - change (iterM (S (S n)) f a w)
      with (let (a1, w1) := f a w in iterM (S n) f a1 w1).
    destruct (f a w) as [a1 w1] eqn:E.
    rewrite IH. simpl. unfold bind. now rewrite E.
Qed.

Lemma iterM_invariant {A} (f : A -> Sim A) (I : A -> Prop) :
  (forall a w, I a -> I (fst (f a w))) ->
  forall n a w, I a -> I (fst (iterM n f a w)).
Proof.
  intros Hf. induction n as [|n IH]; intros a w Ha; simpl; [assumption|].
  unfold bind. pose proof (Hf a w Ha) as H1.
  destruct (f a w) as [a1 w1]. now apply IH.
Qed.

(** ** Arithmetic on finite numbers *)

Lemma add_Fin (a b : Q) : (Fin a + Fin b)%js = Fin (a + b).
Proof. reflexivity. Qed.

Lemma sub_Fin (a b : Q) : (Fin a - Fin b)%js = Fin (a - b).
Proof. reflexivity. Qed.

Lemma mul_Fin (a b : Q) : (Fin a * Fin b)%js = Fin (a * b).
Proof. reflexivity. Qed.

Lemma div_Fin (a b : Q) : ~ (b == 0)%Q -> (Fin a / Fin b)%js = Fin (a / b).
Proof.
  intros Hb. simpl. destruct (Qeq_bool_reflect b 0); [contradiction|reflexivity].
Qed.

Create Rewrite HintDb js_fin.
#[local] Hint Rewrite add_Fin sub_Fin mul_Fin : js_fin.

Ltac js_fin := autorewrite with js_fin in *.

(* ===================================================================== *)
(** ** Ticker: what one callback returns *)
(* ===================================================================== *)

Section TickerFacts.

Variable random : nat -> Q.
Variable clock : nat -> string.

#[local] Abbreviation tickP := (tickProject random clock).
#[local] Abbreviation tickB := (tickBudget random clock).
#[local] Abbreviation tick1 := (tick random clock).
#[local] Abbreviation run := (run_ticks random clock).

Lemma tickProject_result (p : Project) (w : World) :
  fst (tickP p w) =
    let k := random_calls w in
    if (Fin (random k) <? Fin 0.2)%js && (progress p <? Fin 100)%js
    then updatedProject p (Fin (random (1 + k))) (Fin (random (2 + k)))
           (clock (clock_calls w)) (Fin (random (3 + k)))
    else p.
Proof.
  unfold tickProject, bind, Math_random, Date_toISOString, ret.
  cbv zeta. cbn [random_calls clock_calls].
  destruct ((Fin (random (random_calls w)) <? Fin 0.2)%js
            && (progress p <? Fin 100)%js); reflexivity.
Qed.

Lemma tickBudget_result (b : Budget) (w : World) :
  fst (tickB b w) =
    let k := random_calls w in
    if (Fin (random k) <? Fin 0.15)%js
    then updatedBudget b (Fin (random (1 + k))) (clock (clock_calls w))
    else b.
Proof.
  unfold tickBudget, bind, Math_random, Date_toISOString, ret.
  cbv zeta. cbn [random_calls clock_calls].
  destruct (Fin (random (random_calls w)) <? Fin 0.15)%js; reflexivity.
Qed.

Lemma tick_projects (s : Store) (w : World) :
  projects (fst (tick1 s w)) = fst (mapM tickP (projects s) w).
Proof.
  unfold tick, bind, ret.
  destruct (mapM tickP (projects s) w) as [ps w1].
  destruct (mapM tickB (budgets s) w1) as [bs w2]. reflexivity.
Qed.

Lemma tick_budgets (s : Store) (w : World) :
  budgets (fst (tick1 s w)) =
    fst (mapM tickB (budgets s)
           (snd (mapM tickP (projects s) w))).
Proof.
  unfold tick, bind, ret.
  destruct (mapM tickP (projects s) w) as [ps w1].
  cbn [snd].
  destruct (mapM tickB (budgets s) w1) as [bs w2]. reflexivity.
Qed.

Lemma tick_others (s : Store) (w : World) :
  expenditures (fst (tick1 s w)) = expenditures s /\
  reports (fst (tick1 s w)) = reports s.
Proof.
  unfold tick, bind, ret.
  destruct (mapM tickP (projects s) w) as [ps w1].
  destruct (mapM tickB (budgets s) w1) as [bs w2]. split; reflexivity.
Qed.

(** Whatever holds of a project left alone and of a project rebuilt from
    any three draws holds of what the callback returns. *)
Lemma tickProject_either (R : Project -> Project -> Prop) (p : Project) :
  R p p ->
  (forall k1 k2 k3 now,
      (progress p <? Fin 100)%js = true ->
      R p (updatedProject p (Fin (random k1)) (Fin (random k2)) now
             (Fin (random k3)))) ->
  forall w, R p (fst (tickP p w)).
Proof.
  intros Hsame Hupd w. rewrite tickProject_result. cbv zeta.
  destruct (Fin (random (random_calls w)) <? Fin 0.2)%js; cbn [andb];
    [|assumption].
  destruct (progress p <? Fin 100)%js eqn:E; [|assumption].
  now apply Hupd.
Qed.

Lemma tickBudget_either (R : Budget -> Budget -> Prop) (b : Budget) :
  R b b ->
  (forall k now, R b (updatedBudget b (Fin (random k)) now)) ->
  forall w, R b (fst (tickB b w)).
Proof.
  intros Hsame Hupd w. rewrite tickBudget_result. cbv zeta.
  destruct (Fin (random (random_calls w)) <? Fin 0.15)%js; auto.
Qed.

(** A tick1 relates the collections position by position. *)
Lemma tick_pointwise (PP : Project -> Prop) (RP : Project -> Project -> Prop)
    (PB : Budget -> Prop) (RB : Budget -> Budget -> Prop) :
  (forall p w, PP p -> RP p (fst (tickP p w))) ->
  (forall b w, PB b -> RB b (fst (tickB b w))) ->
  forall s w,
    Forall PP (projects s) -> Forall PB (budgets s) ->
    Forall2 RP (projects s) (projects (fst (tick1 s w))) /\
    Forall2 RB (budgets s) (budgets (fst (tick1 s w))).
Proof.
  intros HP HB s w Hps Hbs. rewrite tick_projects, tick_budgets. split.
  - now apply mapM_Forall2 with (P := PP).
  - now apply mapM_Forall2 with (P := PB).
Qed.

Lemma run_ticks_invariant (I : Store -> Prop) :
  (forall s w, I s -> I (fst (tick1 s w))) ->
  forall n s w, I s -> I (fst (run n s w)).
Proof. intros H n s w. now apply iterM_invariant. Qed.

(** An invariant of single projects is an invariant of the store. *)
Lemma run_ticks_Forall_projects (P : Project -> Prop) :
  (forall p w, P p -> P (fst (tickP p w))) ->
  forall n s w, Forall P (projects s) ->
                Forall P (projects (fst (run n s w))).
Proof.
  intros HP n s w.
  apply (run_ticks_invariant (fun s => Forall P (projects s))).
  intros s0 w0 H0. rewrite tick_projects. now apply mapM_Forall.
Qed.

Lemma run_ticks_Forall_budgets (P : Budget -> Prop) :
  (forall b w, P b -> P (fst (tickB b w))) ->
  forall n s w, Forall P (budgets s) ->
                Forall P (budgets (fst (run n s w))).
Proof.
  intros HP n s w.
  apply (run_ticks_invariant (fun s => Forall P (budgets s))).
  intros s0 w0 H0. rewrite tick_budgets. now apply mapM_Forall.
Qed.

End TickerFacts.

(* ===================================================================== *)
(** ** Ticker: frame, frozen projects, completion *)
(* ===================================================================== *)

Lemma Forall2_map_eq {A B} (f : A -> B) (l l' : list A) :
  Forall2 (fun x y => f y = f x) l l' -> map f l' = map f l.
Proof. induction 1; simpl; congruence. Qed.

Lemma Forall2_weaken {A B} (R R' : A -> B -> Prop) (l : list A) (l' : list B) :
  (forall x y, R x y -> R' x y) -> Forall2 R l l' -> Forall2 R' l l'.
Proof. intros H. induction 1; constructor; auto. Qed.

Lemma Forall2_same_length {A B} (R : A -> B -> Prop) (l : list A) (l' : list B) :
  Forall2 R l l' -> List.length l' = List.length l.
Proof. induction 1; simpl; congruence. Qed.

Lemma Forall_True {A} (l : list A) : Forall (fun _ => True) l.
Proof. induction l; constructor; auto. Qed.

Lemma clamp_full (v : number) :
  (v >=? Fin 100)%js = true -> (clamp v >=? Fin 100)%js = true.
Proof.
  unfold ge, clamp, clamp_between.
  destruct v as [| | |q]; simpl; try discriminate; try reflexivity.
  intros H. destruct (Qle_bool_reflect 100 q); [|discriminate].
  destruct (Qle_bool_reflect q 0); [lra|].
  simpl. destruct (Qle_bool_reflect q 100); simpl.
  - now apply Qle_bool_iff.
  - reflexivity.
Qed.

(** Clamping reaches 100 exactly when the value does. *)
Lemma clamp_full_iff (v : number) :
  (clamp v >=? Fin 100)%js = (v >=? Fin 100)%js.
Proof.
  unfold ge, clamp, clamp_between.
  destruct v as [| | |q]; try reflexivity.
  cbn [Math_max le]. destruct (Qle_bool_reflect q 0) as [H0|H0].
  - cbn [Math_min le].
    destruct (Qle_bool_reflect 0 100) as [_|Hc]; [|exfalso; apply Hc; discriminate].
    cbn [le]. destruct (Qle_bool_reflect 100 0) as [Hc|_]; [exfalso; lra|].
    destruct (Qle_bool_reflect 100 q); [lra|reflexivity].
  - cbn [Math_min le]. destruct (Qle_bool_reflect q 100) as [H1|H1]; cbn [le].
    + reflexivity.
    + destruct (Qle_bool_reflect 100 100) as [_|Hc]; [|exfalso; lra].
      destruct (Qle_bool_reflect 100 q); [reflexivity|lra].
Qed.

Section TickerFrame.

Variable random : nat -> Q.
Variable clock : nat -> string.

Lemma tickProject_frame (p : Project) (w : World) :
  sameProjectFrame p (fst (tickProject random clock p w)).
Proof.
  apply tickProject_either; intros; repeat split; reflexivity.
Qed.

Lemma tickBudget_frame (b : Budget) (w : World) :
  sameBudgetFrame b (fst (tickBudget random clock b w)).
Proof.
  apply tickBudget_either; intros; repeat split; reflexivity.
Qed.

(** C10.  A tick keeps both collections position by position: same
    length, same identifiers in the same order, and in every record all
    fields other than progress, spent, status, updatedAt and risk (of a
    project) or spent and lastUpdated (of a budget) are unchanged.  The
    expenditures and the reports are not touched at all. *)
Theorem tick_frame (s : Store) (w : World) :
  let s' := fst (tick random clock s w) in
  List.length (projects s') = List.length (projects s) /\
  List.length (budgets s') = List.length (budgets s) /\
  map p_id (projects s') = map p_id (projects s) /\
  map b_id (budgets s') = map b_id (budgets s) /\
  Forall2 sameProjectFrame (projects s) (projects s') /\
  Forall2 sameBudgetFrame (budgets s) (budgets s') /\
  expenditures s' = expenditures s /\
  reports s' = reports s.
Proof.
  cbv zeta.
  destruct (@tick_pointwise random clock
              (fun _ => True) sameProjectFrame
              (fun _ => True) sameBudgetFrame
              ltac:(intros; apply tickProject_frame)
              ltac:(intros; apply tickBudget_frame)
              s w (Forall_True _) (Forall_True _)) as [HP HB].
  destruct (tick_others random clock s w) as [HE HR].
  repeat split; try assumption.
  - eapply Forall2_same_length; eassumption.
  - eapply Forall2_same_length; eassumption.
  - apply Forall2_map_eq.
    eapply Forall2_weaken; [|exact HP]. intros x y H. apply H.
  - apply Forall2_map_eq.
    eapply Forall2_weaken; [|exact HB]. intros x y H. apply H.
Qed.

(** The guard [p.progress < 100] fails on a finished project. *)
Lemma tickProject_full (p : Project) (w : World) :
  (progress p >=? Fin 100)%js = true ->
  fst (tickProject random clock p w) = p.
Proof.
  intros Hfull.
  apply (@tickProject_either random clock (fun _ p' => p' = p));
    [reflexivity|].
  intros k1 k2 k3 now Hlt. apply lt_le_false in Hlt.
  unfold ge in Hfull. congruence.
Qed.

(** C9.  A project whose progress is at least 100 is returned as it is
    by every later tick: after any number of ticks the same record, with
    the same spent, status, risk and updatedAt, sits at the same
    position, whatever its status. *)
Theorem full_progress_project_frozen (s : Store) (i : nat) (p : Project)
    (n : nat) (w : World) :
  nth_error (projects s) i = Some p ->
  (progress p >=? Fin 100)%js = true ->
  nth_error (projects (fst (run_ticks random clock n s w))) i = Some p.
Proof.
  intros Hi Hfull.
  apply (@run_ticks_invariant random clock
           (fun s => nth_error (projects s) i = Some p)); [|assumption].
  clear s w Hi. intros s w Hi. rewrite tick_projects.
  pose proof (@mapM_Forall2 _ _ (tickProject random clock)
                (fun _ => True)
                (fun x y => (progress x >=? Fin 100)%js = true -> y = x)
                ltac:(cbv beta; intros; now apply tickProject_full)
                (projects s) w (Forall_True _)) as HF.
  destruct (Forall2_nth_error HF _ Hi) as [y [Hy Hxy]].
  rewrite Hy. f_equal. now apply Hxy.
Qed.

Lemma tickProject_completed (p : Project) (w : World) :
  completedOnlyWhenFull p ->
  completedOnlyWhenFull (fst (tickProject random clock p w)).
Proof.
  intros Hp.
  apply (@tickProject_either random clock
           (fun _ p' => completedOnlyWhenFull p')); [assumption|].
  intros k1 k2 k3 now Hlt. unfold completedOnlyWhenFull, updatedProject.
  cbn [p_status progress].
  destruct (progress p + increment (Fin (random k1)) >=? Fin 100)%js eqn:E.
  - intros _. now apply clamp_full.
  - intros Hc. specialize (Hp Hc). apply lt_le_false in Hlt.
    unfold ge in Hp. congruence.
Qed.

(** What a callback does to the status: unless the project is returned
    as it is, the new status is Completed exactly when the progress plus
    the increment reaches 100, which is exactly when the new (clamped)
    progress does, and the old status otherwise. *)
Lemma tickProject_status (p : Project) (w : World) :
  let p' := fst (tickProject random clock p w) in
  p' = p \/
  exists inc,
    progress p' = clamp (progress p + inc)%js /\
    (progress p' >=? Fin 100)%js = (progress p + inc >=? Fin 100)%js /\
    p_status p' =
      if (progress p' >=? Fin 100)%js then Completed else p_status p.
Proof.
  cbv zeta.
  apply (@tickProject_either random clock
           (fun p p' => p' = p \/
              exists inc,
                progress p' = clamp (progress p + inc)%js /\
                (progress p' >=? Fin 100)%js
                = (progress p + inc >=? Fin 100)%js /\
                p_status p' =
                  if (progress p' >=? Fin 100)%js
                  then Completed else p_status p)).
  - now left.
  - intros k1 k2 k3 now _. right.
    exists (increment (Fin (random k1))).
    unfold updatedProject. cbn [progress p_status].
    rewrite clamp_full_iff. repeat split; reflexivity.
Qed.

(** C5.  In every store reached from the sample data by ticks, a
    Completed project has progress at least 100; and a tick that rewrites
    a project makes it Completed exactly when its progress plus the
    increment is at least 100, leaving the status alone otherwise. *)
Theorem completed_only_when_full (now : string) (exps : list Expenditure)
    (n : nat) (w : World) :
  Forall completedOnlyWhenFull
    (projects (fst (run_ticks random clock n (initialStore now exps) w)))
  /\
  (forall p w',
      let p' := fst (tickProject random clock p w') in
      p' = p \/
      exists inc,
        progress p' = clamp (progress p + inc)%js /\
        (progress p' >=? Fin 100)%js = (progress p + inc >=? Fin 100)%js /\
        p_status p' =
          if (progress p' >=? Fin 100)%js then Completed else p_status p).
Proof.
  split; [|apply tickProject_status].
  apply run_ticks_Forall_projects.
  - intros p w0. apply tickProject_completed.
  - unfold initialStore, initialProjects, completedOnlyWhenFull; cbn [projects].
    repeat constructor; cbn [p_status seedProject]; discriminate.
Qed.

End TickerFrame.

(* ===================================================================== *)
(** ** Ticker: spending bounds *)
(* ===================================================================== *)


Lemma withinCap_Fin (b : Budget) :
  withinCap b ->
  exists a sq, allocated b = Fin a /\ (0 <= a)%Q /\
               (b_spent b = NegInf \/
                (b_spent b = Fin sq /\ (sq <= a * 1.15)%Q)).
Proof.
  intros (H0 & Hf & Hle).
  destruct (allocated b) as [| | |a]; try discriminate.
  rewrite le_Fin in H0. rewrite mul_Fin in Hle.
  destruct (b_spent b) as [| | |sq]; try discriminate.
  - exists a, 0%Q. auto.
  - exists a, sq. rewrite le_Fin in Hle. auto.
Qed.

Section TickerBounds.

Variable random : nat -> Q.
Variable clock : nat -> string.

(** [Math.random()] returns a number in [0, 1). *)
Hypothesis random_range : forall k, (0 <= random k < 1)%Q.







Lemma delta_nonneg (b : Budget) (a : Q) (k : nat) :
  allocated b = Fin a -> (0 <= a)%Q ->
  exists d, delta b (Fin (random k)) = Fin d /\ (0 <= d)%Q.
Proof.
  intros Ha Ha0. unfold delta. rewrite Ha. js_fin.
  apply Math_round_nonneg. pose proof (random_range k).
  repeat apply Qmult_le_0_compat; lra.
Qed.

Lemma tickBudget_withinCap (b : Budget) (w : World) :
  withinCap b ->
  let b' := fst (tickBudget random clock b w) in
  withinCap b' /\ (b_spent b <=? b_spent b')%js = true.
Proof.
  intros Hb. cbv zeta.
  apply (@tickBudget_either random clock
           (fun b b' => withinCap b' /\ (b_spent b <=? b_spent b')%js = true)).
  - split; [assumption|].
    destruct (withinCap_Fin Hb) as (a & sq & _ & _ & [->|[-> _]]).
    + reflexivity.
    + apply le_Fin. lra.
  - intros k now. pose proof Hb as (H0 & Hf & _).
    destruct (withinCap_Fin Hb) as (a & sq & Ha & Ha0 & Hs).
    destruct (@delta_nonneg b a k Ha Ha0) as (d & Hd & Hd0).
    unfold withinCap, updatedBudget. cbn [allocated b_spent].
    rewrite Hd, Ha. js_fin.
    destruct Hs as [->|[-> Hsq]].
    + cbn. repeat split; try reflexivity. now apply Qle_bool_iff.
    + js_fin. destruct (Math_min_Fin (a * 1.15) (sq + d)) as (m & -> & Hc).
      rewrite !le_Fin. repeat split; try reflexivity; try assumption;
        destruct Hc as [[? ->]|[? ->]]; lra.
Qed.

Lemma initialBudgets_withinCap (now : string) :
  Forall withinCap (initialBudgets now).
Proof.
  unfold initialBudgets, withinCap.
  repeat constructor; vm_compute; reflexivity.
Qed.

(** C4.  In every store reached from the sample data by ticks, every
    budget has [spent <= allocated * 1.15]; and from that store to the
    one after the next tick, the spent of the budget at each position
    (the same budget: the identifier is the same) does not decrease. *)
Theorem budget_spent_capped_and_monotone (now : string)
    (exps : list Expenditure) (n : nat) (w : World) :
  let (s, w') := run_ticks random clock n (initialStore now exps) w in
  Forall (fun b => (b_spent b <=? allocated b * Fin 1.15)%js = true)
    (budgets s) /\
  Forall2 (fun b b' => b_id b' = b_id b /\
                       (b_spent b <=? b_spent b')%js = true)
    (budgets s) (budgets (fst (tick random clock s w'))).
Proof.
  pose proof (@run_ticks_Forall_budgets random clock withinCap
                ltac:(intros b0 w0 H0; now apply tickBudget_withinCap)
                n (initialStore now exps) w
                (initialBudgets_withinCap now)) as Hn.
  destruct (run_ticks random clock n (initialStore now exps) w) as [s w'].
  cbn [fst] in Hn. split.
  - eapply Forall_impl; [|exact Hn]. intros b Hb. apply Hb.
  - rewrite tick_budgets.
    apply mapM_Forall2 with (P := withinCap); [|assumption].
    intros b0 w0 H0. split.
    + apply tickBudget_frame.
    + now apply tickBudget_withinCap.
Qed.

End TickerBounds.

(* ===================================================================== *)
(** ** Ticker: bounds on the risk *)
(* ===================================================================== *)

Lemma nextRisk_capped (p : Project) (r : Q) :
  isNaN (risk p) = false ->
  p_status p = Delayed \/ p_status p = AtRisk ->
  (nextRisk p (Fin r) <=? Fin 90)%js = true.
Proof.
  intros Hnan Hst. unfold nextRisk.
  assert (E : match p_status p with
              | Delayed | AtRisk =>
                  Math_min (Fin 90) (risk p + Fin r * Fin 3)%js
              | _ => Math_max (Fin 10) (risk p + (Fin r * Fin 4 - Fin 2))%js
              end = Math_min (Fin 90) (risk p + Fin r * Fin 3)%js)
    by (destruct Hst as [-> | ->]; reflexivity).
  rewrite E. clear E. js_fin.
  destruct (risk p) as [| | |q]; try discriminate; try reflexivity.
  js_fin. destruct (Math_min_Fin 90 (q + r * 3)) as (m & -> & Hm).
  apply le_Fin. destruct Hm as [[? ->]|[? ->]]; lra.
Qed.

Lemma nextRisk_floored (p : Project) (r : Q) :
  isNaN (risk p) = false ->
  p_status p <> Delayed -> p_status p <> AtRisk ->
  (Fin 10 <=? nextRisk p (Fin r))%js = true.
Proof.
  intros Hnan Hd Ha. unfold nextRisk.
  assert (E : match p_status p with
              | Delayed | AtRisk =>
                  Math_min (Fin 90) (risk p + Fin r * Fin 3)%js
              | _ => Math_max (Fin 10) (risk p + (Fin r * Fin 4 - Fin 2))%js
              end = Math_max (Fin 10) (risk p + (Fin r * Fin 4 - Fin 2))%js)
    by (destruct (p_status p); congruence).
  rewrite E. clear E. js_fin.
  destruct (risk p) as [| | |q]; try discriminate; try reflexivity.
  js_fin. destruct (Math_max_Fin 10 (q + (r * 4 - 2))) as (m & -> & Hm).
  apply le_Fin. destruct Hm as [[? ->]|[? ->]]; lra.
Qed.

Section TickerRisk.

Variable random : nat -> Q.
Variable clock : nat -> string.
Hypothesis random_range : forall k, (0 <= random k < 1)%Q.

Lemma le_10_le_0 (x : number) :
  (Fin 10 <=? x)%js = true -> (Fin 0 <=? x)%js = true.
Proof.
  destruct x as [| | |q]; try discriminate; try reflexivity.
  rewrite !le_Fin. lra.
Qed.

Lemma updatedProject_riskBounded (p : Project) (k1 k2 k3 : nat)
    (now : string) :
  (progress p <? Fin 100)%js = true ->
  riskBounded p ->
  riskBounded (updatedProject p (Fin (random k1)) (Fin (random k2)) now
                 (Fin (random k3))).
Proof.
  intros _ (_ & H10 & H90).
  assert (Hnan : isNaN (risk p) = false)
    by (destruct (risk p); try discriminate; reflexivity).
  pose proof (random_range k3) as Hr.
  assert (Hfloor : (Fin 10 <=? nextRisk p (Fin (random k3)))%js = true).
  { destruct (p_status p) eqn:Est.
    - apply nextRisk_floored; congruence.
    - unfold nextRisk. rewrite Est. specialize (H90 (or_introl eq_refl)).
      destruct (risk p) as [| | |q]; try discriminate.
      rewrite le_Fin in H10, H90. js_fin.
      destruct (Math_min_Fin 90 (q + random k3 * 3)) as (m & -> & Hm).
      apply le_Fin. destruct Hm as [[? ->]|[? ->]]; lra.
    - apply nextRisk_floored; congruence.
    - unfold nextRisk. rewrite Est. specialize (H90 (or_intror eq_refl)).
      destruct (risk p) as [| | |q]; try discriminate.
      rewrite le_Fin in H10, H90. js_fin.
      destruct (Math_min_Fin 90 (q + random k3 * 3)) as (m & -> & Hm).
      apply le_Fin. destruct Hm as [[? ->]|[? ->]]; lra. }
  unfold riskBounded, updatedProject. cbn [risk p_status].
  split; [now apply le_10_le_0|]. split; [assumption|].
  intros Hst. apply nextRisk_capped; [assumption|].
  destruct (progress p + increment (Fin (random k1)) >=? Fin 100)%js.
  - destruct Hst; discriminate.
  - assumption.
Qed.

Lemma tickProject_riskBounded (p : Project) (w : World) :
  riskBounded p -> riskBounded (fst (tickProject random clock p w)).
Proof.
  intros Hp.
  apply (@tickProject_either random clock (fun _ p' => riskBounded p'));
    [assumption|].
  intros k1 k2 k3 now Hlt. now apply updatedProject_riskBounded.
Qed.

Lemma initialProjects_riskBounded (now : string) :
  Forall riskBounded (initialProjects now).
Proof.
  unfold initialProjects, riskBounded.
  repeat constructor; try reflexivity;
    cbn [p_status seedProject]; intros [H|H]; discriminate.
Qed.

(** What the code keeps of C1.  In every store reached from the sample
    data by ticks, whatever the draws, every project's risk is at least 10
    (so at least 0), and at most 90 if the project is Delayed or At Risk.
    A rewritten project gets a risk of at most 90 when it was Delayed or
    At Risk, and of at least 10 otherwise, whatever its risk was before. *)
Theorem risk_floor_and_delayed_ceiling (now : string)
    (exps : list Expenditure) (n : nat) (w : World) :
  Forall
    (fun p =>
       (Fin 0 <=? risk p)%js = true /\
       (Fin 10 <=? risk p)%js = true /\
       (p_status p = Delayed \/ p_status p = AtRisk ->
        (risk p <=? Fin 90)%js = true))
    (projects (fst (run_ticks random clock n (initialStore now exps) w)))
  /\
  (forall p k1 k2 k3 t,
      isNaN (risk p) = false ->
      let p' := updatedProject p (Fin (random k1)) (Fin (random k2)) t
                  (Fin (random k3)) in
      (p_status p = Delayed \/ p_status p = AtRisk ->
       (risk p' <=? Fin 90)%js = true) /\
      (p_status p <> Delayed -> p_status p <> AtRisk ->
       (Fin 10 <=? risk p')%js = true)).
Proof.
  split.
  - apply (@run_ticks_Forall_projects random clock riskBounded).
    + intros p w0. apply tickProject_riskBounded.
    + apply initialProjects_riskBounded.
  - intros p k1 k2 k3 t Hnan. cbv zeta. unfold updatedProject. cbn [risk].
    split.
    + now apply nextRisk_capped.
    + now apply nextRisk_floored.
Qed.

End TickerRisk.

(* ===================================================================== *)
(** ** Ticker: concrete runs *)
(* ===================================================================== *)

Lemma steady_range (q : Q) : (0 <= q < 1)%Q -> forall k, (0 <= steady q k < 1)%Q.
Proof. intros H k. exact H. Defined.

Lemma tenth_in_range : (0 <= 1 # 10 < 1)%Q.
Proof. split; [discriminate | reflexivity]. Defined.


Lemma full_progress_project_frozen_witness :
  nth_error (projects finishedStore) 0 = Some finishedProject /\
  (progress finishedProject >=? Fin 100)%js = true /\
  nth_error
    (projects (fst (run_ticks (steady (1 # 100)) frozenClock 3 finishedStore world0)))
    0 = Some finishedProject.
Proof.
  split; [reflexivity|]. split; [reflexivity|].
  apply (@full_progress_project_frozen (steady (1 # 100)) frozenClock
           finishedStore 0 finishedProject 3 world0); reflexivity.
Defined.



Lemma budget_spent_capped_and_monotone_witness :
  (forall k, (0 <= steady (1 # 10) k < 1)%Q) /\
  let (s, w') :=
    run_ticks (steady (1 # 10)) frozenClock 2 (initialStore "t0" []) world0 in
  Forall (fun b => (b_spent b <=? allocated b * Fin 1.15)%js = true)
    (budgets s) /\
  Forall2 (fun b b' => b_id b' = b_id b /\
                       (b_spent b <=? b_spent b')%js = true)
    (budgets s) (budgets (fst (tick (steady (1 # 10)) frozenClock s w'))).
Proof.
  assert (Hr : forall k, (0 <= steady (1 # 10) k < 1)%Q)
    by (apply steady_range, tenth_in_range).
  split; [exact Hr|].
  exact (@budget_spent_capped_and_monotone (steady (1 # 10)) frozenClock Hr
           "t0" [] 2%nat world0).
Defined.

Lemma driftOracle_range (k : nat) : (0 <= driftOracle k < 1)%Q.
Proof.
  unfold driftOracle. cbv zeta.
  destruct (k mod 44 <? 36)%nat; [destruct ((k mod 44) mod 4 =? 3)%nat|];
    split; try discriminate; reflexivity.
Qed.

(** C1, where the code breaks it.  From the sample data, 31 ticks with
    draws in [0, 1) leave project p6 (On Track throughout, progress still
    below 38) with a risk above 90, the ceiling of the claim, and above
    100, the end of the range [0-100] that the [Project] interface notes
    for [risk]: the branch for the other statuses has the floor
    [Math.max(10, ...)] and no ceiling, where its sibling has
    [Math.min(90, ...)]. *)
Theorem on_track_risk_exceeds_ceiling :
  (forall k, (0 <= driftOracle k < 1)%Q) /\
  exists p,
    nth_error
      (projects (fst (run_ticks driftOracle frozenClock 31
                        (initialStore "t0" []) world0))) 5 = Some p /\
    p_id p = "p6" /\ p_status p = OnTrack /\
    (progress p <? Fin 38)%js = true /\
    (Fin 90 <? risk p)%js = true /\
    (Fin 100 <? risk p)%js = true /\
    (risk p <? Fin 101)%js = true.
Proof.
  split; [exact driftOracle_range|].
  eexists. split; [vm_compute; reflexivity|].
  vm_compute. repeat split; reflexivity.
Qed.

Lemma risk_floor_and_delayed_ceiling_witness :
  (forall k, (0 <= driftOracle k < 1)%Q) /\
  Forall
    (fun p =>
       (Fin 0 <=? risk p)%js = true /\
       (Fin 10 <=? risk p)%js = true /\
       (p_status p = Delayed \/ p_status p = AtRisk ->
        (risk p <=? Fin 90)%js = true))
    (projects (fst (run_ticks driftOracle frozenClock 31
                      (initialStore "t0" []) world0))).
Proof.
  split; [exact driftOracle_range|].
  exact (proj1 (@risk_floor_and_delayed_ceiling driftOracle frozenClock
                  driftOracle_range "t0" [] 31%nat world0)).
Defined.

(* ===================================================================== *)
(** ** Metrics aggregator *)
(* ===================================================================== *)

Lemma deviation_nonneg (u : number) :
  isNaN u = false -> nonnegOrInf (Math_abs (u - Fin 60)%js).
Proof.
  destruct u as [| | |q]; cbn [isNaN sub add neg Math_abs nonnegOrInf];
    try discriminate; auto.
  intros _. apply Qabs_nonneg.
Qed.

Lemma add_nonnegOrInf (x y : number) :
  nonnegOrInf x -> nonnegOrInf y -> nonnegOrInf (x + y)%js.
Proof.
  destruct x as [| | |a], y as [| | |b]; cbn [add nonnegOrInf]; try tauto.
  intros; lra.
Qed.

Lemma sum_deviation_nonneg (us : list number) (acc : number) :
  nonnegOrInf acc ->
  Forall (fun u => isNaN u = false) us ->
  nonnegOrInf
    (fold_left (fun s u => s + Math_abs (u - Fin 60))%js us acc).
Proof.
  revert acc. induction us as [|u us IH]; intros acc Hacc Hus;
    cbn [fold_left].
  - assumption.
  - inversion Hus as [|? ? Hu Hrest]; subst.
    apply IH; [|assumption].
    apply add_nonnegOrInf; [assumption|now apply deviation_nonneg].
Qed.

Lemma of_nat_pos (n : nat) :
  n <> 0%nat -> exists q, of_nat n = Fin q /\ (0 < q)%Q.
Proof.
  intros Hn. exists (inject_Z (Z.of_nat n)). split; [reflexivity|].
  change 0%Q with (inject_Z 0). rewrite <- Zlt_Qlt. lia.
Qed.

Lemma avgDeviation_nonneg (us : list number) :
  us <> [] ->
  Forall (fun u => isNaN u = false) us ->
  nonnegOrInf (avgDeviation us).
Proof.
  intros Hne Hus. unfold avgDeviation.
  pose proof (@sum_deviation_nonneg us (Fin 0) (Qle_refl 0) Hus) as Hsum.
  destruct (@of_nat_pos (List.length us)) as (n & -> & Hn).
  { destruct us; [congruence|discriminate]. }
  destruct (fold_left _ us (Fin 0)) as [| | |a]; cbn [nonnegOrInf] in Hsum;
    try tauto.
  - cbn [div inf_of_sign]. destruct (Qle_bool_reflect 0 n); [exact I|lra].
  - rewrite div_Fin by lra. cbn [nonnegOrInf].
    apply Qle_shift_div_l; lra.
Qed.

(** [Math.max(0, 100 - avgDeviation) / 100] lies in [0, 1]. *)
Lemma norm_range (d : number) :
  nonnegOrInf d ->
  finiteBetween 0 1 (Math_max (Fin 0) (Fin 100 - d) / Fin 100)%js.
Proof.
  destruct d as [| | |a]; cbn [nonnegOrInf]; try tauto; intros Ha.
  - exists (0 / 100)%Q. split; [reflexivity|]. split; [discriminate|discriminate].
  - rewrite sub_Fin.
    destruct (Math_max_Fin 0 (100 - a)) as (m & -> & Hm).
    rewrite div_Fin by lra. exists (m / 100)%Q. split; [reflexivity|].
    split.
    + apply Qle_shift_div_l; destruct Hm as [[? ->]|[? ->]]; lra.
    + apply Qle_shift_div_r; destruct Hm as [[? ->]|[? ->]]; lra.
Qed.

Lemma filter_length_le {A} (f : A -> bool) (l : list A) :
  (List.length (filter f l) <= List.length l)%nat.
Proof.
  induction l as [|x xs IH]; simpl; [lia|].
  destruct (f x); simpl; lia.
Qed.

Lemma resolutionRatio_range (rs : list IrregularityReport) :
  finiteBetween 0 1 (resolutionRatio rs).
Proof.
  unfold resolutionRatio.
  set (k := List.length (filter _ rs)).
  assert (Hk : (k <= List.length rs)%nat) by apply filter_length_le.
  destruct (List.length rs) as [|n] eqn:En.
  - exists 0.5%Q. split; [reflexivity|]. split; discriminate.
  - assert (Hpos : (0 < inject_Z (Z.of_nat (S n)))%Q).
    { change 0%Q with (inject_Z 0). rewrite <- Zlt_Qlt. lia. }
    assert (Ht : truthy (of_nat (S n)) = true).
    { unfold truthy, of_nat.
      destruct (Qeq_bool_reflect (inject_Z (Z.of_nat (S n))) 0); [lra|reflexivity]. }
    rewrite Ht. unfold of_nat. rewrite div_Fin by lra.
    eexists. split; [reflexivity|]. split.
    + apply Qle_shift_div_l; [lra|]. rewrite Qmult_0_l.
      change 0%Q with (inject_Z 0). rewrite <- Zle_Qle. lia.
    + apply Qle_shift_div_r; [lra|]. rewrite Qmult_1_l.
      rewrite <- Zle_Qle. lia.
Qed.

(** Rounding a number of [0, 100] gives an integer of [0, 100]. *)
Lemma round_percent (q : Q) :
  (0 <= q <= 100)%Q ->
  let x := Math_round (Fin q) in
  isInteger x = true /\ (Fin 0 <=? x)%js = true /\ (x <=? Fin 100)%js = true.
Proof.
  intros Hq. cbv zeta. unfold Math_round.
  destruct (@Qfloor_half_bounds q 0 100) as [Hlo Hhi].
  { change (inject_Z 0) with 0%Q. change (inject_Z 100) with 100%Q. lra. }
  repeat split.
  - unfold isInteger. rewrite Qfloor_Z. now apply Qeq_bool_iff.
  - apply le_Fin. change 0%Q with (inject_Z 0). now rewrite <- Zle_Qle.
  - apply le_Fin. change 100%Q with (inject_Z 100). now rewrite <- Zle_Qle.
Qed.

(** On defined utilizations the index is the rounding of a percentage. *)
Lemma transparencyIndex_rounds_percent (bs : list Budget)
    (rs : list IrregularityReport) :
  bs <> [] ->
  Forall (fun b => isNaN (utilization b) = false) bs ->
  exists q, (0 <= q <= 100)%Q /\
            transparencyIndex bs rs = Math_round (Fin q).
Proof.
  intros Hne Hbs. unfold transparencyIndex. cbv zeta.
  assert (Hus : Forall (fun u => isNaN u = false) (map utilization bs)).
  { apply Forall_map. exact Hbs. }
  assert (Hne' : map utilization bs <> []).
  { destruct bs; [congruence|discriminate]. }
  destruct (@norm_range _ (avgDeviation_nonneg Hne' Hus)) as (m & -> & Hm).
  destruct (resolutionRatio_range rs) as (r & -> & Hr).
  js_fin. eexists. split; [|reflexivity]. split; nra.
Qed.

(** A NaN among the utilizations, or no budget at all, makes the index NaN. *)
Lemma sum_deviation_NaN_acc (us : list number) :
  fold_left (fun s u => s + Math_abs (u - Fin 60))%js us NaN = NaN.
Proof. induction us as [|u us IH]; cbn [fold_left add]; auto. Qed.

Lemma add_NaN_r (x : number) : (x + NaN)%js = NaN.
Proof. now destruct x. Qed.

Lemma sum_deviation_NaN (us : list number) (acc : number) :
  Exists (fun u => isNaN u = true) us ->
  fold_left (fun s u => s + Math_abs (u - Fin 60))%js us acc = NaN.
Proof.
  intros H. revert acc. induction H as [u us Hu|u us _ IH]; intros acc;
    cbn [fold_left].
  - destruct u; try discriminate.
    cbn [sub add neg Math_abs]. rewrite add_NaN_r.
    apply sum_deviation_NaN_acc.
  - apply IH.
Qed.

Lemma transparencyIndex_of_NaN_deviation (bs : list Budget)
    (rs : list IrregularityReport) :
  avgDeviation (map utilization bs) = NaN ->
  transparencyIndex bs rs = NaN.
Proof.
  intros H. unfold transparencyIndex. cbv zeta. rewrite H.
  cbn [sub add neg Math_max div mul]. reflexivity.
Qed.

Lemma transparencyIndex_NaN (bs : list Budget) (rs : list IrregularityReport) :
  bs = [] \/ Exists (fun b => isNaN (utilization b) = true) bs ->
  transparencyIndex bs rs = NaN.
Proof.
  intros [->|H]; apply transparencyIndex_of_NaN_deviation.
  - reflexivity.
  - unfold avgDeviation. rewrite sum_deviation_NaN; [reflexivity|].
    apply Exists_exists in H. destruct H as (b & Hin & Hb).
    apply Exists_exists. exists (utilization b). split; [|assumption].
    now apply in_map.
Qed.

(** What the code keeps of C6.  For every non-empty Budgets list in which
    no budget's utilization [spent / allocated * 100] is NaN, and for
    every Reports list, the transparency index
    [round((0.6 * norm + 0.4 * resolutionRatio) * 100)] is an integer in
    the range [0, 100]. *)
Theorem transparencyIndex_integer_percent (bs : list Budget)
    (rs : list IrregularityReport) :
  bs <> [] ->
  Forall (fun b => isNaN (utilization b) = false) bs ->
  isInteger (transparencyIndex bs rs) = true /\
  (Fin 0 <=? transparencyIndex bs rs)%js = true /\
  (transparencyIndex bs rs <=? Fin 100)%js = true.
Proof.
  intros Hne Hbs.
  destruct (transparencyIndex_rounds_percent rs Hne Hbs) as (q & Hq & ->).
  now apply round_percent.
Qed.

Lemma transparencyIndex_integer_percent_witness :
  initialBudgets "t0" <> [] /\
  Forall (fun b => isNaN (utilization b) = false) (initialBudgets "t0") /\
  isInteger (transparencyIndex (initialBudgets "t0") []) = true /\
  (Fin 0 <=? transparencyIndex (initialBudgets "t0") [])%js = true /\
  (transparencyIndex (initialBudgets "t0") [] <=? Fin 100)%js = true.
Proof.
  assert (Hne : initialBudgets "t0" <> []) by discriminate.
  assert (Hbs : Forall (fun b => isNaN (utilization b) = false)
                  (initialBudgets "t0"))
    by (repeat constructor).
  split; [exact Hne|]. split; [exact Hbs|].
  exact (transparencyIndex_integer_percent [] Hne Hbs).
Defined.


(** C6 fails nowhere else: an index that is an integer comes from a
    non-empty list of budgets with no NaN utilization. *)
Lemma transparencyIndex_integer_only_then (bs : list Budget)
    (rs : list IrregularityReport) :
  isInteger (transparencyIndex bs rs) = true ->
  bs <> [] /\ Forall (fun b => isNaN (utilization b) = false) bs.
Proof.
  intros Hint. split.
  - intros ->. rewrite transparencyIndex_NaN in Hint by now left.
    discriminate.
  - apply Forall_forall. intros b Hin.
    destruct (isNaN (utilization b)) eqn:E; [|reflexivity].
    rewrite transparencyIndex_NaN in Hint; [discriminate|].
    right. apply Exists_exists. eauto.
Qed.

(** Dividing a finite amount by a zero allocation. *)
Lemma utilization_zero_allocation (b : Budget) (a s : Q) :
  allocated b = Fin a -> (a == 0)%Q -> b_spent b = Fin s ->
  utilization b =
    (if Qeq_bool s 0 then NaN
     else if Qlt_bool 0 s then PosInf else NegInf).
Proof.
  intros Ha Ha0 Hs. unfold utilization. rewrite Ha, Hs.
  cbn [div]. destruct (Qeq_bool_reflect a 0); [|contradiction].
  destruct (Qeq_bool s 0); [reflexivity|].
  destruct (Qlt_bool_reflect 0 s); cbn [inf_of_sign mul mul_inf].
  - reflexivity.
  - reflexivity.
Qed.

(** C2 (as amended).  The aggregator divides without a guard and has no
    sentinel.  For a budget with a finite spent and [allocated = 0] the
    utilization is never a finite number: it is NaN exactly when spent is
    0 and an infinity otherwise.  For a budget with a finite spent and a
    finite [allocated < 0] the utilization is a number like any other:
    never NaN, and at most 0 when nothing negative was spent. *)
Theorem metrics_unguarded_division :
  (forall b a s,
      allocated b = Fin a -> (a == 0)%Q -> b_spent b = Fin s ->
      isFinite (utilization b) = false /\
      (isNaN (utilization b) = true <-> (s == 0)%Q))
  /\
  (forall b a s,
      allocated b = Fin a -> (a < 0)%Q -> b_spent b = Fin s ->
      isNaN (utilization b) = false /\
      ((0 <= s)%Q -> (utilization b <=? Fin 0)%js = true)).
Proof.
  split.
  - intros b a s Ha Ha0 Hs.
    rewrite (utilization_zero_allocation b Ha Ha0 Hs).
    destruct (Qeq_bool_reflect s 0) as [E|E].
    + split; [reflexivity|]. split; [intros _; exact E|reflexivity].
    + split; [now destruct (Qlt_bool 0 s)|].
      split; [|contradiction].
      destruct (Qlt_bool 0 s); discriminate.
  - intros b a s Ha Ha0 Hs. unfold utilization.
    rewrite Ha, Hs, div_Fin by lra. rewrite mul_Fin.
    split; [reflexivity|]. intros Hs0. apply le_Fin.
    assert (H : (s / a <= 0)%Q).
    { assert (E : (s / a == - (s / - a))%Q) by (field; lra).
      assert (H0 : (0 <= s / - a)%Q) by (apply Qle_shift_div_l; lra).
      lra. }
    lra.
Qed.

(** C2, counterexample.  With [allocated = 0] the division is carried out
    as it is: NaN reaches the per-budget utilization, the overall
    utilization and the transparency index; with something spent the
    utilizations are [+Infinity]. *)
Lemma zero_allocation_propagates :
  (allocated emptyBudget <=? Fin 0)%js = true /\
  utilization emptyBudget = NaN /\
  overallUtilization [emptyBudget] = NaN /\
  transparencyIndex [emptyBudget] [] = NaN /\
  (allocated unfundedBudget <=? Fin 0)%js = true /\
  utilization unfundedBudget = PosInf /\
  overallUtilization [unfundedBudget] = PosInf.
Proof. repeat split; reflexivity. Qed.

Lemma metrics_unguarded_division_witness :
  (allocated emptyBudget = Fin 0 /\ (0 == 0)%Q /\
   b_spent emptyBudget = Fin 0 /\
   isFinite (utilization emptyBudget) = false /\
   (isNaN (utilization emptyBudget) = true <-> (0 == 0)%Q))
  /\
  (allocated clawedBackBudget = Fin (-1000) /\ (-1000 < 0)%Q /\
   b_spent clawedBackBudget = Fin 250 /\
   isNaN (utilization clawedBackBudget) = false /\
   ((0 <= 250)%Q -> (utilization clawedBackBudget <=? Fin 0)%js = true)).
Proof.
  split.
  - split; [reflexivity|]. split; [reflexivity|]. split; [reflexivity|].
    exact (proj1 metrics_unguarded_division emptyBudget 0%Q 0%Q
             eq_refl (Qeq_refl 0) eq_refl).
  - split; [reflexivity|]. split; [reflexivity|]. split; [reflexivity|].
    exact (proj2 metrics_unguarded_division clawedBackBudget
             (-1000)%Q 250%Q eq_refl eq_refl eq_refl).
Defined.

(* ===================================================================== *)
(** ** Query pipeline: the region filter on expenditures *)
(* ===================================================================== *)

Lemma insert_by_In {A} (cmp : A -> A -> number) (x y : A) (l : list A) :
  In y (insert_by cmp x l) <-> y = x \/ In y l.
Proof.
  induction l as [|z zs IH]; cbn [insert_by].
  - simpl. intuition congruence.
  - destruct (cmp x z >? Fin 0)%js; simpl in *; rewrite ?IH;
      intuition congruence.
Qed.

(** Sorting keeps exactly the elements it is given. *)
Lemma sort_by_In {A} (cmp : A -> A -> number) (y : A) (l : list A) :
  In y (sort_by cmp l) <-> In y l.
Proof.
  unfold sort_by. induction l as [|x xs IH]; cbn [fold_right].
  - reflexivity.
  - rewrite insert_by_In, IH. simpl. intuition congruence.
Qed.

(** A filter that is applied only under a condition. *)
Lemma In_filter_when {A} (c : bool) (f : A -> bool) (l : list A) (x : A) :
  In x (if c then filter f l else l) <-> In x l /\ (c = false \/ f x = true).
Proof.
  destruct c.
  - rewrite filter_In. intuition congruence.
  - intuition.
Qed.

Lemma Set_has_In (ids : list string) (id : string) :
  Set_has ids id = true <-> In id ids.
Proof.
  unfold Set_has. rewrite existsb_exists. split.
  - intros (x & Hin & Heq). apply String.eqb_eq in Heq. now subst.
  - intros Hin. exists id. split; [assumption|apply String.eqb_refl].
Qed.

Lemma nonempty_false (s : string) : nonempty s = false <-> s = EmptyString.
Proof. destruct s; simpl; intuition congruence. Qed.

Lemma not_sentinel (f : string) : negb (String.eqb f "All") = false <-> f = "All".
Proof.
  rewrite negb_false_iff. apply String.eqb_eq.
Qed.

Lemma passesRegion_spec (ps : list Project) (region : string)
    (e : Expenditure) :
  passesRegion
    (map p_id (filter (fun p => String.eqb (p_region p) region) ps)) e = true
  <-> namesNoProjectOrOneIn ps region e.
Proof.
  unfold passesRegion, namesNoProjectOrOneIn.
  destruct (e_projectId e) as [[|c pid]|]; cbn [truthy_opt nonempty negb orb].
  - intuition.
  - rewrite Set_has_In, in_map_iff. split.
    + intros (p & Hid & Hin). apply filter_In in Hin.
      destruct Hin as [Hin Hreg]. apply String.eqb_eq in Hreg.
      right. right. exists p. rewrite Hid. auto.
    + intros [H|[H|(p & Hin & Hid & Hreg)]]; try discriminate.
      exists p. split; [congruence|].
      apply filter_In. split; [assumption|]. now apply String.eqb_eq.
  - intuition.
Qed.

Section QueryFacts.

Variable getTime : string -> number.

(** C7 (as amended).  Under a concrete region filter the pipeline keeps an
    expenditure exactly when it passes the search, department and category
    steps and either carries no projectId, or carries the empty string as
    projectId, or some project of the list has that identifier and lies in
    the selected region.  So an expenditure whose non-empty projectId is
    the identifier of no project of the list is not kept. *)
Theorem region_filter_on_expenditures (exps : list Expenditure)
    (search filterDept filterRegion filterCategory : string)
    (ps : list Project) (e : Expenditure) :
  filterRegion <> "All" ->
  (In e (filteredExpenditures getTime exps search filterDept filterRegion
           filterCategory ps)
   <->
   In e exps /\
   (search = EmptyString \/ matchesSearch search e = true) /\
   (filterDept = "All" \/ e_department e = filterDept) /\
   (filterCategory = "All" \/ e_category e = filterCategory) /\
   namesNoProjectOrOneIn ps filterRegion e)
  /\
  (forall pid,
      e_projectId e = Some pid -> pid <> EmptyString ->
      (forall p, In p ps -> p_id p <> pid) ->
      ~ In e (filteredExpenditures getTime exps search filterDept filterRegion
                filterCategory ps)).
Proof.
  intros Hregion.
  assert (Hsel : negb (String.eqb filterRegion "All") = true).
  { apply negb_true_iff. now apply String.eqb_neq. }
  assert (Hiff :
    In e (filteredExpenditures getTime exps search filterDept filterRegion
            filterCategory ps)
    <->
    In e exps /\
    (search = EmptyString \/ matchesSearch search e = true) /\
    (filterDept = "All" \/ e_department e = filterDept) /\
    (filterCategory = "All" \/ e_category e = filterCategory) /\
    namesNoProjectOrOneIn ps filterRegion e).
  { unfold filteredExpenditures. cbv zeta. rewrite Hsel.
    rewrite sort_by_In, In_filter_when, filter_In, In_filter_when,
      In_filter_when.
    rewrite passesRegion_spec, !not_sentinel, !String.eqb_eq.
    destruct (nonempty search) eqn:Es.
    - assert (Hs : search <> EmptyString) by (intros ->; discriminate).
      assert (Htf : true = false <-> False)
        by (split; [discriminate|contradiction]).
      rewrite Htf. tauto.
    - apply nonempty_false in Es. tauto. }
  split; [exact Hiff|].
  intros pid Hpid Hne Hnone Hin. apply Hiff in Hin.
  destruct Hin as (_ & _ & _ & _ & [H|[H|(p & Hp & Hid & _)]]).
  - congruence.
  - congruence.
  - apply (Hnone p Hp). congruence.
Qed.

End QueryFacts.

(** C7, counterexample.  The expenditure has a projectId, no project of
    the sample data has that identifier, and the filter on the region
    "Rural" keeps it all the same. *)
Lemma empty_projectId_passes_region_filter :
  e_projectId unlinkedExpenditure <> None /\
  (forall p, In p (initialProjects "t0") ->
             Some (p_id p) <> e_projectId unlinkedExpenditure) /\
  "Rural" <> "All" /\
  filteredExpenditures epochOnly
    [unlinkedExpenditure; ruralExpenditure; nationalExpenditure]
    EmptyString "All" "Rural" "All" (initialProjects "t0")
  = [unlinkedExpenditure; ruralExpenditure].
Proof.
  split; [discriminate|]. split; [|split; [discriminate|reflexivity]].
  intros p Hin. simpl in Hin.
  repeat (destruct Hin as [<-|Hin]; [discriminate|]). contradiction.
Qed.

Lemma region_filter_on_expenditures_witness :
  "Rural" <> "All" /\
  (In nationalExpenditure
     (filteredExpenditures epochOnly
        [unlinkedExpenditure; ruralExpenditure; nationalExpenditure]
        EmptyString "All" "Rural" "All" (initialProjects "t0"))
   <->
   In nationalExpenditure
     [unlinkedExpenditure; ruralExpenditure; nationalExpenditure] /\
   (EmptyString = EmptyString \/
    matchesSearch EmptyString nationalExpenditure = true) /\
   ("All" = "All" \/ e_department nationalExpenditure = "All") /\
   ("All" = "All" \/ e_category nationalExpenditure = "All") /\
   namesNoProjectOrOneIn (initialProjects "t0") "Rural" nationalExpenditure).
Proof.
  assert (H : "Rural" <> "All") by discriminate.
  split; [exact H|].
  exact (proj1 (@region_filter_on_expenditures epochOnly
                  [unlinkedExpenditure; ruralExpenditure; nationalExpenditure]
                  EmptyString "All" "Rural" "All" (initialProjects "t0")
                  nationalExpenditure H)).
Defined.

(* ===================================================================== *)
(** ** Report workflow: confirmation *)
(* ===================================================================== *)

Lemma to_int_not_nil (z : Z) :
  Z.to_int z <> Decimal.Pos Decimal.Nil /\
  Z.to_int z <> Decimal.Neg Decimal.Nil.
Proof.
  split; intros H;
    pose proof (DecimalZ.of_to z) as Hz; rewrite H in Hz;
    simpl in Hz; subst z; discriminate.
Qed.

(** Identifiers made at different clock readings are different. *)
Lemma reportId_inj (a b : Z) : reportId a = reportId b -> a = b.
Proof.
  unfold reportId. simpl. intros H. injection H as H.
  apply DecimalZ.to_int_inj.
  destruct (to_int_not_nil a) as [Ha1 Ha2].
  destruct (to_int_not_nil b) as [Hb1 Hb2].
  pose proof (NilZero.isi _ Ha1 Ha2) as Ia.
  pose proof (NilZero.isi _ Hb1 Hb2) as Ib.
  rewrite H in Ia. congruence.
Qed.

(** C8 (as amended).  Confirming builds exactly one report and puts it in
    front of the unchanged list.  Its identifier is "r" followed by the
    clock reading in milliseconds: it differs from the identifier made at
    any other clock reading, and leaves the identifiers free of duplicates
    when no earlier report carries it.  Its status is Submitted, createdAt
    is the current instant; subject, description, department, projectId
    and reference are the draft's; type and severity are the draft's when
    present (and, for the type, not empty) and "Spending Concern" and
    Medium otherwise.  The draft is reset to
    [{severity: Medium, type: Spending Concern}], both dialogs are closed
    and the workflow is back in Drafting, as at start-up. *)
Theorem confirm_prepends_one_report (now_ms : Z) (now_iso : string)
    (s : ReportPage) :
  let s' := confirmSubmitReport now_ms now_iso s in
  let d := reportDraft s in
  (exists r,
      page_reports s' = r :: page_reports s /\
      r_id r = reportId now_ms /\
      r_status r = Submitted /\
      createdAt r = now_iso /\
      r_subject r = d_subject d /\
      r_description r = d_description d /\
      r_department r = d_department d /\
      r_projectId r = d_projectId d /\
      reference r = d_reference d /\
      (forall t, d_type d = Some t -> t <> EmptyString -> r_type r = t) /\
      (d_type d = None \/ d_type d = Some EmptyString ->
       r_type r = "Spending Concern") /\
      (forall v, d_severity d = Some v -> r_severity r = v) /\
      (d_severity d = None -> r_severity r = Medium) /\
      (forall other_ms, other_ms <> now_ms -> reportId other_ms <> r_id r) /\
      (~ In (r_id r) (map r_id (page_reports s)) ->
       NoDup (map r_id (page_reports s)) ->
       NoDup (map r_id (page_reports s')))) /\
  List.length (page_reports s') = S (List.length (page_reports s)) /\
  reportDraft s' = defaultDraft /\
  showReportModal s' = false /\
  showReportConfirmation s' = false /\
  workflowState s' = Drafting /\
  (showReportModal s', showReportConfirmation s', reportDraft s')
  = (showReportModal initialPage, showReportConfirmation initialPage,
     reportDraft initialPage).
Proof.
  cbv zeta. split; [|repeat split; reflexivity].
  eexists. split; [reflexivity|].
  cbn [r_id r_status createdAt r_subject r_description r_department
       r_projectId reference r_type r_severity].
  repeat split; try reflexivity.
  - intros t Ht Hne. unfold draftTypeOrDefault. rewrite Ht.
    destruct t; [congruence|reflexivity].
  - intros [H|H]; unfold draftTypeOrDefault; rewrite H; reflexivity.
  - intros v Hv. unfold draftSeverityOrDefault. now rewrite Hv.
  - intros Hv. unfold draftSeverityOrDefault. now rewrite Hv.
  - intros other Hne Heq. apply Hne. now apply reportId_inj.
  - intros Hfresh Hnd. cbn [confirmSubmitReport page_reports map r_id].
    now constructor.
Qed.

(** C8, counterexample.  Two reports confirmed at the same clock reading:
    the second confirmation starts from PendingConfirmation with one
    stored report, and the report it adds carries the identifier that the
    stored one already has.  And a draft whose type is the empty string
    is stored with the type "Spending Concern", not with its own. *)
Lemma confirm_reuses_identifier :
  let t := 1735689600000%Z in
  let iso := "2025-01-01T00:00:00.000Z" in
  let s :=
    submitReport (openReportModal sampleDraft (fileReport t iso initialPage)) in
  let s' := confirmSubmitReport t iso s in
  workflowState s = PendingConfirmation /\
  List.length (page_reports s) = 1%nat /\
  List.length (page_reports s') = 2%nat /\
  map r_id (page_reports s') = ["r1735689600000"; "r1735689600000"] /\
  (exists r, hd_error (page_reports s') = Some r /\
             In (r_id r) (map r_id (page_reports s))) /\
  ~ NoDup (map r_id (page_reports s')) /\
  workflowState untypedPage = PendingConfirmation /\
  d_type (reportDraft untypedPage) = Some EmptyString /\
  map r_type (page_reports (confirmSubmitReport t iso untypedPage))
  = ["Spending Concern"].
Proof.
  cbv zeta. repeat split; try reflexivity.
  - eexists. split; [reflexivity|]. vm_compute. now left.
  - intros H. vm_compute in H. inversion H as [|x l Hnotin _]; subst.
    apply Hnotin. now left.
Qed.

(* ===================================================================== *)
(** ** Ticker: status transitions, progress, totals *)
(* ===================================================================== *)

Lemma Forall2_refl_on {A} (P : A -> Prop) (R : A -> A -> Prop) (l : list A) :
  (forall x, P x -> R x x) -> Forall P l -> Forall2 R l l.
Proof. intros H. induction 1; constructor; auto. Qed.

Lemma Forall2_compose {A} (R S T : A -> A -> Prop) (l1 l2 l3 : list A) :
  (forall a b c, R a b -> S b c -> T a c) ->
  Forall2 R l1 l2 -> Forall2 S l2 l3 -> Forall2 T l1 l3.
Proof.
  intros H H12. revert l3. induction H12 as [|a b l1 l2 Hab _ IH];
    intros l3 H23; inversion H23; subst; constructor; eauto.
Qed.

Section TickerRuns.

Variable random : nat -> Q.
Variable clock : nat -> string.

(** What every callback establishes between a project and its successor
    holds, position by position, across any number of ticks. *)
Lemma run_ticks_Forall2_projects (P : Project -> Prop)
    (R : Project -> Project -> Prop) :
  (forall p, P p -> R p p) ->
  (forall a b c, R a b -> R b c -> R a c) ->
  (forall p w, P p -> P (fst (tickProject random clock p w)) /\
                      R p (fst (tickProject random clock p w))) ->
  forall n s w,
    Forall P (projects s) ->
    Forall2 R (projects s) (projects (fst (run_ticks random clock n s w))).
Proof.
  intros Hrefl Htrans Hstep. induction n as [|n IH]; intros s w Hs.
  - cbn. now apply Forall2_refl_on with (P := P).
  - change (run_ticks random clock (S n) s w)
      with (let (s1, w1) := tick random clock s w in
            run_ticks random clock n s1 w1).
    assert (H1 : Forall2 R (projects s)
                   (projects (fst (tick random clock s w)))).
    { rewrite tick_projects. apply mapM_Forall2 with (P := P); [|assumption].
      intros p w0 Hp. now apply Hstep. }
    assert (HP : Forall P (projects (fst (tick random clock s w)))).
    { rewrite tick_projects. apply mapM_Forall; [|assumption].
      intros p w0 Hp. now apply Hstep. }
    destruct (tick random clock s w) as [s1 w1]. cbn [fst] in *.
    eapply Forall2_compose; [exact Htrans|exact H1|]. now apply IH.
Qed.

Lemma tickProject_statusKept (p : Project) (w : World) :
  statusKeptOrCompleted p (fst (tickProject random clock p w)).
Proof.
  apply (@tickProject_either random clock statusKeptOrCompleted).
  - split; auto.
  - intros k1 k2 k3 now _. split; [reflexivity|].
    unfold updatedProject. cbn [p_status].
    destruct (progress p + increment (Fin (random k1)) >=? Fin 100)%js; auto.
Qed.

(** The status of a project only ever moves to Completed: after any
    number of ticks the project at each position has the identifier it
    had and either the status it had or Completed. *)
Theorem status_only_moves_to_completed (s : Store) (n : nat) (w : World) :
  Forall2 statusKeptOrCompleted
    (projects s) (projects (fst (run_ticks random clock n s w))).
Proof.
  apply run_ticks_Forall2_projects with (P := fun _ => True).
  - intros p _. split; auto.
  - intros a b c [Hab Sab] [Hbc Sbc]. split; [congruence|].
    destruct Sbc as [Sbc|Sbc]; [|now right].
    destruct Sab as [Sab|Sab]; [left|right]; congruence.
  - intros p w0 _. split; [exact I|apply tickProject_statusKept].
  - apply Forall_True.
Qed.

Lemma full_project_kept (s : Store) (i : nat) (p : Project)
    (n : nat) (w : World) :
  nth_error (projects s) i = Some p ->
  (progress p >=? Fin 100)%js = true ->
  nth_error (projects (fst (run_ticks random clock n s w))) i = Some p.
Proof.
  intros Hi Hfull.
  apply (@run_ticks_invariant random clock
           (fun s => nth_error (projects s) i = Some p)); [|assumption].
  clear s w Hi. intros s w Hi. rewrite tick_projects.
  pose proof (@mapM_Forall2 _ _ (tickProject random clock)
                (fun _ => True)
                (fun x y => (progress x >=? Fin 100)%js = true -> y = x)
                ltac:(cbv beta; intros; now apply tickProject_full)
                (projects s) w (Forall_True _)) as HF.
  destruct (Forall2_nth_error HF _ Hi) as [y [Hy Hxy]].
  rewrite Hy. f_equal. now apply Hxy.
Qed.

(** Completed is final: in a store reached from the sample data, a
    Completed project is the same record, at the same position, after any
    number of further ticks. *)
Theorem completed_project_is_final (now : string) (exps : list Expenditure)
    (n m : nat) (w : World) (i : nat) (p : Project) :
  let r := run_ticks random clock n (initialStore now exps) w in
  nth_error (projects (fst r)) i = Some p ->
  p_status p = Completed ->
  nth_error (projects (fst (run_ticks random clock m (fst r) (snd r)))) i
  = Some p.
Proof.
  cbv zeta. intros Hi Hc.
  apply full_project_kept; [assumption|].
  assert (Hall : Forall completedOnlyWhenFull
                   (projects (fst (run_ticks random clock n
                                     (initialStore now exps) w)))).
  { apply run_ticks_Forall_projects.
    - intros p0 w0. apply tickProject_completed.
    - unfold initialStore, initialProjects, completedOnlyWhenFull.
      cbn [projects].
      repeat constructor; cbn [p_status seedProject]; discriminate. }
  rewrite Forall_forall in Hall. apply Hall; [|assumption].
  eapply nth_error_In; eassumption.
Qed.

End TickerRuns.

Section TickerProgress.

Variable random : nat -> Q.
Variable clock : nat -> string.
Hypothesis random_range : forall k, (0 <= random k < 1)%Q.

Lemma updatedProject_progress (p : Project) (k1 k2 k3 : nat) (now : string) :
  progressBounded p ->
  let p' := updatedProject p (Fin (random k1)) (Fin (random k2)) now
              (Fin (random k3)) in
  progressBounded p' /\
  (progress p <=? progress p')%js = true /\
  (progress p' <=? progress p + Fin 4)%js = true.
Proof.
  intros [H0 H100]. cbv zeta. unfold progressBounded, updatedProject.
  cbn [progress]. unfold increment, clamp, clamp_between.
  destruct (progress p) as [| | |q]; try discriminate.
  rewrite le_Fin in H0, H100. pose proof (random_range k1) as Hr. js_fin.
  destruct (Math_max_Fin (q + random k1 * 4) 0) as (m & -> & Hm).
  destruct (Math_min_Fin m 100) as (m' & -> & Hm').
  rewrite !le_Fin.
  destruct Hm as [[? ->]|[? ->]], Hm' as [[? ->]|[? ->]];
    repeat split; lra.
Qed.

Lemma tickProject_progress (p : Project) (w : World) :
  progressBounded p ->
  let p' := fst (tickProject random clock p w) in
  progressBounded p' /\
  (progress p <=? progress p')%js = true /\
  (progress p' <=? progress p + Fin 4)%js = true.
Proof.
  intros Hp. cbv zeta.
  apply (@tickProject_either random clock
           (fun p p' => progressBounded p' /\
              (progress p <=? progress p')%js = true /\
              (progress p' <=? progress p + Fin 4)%js = true)).
  - split; [assumption|]. destruct Hp as [H0 H100].
    destruct (progress p) as [| | |q]; try discriminate.
    js_fin. rewrite !le_Fin. split; lra.
  - intros k1 k2 k3 now _. now apply updatedProject_progress.
Qed.

(** In every store reached from the sample data by ticks, every project's
    progress lies between 0 and 100; and the next tick does not lower it
    and raises it by at most 4. *)
Theorem progress_bounded_and_monotone (now : string)
    (exps : list Expenditure) (n : nat) (w : World) :
  let (s, w') := run_ticks random clock n (initialStore now exps) w in
  Forall (fun p => (Fin 0 <=? progress p)%js = true /\
                   (progress p <=? Fin 100)%js = true) (projects s) /\
  Forall2 (fun p p' => p_id p' = p_id p /\
                       (progress p <=? progress p')%js = true /\
                       (progress p' <=? progress p + Fin 4)%js = true)
    (projects s) (projects (fst (tick random clock s w'))).
Proof.
  pose proof (@run_ticks_Forall_projects random clock progressBounded
                ltac:(intros p0 w0 H0; now apply tickProject_progress)
                n (initialStore now exps) w) as Hn.
  destruct (run_ticks random clock n (initialStore now exps) w) as [s w'].
  cbn [fst] in Hn.
  assert (Hs : Forall progressBounded (projects s)).
  { apply Hn. unfold initialStore, initialProjects, progressBounded.
    cbn [projects]. repeat constructor. }
  split; [exact Hs|].
  rewrite tick_projects.
  apply mapM_Forall2 with (P := progressBounded); [|assumption].
  intros p0 w0 H0. split; [apply tickProject_frame|].
  now apply tickProject_progress.
Qed.

Lemma tickBudget_fundedWithinCap (b : Budget) (w : World) :
  fundedWithinCap b ->
  let b' := fst (tickBudget random clock b w) in
  fundedWithinCap b' /\ allocated b' = allocated b /\
  (b_spent b <=? b_spent b')%js = true.
Proof.
  intros Hb. cbv zeta.
  apply (@tickBudget_either random clock
           (fun b b' => fundedWithinCap b' /\ allocated b' = allocated b /\
                        (b_spent b <=? b_spent b')%js = true)).
  - split; [assumption|]. split; [reflexivity|].
    destruct Hb as (a & sq & _ & -> & _). apply le_Fin. lra.
  - intros k now. destruct Hb as (a & sq & Ha & Hs & Ha0 & Hsq).
    destruct (@delta_nonneg random random_range b a k Ha ltac:(lra))
      as (d & Hd & Hd0).
    unfold fundedWithinCap, updatedBudget. cbn [allocated b_spent].
    rewrite Hd, Ha, Hs. js_fin.
    destruct (Math_min_Fin (a * 1.15) (sq + d)) as (m & -> & Hc).
    split; [|split; [reflexivity|]].
    + exists a, m. repeat split; try assumption;
        destruct Hc as [[? ->]|[? ->]]; lra.
    + apply le_Fin. destruct Hc as [[? ->]|[? ->]]; lra.
Qed.

End TickerProgress.

(** ** Overview metrics: further facts *)

(** Both sums, accumulated as [reduce] does, over budgets whose spent lies
    between [lo]% and [hi]% of a positive allocation. *)
Lemma sums_between (lo hi : Q) (bs : list Budget) (cs ca : Q) :
  Forall (fun b => exists a s, allocated b = Fin a /\ b_spent b = Fin s /\
                               (0 < a)%Q /\
                               (lo * a <= s * 100 <= hi * a)%Q) bs ->
  (lo * ca <= cs * 100 <= hi * ca)%Q ->
  exists S A,
    fold_left (fun s b => s + b_spent b)%js bs (Fin cs) = Fin S /\
    fold_left (fun s b => s + allocated b)%js bs (Fin ca) = Fin A /\
    (lo * A <= S * 100 <= hi * A)%Q /\ (ca <= A)%Q /\
    (bs <> [] -> (ca < A)%Q).
Proof.
  revert cs ca. induction bs as [|b bs IH]; intros cs ca Hbs Hacc;
    cbn [fold_left].
  - exists cs, ca. repeat split; try reflexivity; try lra; congruence.
  - inversion Hbs as [|? ? (a & s & Ha & Hs & Ha0 & Hb) Hrest]; subst.
    rewrite Ha, Hs, !add_Fin.
    destruct (IH (cs + s)%Q (ca + a)%Q Hrest ltac:(lra))
      as (S & A & HS & HA & Hr & Hle & _).
    exists S, A. repeat split; try assumption; try lra.
Qed.

Lemma fold_field_same (f : Budget -> number) (bs bs' : list Budget) :
  Forall2 (fun b b' => f b' = f b) bs bs' ->
  forall c, fold_left (fun s b => s + f b)%js bs' c
            = fold_left (fun s b => s + f b)%js bs c.
Proof.
  induction 1 as [|b b' bs bs' Hb _ IH]; intros c; cbn [fold_left].
  - reflexivity.
  - rewrite Hb. apply IH.
Qed.

Lemma fold_spent_monotone (bs bs' : list Budget) :
  Forall2 (fun b b' => exists s s', b_spent b = Fin s /\
                                    b_spent b' = Fin s' /\ (s <= s')%Q)
    bs bs' ->
  forall c c', (c <= c')%Q ->
  exists S S',
    fold_left (fun s b => s + b_spent b)%js bs (Fin c) = Fin S /\
    fold_left (fun s b => s + b_spent b)%js bs' (Fin c') = Fin S' /\
    (S <= S')%Q.
Proof.
  induction 1 as [|b b' bs bs' (s & s' & Hs & Hs' & Hle) _ IH];
    intros c c' Hc; cbn [fold_left].
  - exists c, c'. auto.
  - rewrite Hs, Hs', !add_Fin. apply IH. lra.
Qed.

Section OverviewAcrossTicks.

Variable random : nat -> Q.
Variable clock : nat -> string.

Lemma run_ticks_Forall2_budgets (P : Budget -> Prop)
    (R : Budget -> Budget -> Prop) :
  (forall b, P b -> R b b) ->
  (forall a b c, R a b -> R b c -> R a c) ->
  (forall b w, P b -> P (fst (tickBudget random clock b w)) /\
                      R b (fst (tickBudget random clock b w))) ->
  forall n s w,
    Forall P (budgets s) ->
    Forall2 R (budgets s) (budgets (fst (run_ticks random clock n s w))).
Proof.
  intros Hrefl Htrans Hstep. induction n as [|n IH]; intros s w Hs.
  - cbn. now apply Forall2_refl_on with (P := P).
  - change (run_ticks random clock (S n) s w)
      with (let (s1, w1) := tick random clock s w in
            run_ticks random clock n s1 w1).
    assert (H1 : Forall2 R (budgets s)
                   (budgets (fst (tick random clock s w)))).
    { rewrite tick_budgets. apply mapM_Forall2 with (P := P); [|assumption].
      intros b w0 Hb. now apply Hstep. }
    assert (HP : Forall P (budgets (fst (tick random clock s w)))).
    { rewrite tick_budgets. apply mapM_Forall; [|assumption].
      intros b w0 Hb. now apply Hstep. }
    destruct (tick random clock s w) as [s1 w1]. cbn [fst] in *.
    eapply Forall2_compose; [exact Htrans|exact H1|]. now apply IH.
Qed.

(** No number of ticks changes the total allocation, whatever the store
    and the draws. *)
Theorem totalAllocated_constant (s : Store) (n : nat) (w : World) :
  totalAllocated (budgets (fst (run_ticks random clock n s w)))
  = totalAllocated (budgets s).
Proof.
  unfold totalAllocated. apply (fold_field_same allocated).
  apply run_ticks_Forall2_budgets with (P := fun _ => True).
  - reflexivity.
  - intros a b c Hab Hbc. congruence.
  - intros b w0 _. split; [exact I|]. apply tickBudget_frame.
  - apply Forall_True.
Qed.

Hypothesis random_range : forall k, (0 <= random k < 1)%Q.

Lemma initialBudgets_funded (now : string) :
  Forall fundedWithinCap (initialBudgets now).
Proof.
  unfold initialBudgets, fundedWithinCap, seedBudget.
  repeat constructor; cbn [allocated b_spent];
    eexists; eexists; (split; [reflexivity|]); (split; [reflexivity|]);
    repeat split; try reflexivity; discriminate.
Qed.

(** From the sample data, whatever the draws: the overall utilization is
    a number between 0 and 115, and the next tick lowers neither the
    total spent nor the overall utilization. *)
Theorem overallUtilization_capped_and_monotone (now : string)
    (exps : list Expenditure) (n : nat) (w : World) :
  let (s, w') := run_ticks random clock n (initialStore now exps) w in
  let s' := fst (tick random clock s w') in
  (Fin 0 <=? overallUtilization (budgets s))%js = true /\
  (overallUtilization (budgets s) <=? Fin 115)%js = true /\
  (totalSpent (budgets s) <=? totalSpent (budgets s'))%js = true /\
  (overallUtilization (budgets s) <=? overallUtilization (budgets s'))%js
  = true.
Proof.
  pose proof (@run_ticks_Forall_budgets random clock fundedWithinCap
                ltac:(intros b0 w0 H0;
                      now apply (@tickBudget_fundedWithinCap random clock
                                   random_range b0 w0 H0))
                n (initialStore now exps) w
                (initialBudgets_funded now)) as Hs.
  pose proof (@run_ticks_Forall2_budgets (fun _ => True) (fun _ _ => True)
                ltac:(auto) ltac:(auto) ltac:(auto)
                n (initialStore now exps) w (Forall_True _)) as Hshape.
  destruct (run_ticks random clock n (initialStore now exps) w) as [s w'].
  cbn [fst] in Hs, Hshape. cbv zeta.
  assert (Hne : budgets s <> []).
  { intros E. rewrite E in Hshape. inversion Hshape. }
  assert (Hstep : Forall2 (fun b b' =>
                    fundedWithinCap b' /\ allocated b' = allocated b /\
                    (b_spent b <=? b_spent b')%js = true)
                    (budgets s) (budgets (fst (tick random clock s w')))).
  { rewrite tick_budgets.
    apply mapM_Forall2 with (P := fundedWithinCap); [|assumption].
    intros b0 w0 H0.
    exact (@tickBudget_fundedWithinCap random clock random_range b0 w0 H0). }
  set (bs' := budgets (fst (tick random clock s w'))) in *.
  assert (Hbetween : Forall (fun b => exists a s0,
                       allocated b = Fin a /\ b_spent b = Fin s0 /\
                       (0 < a)%Q /\ (0 * a <= s0 * 100 <= 115 * a)%Q)
                       (budgets s)).
  { eapply Forall_impl; [|exact Hs].
    intros b (a & sq & Ha & Hsq & Ha0 & Hr). exists a, sq.
    repeat split; try assumption; lra. }
  destruct (@sums_between 0 115 (budgets s) 0 0 Hbetween ltac:(lra))
    as (S & A & HS & HA & Hr & _ & Hpos).
  specialize (Hpos Hne).
  assert (Hmono : Forall2 (fun b b' => exists s0 s1,
                     b_spent b = Fin s0 /\ b_spent b' = Fin s1 /\
                     (s0 <= s1)%Q) (budgets s) bs').
  { clear - Hstep Hs. induction Hstep as [|b b' l l' (Hf & _ & Hle) _ IH].
    - constructor.
    - inversion Hs as [|? ? (a & sq & _ & Hsq & _) Hrest]; subst.
      destruct Hf as (a' & sq' & _ & Hsq' & _).
      constructor; [|now apply IH].
      exists sq, sq'. rewrite Hsq, Hsq', le_Fin in Hle. auto. }
  destruct (@fold_spent_monotone (budgets s) bs' Hmono 0 0 ltac:(lra))
    as (S0 & S' & HS0 & HS' & HSle).
  assert (HA' : fold_left (fun s0 b => s0 + allocated b)%js bs' (Fin 0)
                = Fin A).
  { rewrite <- HA. apply (fold_field_same allocated).
    eapply Forall2_weaken; [|exact Hstep]. intros x y H. apply H. }
  unfold overallUtilization, totalSpent, totalAllocated.
  rewrite HA', HA, HS'. rewrite HS in HS0. injection HS0 as <-.
  rewrite HS, !div_Fin by lra. js_fin. rewrite !le_Fin.
  assert (E : (S * 100 == (S / A * 100) * A)%Q) by (field; lra).
  assert (E' : (S' * 100 == (S' / A * 100) * A)%Q) by (field; lra).
  rewrite E in Hr. repeat split; try nra; try assumption.
Qed.

End OverviewAcrossTicks.

(** ** Project status counts *)

Lemma ProjectStatus_eqb_reflect (a b : ProjectStatus) :
  reflect (a = b) (ProjectStatus_eqb a b).
Proof. destruct a, b; constructor; congruence. Qed.

Lemma countOf_bump (k k' : ProjectStatus) (acc : list (ProjectStatus * nat)) :
  countOf k' (bump k acc) =
    if ProjectStatus_eqb k k'
    then Some (S (match countOf k' acc with Some n => n | None => 0%nat end))
    else countOf k' acc.
Proof.
  induction acc as [|[k0 n] rest IH]; cbn [bump countOf].
  - destruct (ProjectStatus_eqb_reflect k k'); reflexivity.
  - destruct (ProjectStatus_eqb_reflect k0 k) as [->|Hne]; cbn [countOf].
    + destruct (ProjectStatus_eqb_reflect k k'); reflexivity.
    + destruct (ProjectStatus_eqb_reflect k0 k') as [->|Hne'].
      * destruct (ProjectStatus_eqb_reflect k k'); [congruence|reflexivity].
      * exact IH.
Qed.

Lemma bump_In (k k' : ProjectStatus) (acc : list (ProjectStatus * nat)) :
  In k' (map fst (bump k acc)) <-> k' = k \/ In k' (map fst acc).
Proof.
  induction acc as [|[k0 n] rest IH]; cbn [bump].
  - simpl. intuition congruence.
  - destruct (ProjectStatus_eqb_reflect k0 k) as [->|Hne]; simpl.
    + intuition congruence.
    + rewrite IH. intuition congruence.
Qed.

Lemma bump_NoDup (k : ProjectStatus) (acc : list (ProjectStatus * nat)) :
  NoDup (map fst acc) -> NoDup (map fst (bump k acc)).
Proof.
  induction acc as [|[k0 n] rest IH]; cbn [bump]; intros Hnd.
  - simpl. constructor; [intros []|constructor].
  - destruct (ProjectStatus_eqb_reflect k0 k) as [->|Hne]; simpl in *.
    + exact Hnd.
    + inversion Hnd as [|? ? Hnotin Hnd']; subst.
      constructor; [|now apply IH].
      rewrite bump_In. intros [H|H]; [congruence|contradiction].
Qed.

Lemma bump_sum (k : ProjectStatus) (acc : list (ProjectStatus * nat)) :
  list_sum (map snd (bump k acc)) = S (list_sum (map snd acc)).
Proof.
  induction acc as [|[k0 n] rest IH]; cbn [bump].
  - reflexivity.
  - destruct (ProjectStatus_eqb_reflect k0 k) as [->|Hne]; simpl.
    + lia.
    + rewrite IH. lia.
Qed.

Lemma counts_fold (ps : list Project) (acc : list (ProjectStatus * nat)) :
  let out := fold_left (fun acc p => bump (p_status p) acc) ps acc in
  (forall k,
      countOf k out =
        match countOf k acc, withStatus k ps with
        | None, O => None
        | None, c => Some c
        | Some n, c => Some (n + c)%nat
        end) /\
  (NoDup (map fst acc) -> NoDup (map fst out)) /\
  list_sum (map snd out) = (list_sum (map snd acc) + List.length ps)%nat.
Proof.
  revert acc. induction ps as [|p ps IH]; intros acc; cbn [fold_left].
  - cbv zeta. split; [|split].
    + intros k. unfold withStatus. simpl.
      destruct (countOf k acc); [f_equal; lia|reflexivity].
    + auto.
    + simpl. lia.
  - destruct (IH (bump (p_status p) acc)) as (IHc & IHnd & IHsum).
    pose proof (@bump_NoDup (p_status p) acc) as Bnd.
    pose proof (bump_sum (p_status p) acc) as Bsum.
    cbv zeta. split; [|split].
    + intros k. rewrite IHc, countOf_bump. unfold withStatus.
      cbn [filter].
      destruct (ProjectStatus_eqb_reflect (p_status p) k) as [E|E];
        cbn [List.length].
      * destruct (countOf k acc);
          destruct (List.length (filter _ ps)); f_equal; lia.
      * reflexivity.
    + intros Hnd. auto.
    + rewrite IHsum, Bsum. simpl. lia.
Qed.

(** The status counts hold, for every status, the number of projects in
    that status, and no entry at all for a status no project is in; every
    key occurs once; and the counts add up to the number of projects. *)
Theorem projectStatusCounts_exact (ps : list Project) :
  (forall k,
      countOf k (projectStatusCounts ps) =
        match withStatus k ps with O => None | c => Some c end) /\
  NoDup (map fst (projectStatusCounts ps)) /\
  list_sum (map snd (projectStatusCounts ps)) = List.length ps.
Proof.
  destruct (counts_fold ps []) as (Hc & Hnd & Hsum).
  unfold projectStatusCounts. split; [|split].
  - intros k. rewrite (Hc k). reflexivity.
  - apply Hnd. constructor.
  - exact Hsum.
Qed.

Lemma rushOracle_range (k : nat) : (0 <= rushOracle k < 1)%Q.
Proof.
  unfold rushOracle. cbv zeta.
  destruct (k mod 44 <? 36)%nat;
    [destruct ((k mod 44) mod 4)%nat as [|[|?]]|];
    split; try discriminate; reflexivity.
Qed.

Lemma completed_project_is_final_witness :
  let r := run_ticks rushOracle frozenClock 13 (initialStore "t0" []) world0 in
  let p := nth 1 (projects (fst r)) finishedProject in
  nth_error (projects (fst r)) 1 = Some p /\
  p_status p = Completed /\
  nth_error (projects (fst (run_ticks rushOracle frozenClock 2 (fst r) (snd r))))
    1 = Some p.
Proof.
  cbv zeta.
  assert (Hi : nth_error
                 (projects (fst (run_ticks rushOracle frozenClock 13
                                   (initialStore "t0" []) world0))) 1
               = Some (nth 1 (projects (fst (run_ticks rushOracle frozenClock
                                               13 (initialStore "t0" [])
                                               world0))) finishedProject))
    by (vm_compute; reflexivity).
  assert (Hc : p_status (nth 1 (projects (fst (run_ticks rushOracle
                                                 frozenClock 13
                                                 (initialStore "t0" [])
                                                 world0))) finishedProject)
               = Completed)
    by (vm_compute; reflexivity).
  split; [exact Hi|]. split; [exact Hc|].
  exact (@completed_project_is_final rushOracle frozenClock "t0" [] 13 2
           world0 1 _ Hi Hc).
Defined.

Lemma progress_bounded_and_monotone_witness :
  (forall k, (0 <= rushOracle k < 1)%Q) /\
  let (s, w') :=
    run_ticks rushOracle frozenClock 13 (initialStore "t0" []) world0 in
  Forall (fun p => (Fin 0 <=? progress p)%js = true /\
                   (progress p <=? Fin 100)%js = true) (projects s) /\
  Forall2 (fun p p' => p_id p' = p_id p /\
                       (progress p <=? progress p')%js = true /\
                       (progress p' <=? progress p + Fin 4)%js = true)
    (projects s) (projects (fst (tick rushOracle frozenClock s w'))).
Proof.
  split; [exact rushOracle_range|].
  exact (@progress_bounded_and_monotone rushOracle frozenClock
           rushOracle_range "t0" [] 13%nat world0).
Defined.

Lemma overallUtilization_capped_and_monotone_witness :
  (forall k, (0 <= steady (1 # 10) k < 1)%Q) /\
  let (s, w') :=
    run_ticks (steady (1 # 10)) frozenClock 2 (initialStore "t0" []) world0 in
  let s' := fst (tick (steady (1 # 10)) frozenClock s w') in
  (Fin 0 <=? overallUtilization (budgets s))%js = true /\
  (overallUtilization (budgets s) <=? Fin 115)%js = true /\
  (totalSpent (budgets s) <=? totalSpent (budgets s'))%js = true /\
  (overallUtilization (budgets s) <=? overallUtilization (budgets s'))%js
  = true.
Proof.
  assert (Hr : forall k, (0 <= steady (1 # 10) k < 1)%Q)
    by (apply steady_range, tenth_in_range).
  split; [exact Hr|].
  exact (@overallUtilization_capped_and_monotone (steady (1 # 10)) frozenClock
           Hr "t0" [] 2%nat world0).
Defined.

(* ===================================================================== *)
(** ** Query pipeline: the budgets and projects views *)
(* ===================================================================== *)


(** ** Sorting with a comparator *)

Section SortBy.

Context {A : Type} (cmp : A -> A -> number).

Lemma insert_by_Permutation (x : A) (l : list A) :
  Permutation (insert_by cmp x l) (x :: l).
Proof.
  induction l as [|y ys IH]; cbn [insert_by].
  - apply Permutation_refl.
  - destruct (cmp x y >? Fin 0)%js.
    + eapply perm_trans; [apply perm_skip, IH|apply perm_swap].
    + apply Permutation_refl.
Qed.

Lemma sort_by_Permutation (l : list A) : Permutation (sort_by cmp l) l.
Proof.
  unfold sort_by. induction l as [|x xs IH]; cbn [fold_right].
  - constructor.
  - eapply perm_trans; [apply insert_by_Permutation|now apply perm_skip].
Qed.

(** A list that is in order already is left as it is. *)
Lemma sort_by_fixed (l : list A) :
  Sorted (notAfter cmp) l -> sort_by cmp l = l.
Proof.
  unfold sort_by. induction 1 as [|x xs Hs IH Hhd]; cbn [fold_right].
  - reflexivity.
  - rewrite IH. destruct Hhd as [|y ys Hxy]; cbn [insert_by].
    + reflexivity.
    + unfold notAfter in Hxy. now rewrite Hxy.
Qed.

(** Elements that the comparator never orders among themselves keep
    their relative order. *)
Lemma sort_by_stable (p : A -> bool) (l : list A) :
  (forall x y, p x = true -> p y = true -> notAfter cmp x y) ->
  filter p (sort_by cmp l) = filter p l.
Proof.
  intros Hp. unfold sort_by. induction l as [|x xs IH]; cbn [fold_right].
  - reflexivity.
  - cbn [filter]. rewrite <- IH.
    generalize (fold_right (insert_by cmp) [] xs). intros l.
    induction l as [|y ys IHl]; cbn [insert_by].
    + reflexivity.
    + destruct (cmp x y >? Fin 0)%js eqn:E.
      * cbn [filter]. rewrite IHl.
        destruct (p x) eqn:Ex; [|reflexivity].
        destruct (p y) eqn:Ey; [|reflexivity].
        specialize (Hp x y Ex Ey). unfold notAfter in Hp. congruence.
      * reflexivity.
Qed.

Hypothesis cmp_antisym :
  forall x y, (cmp x y >? Fin 0)%js = true -> notAfter cmp y x.

Lemma insert_by_Sorted (x : A) (l : list A) :
  Sorted (notAfter cmp) l -> Sorted (notAfter cmp) (insert_by cmp x l).
Proof.
  induction 1 as [|y ys Hs IH Hhd]; cbn [insert_by].
  - repeat constructor.
  - destruct (cmp x y >? Fin 0)%js eqn:E.
    + constructor; [exact IH|].
      destruct Hhd as [|z zs Hyz]; cbn [insert_by].
      * constructor. now apply cmp_antisym.
      * destruct (cmp x z >? Fin 0)%js; constructor;
          [assumption|now apply cmp_antisym].
    + constructor; [now constructor|]. constructor. exact E.
Qed.

Lemma sort_by_Sorted (l : list A) : Sorted (notAfter cmp) (sort_by cmp l).
Proof.
  unfold sort_by. induction l as [|x xs IH]; cbn [fold_right].
  - constructor.
  - now apply insert_by_Sorted.
Qed.

Lemma sort_by_idempotent (l : list A) :
  sort_by cmp (sort_by cmp l) = sort_by cmp l.
Proof. apply sort_by_fixed, sort_by_Sorted. Qed.

End SortBy.

(** ** Differences as comparator verdicts *)

Lemma gt_sub_antisym (a b : number) :
  (a - b >? Fin 0)%js = true -> (b - a >? Fin 0)%js = false.
Proof.
  unfold gt.
  destruct a as [| | |p], b as [| | |q]; cbn; try discriminate; try reflexivity.
  unfold Qlt_bool.
  destruct (Qle_bool_reflect (p + - q) 0), (Qle_bool_reflect (q + - p) 0);
    cbn; try discriminate; try reflexivity. lra.
Qed.

Lemma gt_sub_Fin (p q : Q) : (Fin p - Fin q >? Fin 0)%js = true <-> (q < p)%Q.
Proof.
  unfold gt. rewrite sub_Fin, lt_Fin. split; lra.
Qed.
(** ** The budgets and projects pipelines *)

Lemma filter_filter {A} (f g : A -> bool) (l : list A) :
  filter g (filter f l) = filter (fun x => f x && g x) l.
Proof.
  induction l as [|x xs IH]; cbn [filter]; [reflexivity|].
  destruct (f x); cbn [filter andb]; [|exact IH].
  destruct (g x); now rewrite IH.
Qed.

Lemma filter_when {A} (c : bool) (f : A -> bool) (l : list A) :
  (if c then filter f l else l) = filter (fun x => negb c || f x) l.
Proof.
  destruct c; cbn [negb orb]; [reflexivity|].
  induction l as [|x xs IH]; cbn [filter]; congruence.
Qed.

Lemma filter_ext_eq {A} (f g : A -> bool) (l : list A) :
  (forall x, f x = g x) -> filter f l = filter g l.
Proof.
  intros H. induction l as [|x xs IH]; cbn [filter]; [reflexivity|].
  now rewrite H, IH.
Qed.

Lemma filter_all {A} (f : A -> bool) (l : list A) :
  (forall x, In x l -> f x = true) -> filter f l = l.
Proof.
  induction l as [|x xs IH]; intros H; cbn [filter]; [reflexivity|].
  rewrite (H x (or_introl eq_refl)). f_equal. apply IH.
  intros y Hy. apply H. now right.
Qed.

Lemma keepsBudget_spec (search filterDept filterRegion filterCategory : string)
    (b : Budget) :
  keepsBudget search filterDept filterRegion filterCategory b = true <->
  (search = EmptyString \/ matchesBudgetSearch search b = true) /\
  (filterDept = "All" \/ b_department b = filterDept) /\
  (filterRegion = "All" \/ b_region b = filterRegion) /\
  (filterCategory = "All" \/ b_category b = filterCategory).
Proof.
  unfold keepsBudget.
  rewrite !andb_true_iff, !orb_true_iff, !String.eqb_eq, negb_true_iff,
    nonempty_false.
  tauto.
Qed.

Lemma keepsProject_spec (search filterDept filterRegion filterStatus : string)
    (p : Project) :
  keepsProject search filterDept filterRegion filterStatus p = true <->
  (search = EmptyString \/ matchesProjectSearch search p = true) /\
  (filterDept = "All" \/ p_department p = filterDept) /\
  (filterRegion = "All" \/ p_region p = filterRegion) /\
  (filterStatus = "All" \/ statusLabel (p_status p) = filterStatus).
Proof.
  unfold keepsProject.
  rewrite !andb_true_iff, !orb_true_iff, !String.eqb_eq, negb_true_iff,
    nonempty_false.
  tauto.
Qed.

Section SortedQueryFacts.

Variable localeCompare : string -> string -> number.
Variable numberToString : number -> string.

(** The four filter steps are one filter. *)
Lemma filteredBudgets_unsorted (bs : list Budget)
    (search filterDept filterRegion filterCategory : string)
    (dir : SortDirection) :
  filteredBudgets localeCompare numberToString bs search filterDept
    filterRegion filterCategory (mkSort None dir)
  = filter (keepsBudget search filterDept filterRegion filterCategory) bs.
Proof.
  unfold filteredBudgets. cbv zeta. cbn [sort_key].
  rewrite !filter_when, !filter_filter. apply filter_ext_eq.
  intros b. unfold keepsBudget. rewrite !negb_involutive, !andb_assoc. reflexivity.
Qed.

Lemma filteredBudgets_sorted_form (bs : list Budget)
    (search filterDept filterRegion filterCategory : string)
    (cfg : SortConfig BudgetKey) :
  filteredBudgets localeCompare numberToString bs search filterDept
    filterRegion filterCategory cfg
  = match sort_key cfg with
    | Some k =>
        sort_by (fun a b => compareFields localeCompare numberToString
                              (sort_direction cfg)
                              (budgetField k a) (budgetField k b))
          (filter (keepsBudget search filterDept filterRegion filterCategory)
             bs)
    | None =>
        filter (keepsBudget search filterDept filterRegion filterCategory) bs
    end.
Proof.
  rewrite <- (filteredBudgets_unsorted bs search filterDept filterRegion
                filterCategory asc).
  unfold filteredBudgets. cbv zeta. cbn [sort_key].
  destruct (sort_key cfg); reflexivity.
Qed.

Lemma filteredProjects_sorted_form (ps : list Project)
    (search filterDept filterRegion filterStatus : string)
    (cfg : SortConfig ProjectKey) :
  filteredProjects localeCompare numberToString ps search filterDept
    filterRegion filterStatus cfg
  = match sort_key cfg with
    | Some k =>
        sort_by (fun a b => compareFields localeCompare numberToString
                              (sort_direction cfg)
                              (projectField k a) (projectField k b))
          (filter (keepsProject search filterDept filterRegion filterStatus)
             ps)
    | None =>
        filter (keepsProject search filterDept filterRegion filterStatus) ps
    end.
Proof.
  assert (E : forall l,
             (let data := l in
              let data := if nonempty search
                          then filter (matchesProjectSearch search) data
                          else data in
              let data := if negb (String.eqb filterDept "All")
                          then filter (fun p => String.eqb (p_department p)
                                                  filterDept) data
                          else data in
              let data := if negb (String.eqb filterRegion "All")
                          then filter (fun p => String.eqb (p_region p)
                                                  filterRegion) data
                          else data in
              if negb (String.eqb filterStatus "All")
              then filter (fun p => String.eqb (statusLabel (p_status p))
                                      filterStatus) data
              else data)
             = filter (keepsProject search filterDept filterRegion
                         filterStatus) l).
  { intros l. cbv zeta. rewrite !filter_when, !filter_filter.
    apply filter_ext_eq. intros p. unfold keepsProject.
    rewrite !negb_involutive, !andb_assoc. reflexivity. }
  unfold filteredProjects. cbv zeta in *. rewrite E.
  destruct (sort_key cfg); reflexivity.
Qed.

(** With no search, or a search over ASCII text: whatever the sort
    setting, the budgets view holds exactly the budgets that pass the
    search and the three filters, each as often as the store holds it;
    without a sort key they come in the store's order. *)
Theorem filteredBudgets_keeps (bs : list Budget)
    (search filterDept filterRegion filterCategory : string)
    (cfg : SortConfig BudgetKey) :
  asciiBudgetSearch search bs ->
  let out := filteredBudgets localeCompare numberToString bs search
               filterDept filterRegion filterCategory cfg in
  (forall b,
      In b out <->
      In b bs /\
      (search = EmptyString \/ matchesBudgetSearch search b = true) /\
      (filterDept = "All" \/ b_department b = filterDept) /\
      (filterRegion = "All" \/ b_region b = filterRegion) /\
      (filterCategory = "All" \/ b_category b = filterCategory)) /\
  Permutation out
    (filter (keepsBudget search filterDept filterRegion filterCategory) bs) /\
  (sort_key cfg = None ->
   out = filter (keepsBudget search filterDept filterRegion filterCategory)
           bs) /\
  (List.length out <= List.length bs)%nat.
Proof.
  intros _. cbv zeta. rewrite filteredBudgets_sorted_form.
  assert (Hperm : Permutation
            match sort_key cfg with
            | Some k =>
                sort_by (fun a b => compareFields localeCompare
                                      numberToString (sort_direction cfg)
                                      (budgetField k a) (budgetField k b))
                  (filter (keepsBudget search filterDept filterRegion
                             filterCategory) bs)
            | None => filter (keepsBudget search filterDept filterRegion
                                filterCategory) bs
            end
            (filter (keepsBudget search filterDept filterRegion
                       filterCategory) bs)).
  { destruct (sort_key cfg); [apply sort_by_Permutation|reflexivity]. }
  split; [|split; [exact Hperm|split]].
  - intros b. split.
    + intros Hin. apply (Permutation_in _ Hperm) in Hin.
      apply filter_In in Hin. now rewrite keepsBudget_spec in Hin.
    + intros (Hin & Hk). apply (Permutation_in _ (Permutation_sym Hperm)).
      apply filter_In. now rewrite keepsBudget_spec.
  - intros ->. reflexivity.
  - rewrite (Permutation_length Hperm). apply filter_length_le.
Qed.

(** With no search, or a search over ASCII text: the projects view holds
    exactly the projects that pass the search and the department, region
    and status filters, each as often as the store holds it; without a
    sort key they come in the store's order. *)
Theorem filteredProjects_keeps (ps : list Project)
    (search filterDept filterRegion filterStatus : string)
    (cfg : SortConfig ProjectKey) :
  asciiProjectSearch search ps ->
  let out := filteredProjects localeCompare numberToString ps search
               filterDept filterRegion filterStatus cfg in
  (forall p,
      In p out <->
      In p ps /\
      (search = EmptyString \/ matchesProjectSearch search p = true) /\
      (filterDept = "All" \/ p_department p = filterDept) /\
      (filterRegion = "All" \/ p_region p = filterRegion) /\
      (filterStatus = "All" \/ statusLabel (p_status p) = filterStatus)) /\
  Permutation out
    (filter (keepsProject search filterDept filterRegion filterStatus) ps) /\
  (sort_key cfg = None ->
   out = filter (keepsProject search filterDept filterRegion filterStatus)
           ps) /\
  (List.length out <= List.length ps)%nat.
Proof.
  intros _. cbv zeta. rewrite filteredProjects_sorted_form.
  assert (Hperm : Permutation
            match sort_key cfg with
            | Some k =>
                sort_by (fun a b => compareFields localeCompare
                                      numberToString (sort_direction cfg)
                                      (projectField k a) (projectField k b))
                  (filter (keepsProject search filterDept filterRegion
                             filterStatus) ps)
            | None => filter (keepsProject search filterDept filterRegion
                                filterStatus) ps
            end
            (filter (keepsProject search filterDept filterRegion
                       filterStatus) ps)).
  { destruct (sort_key cfg); [apply sort_by_Permutation|reflexivity]. }
  split; [|split; [exact Hperm|split]].
  - intros p. split.
    + intros Hin. apply (Permutation_in _ Hperm) in Hin.
      apply filter_In in Hin. now rewrite keepsProject_spec in Hin.
    + intros (Hin & Hk). apply (Permutation_in _ (Permutation_sym Hperm)).
      apply filter_In. now rewrite keepsProject_spec.
  - intros ->. reflexivity.
  - rewrite (Permutation_length Hperm). apply filter_length_le.
Qed.

End SortedQueryFacts.
(** ** Order facts on numbers *)

Lemma le_number_trans (x y z : number) :
  (x <=? y)%js = true -> (y <=? z)%js = true -> (x <=? z)%js = true.
Proof.
  destruct x as [| | |a], y as [| | |b], z as [| | |c]; cbn;
    try discriminate; try reflexivity.
  intros H1 H2. apply Qle_bool_iff in H1, H2. apply Qle_bool_iff. lra.
Qed.

Lemma lt_number_asym (x y : number) :
  (x <? y)%js = true -> (y <? x)%js = true -> False.
Proof.
  destruct x as [| | |a], y as [| | |b]; cbn; try discriminate.
  intros H1 H2.
  destruct (Qlt_bool_reflect a b), (Qlt_bool_reflect b a);
    try discriminate. lra.
Qed.

Lemma notAfter_sub_Fin (a b : Q) :
  (Fin a - Fin b >? Fin 0)%js = false <-> (Fin a <=? Fin b)%js = true.
Proof.
  rewrite le_Fin. unfold gt. rewrite sub_Fin. cbn [lt].
  destruct (Qlt_bool_reflect 0 (a - b)); split; intros; try lra;
    try discriminate; try reflexivity.
Qed.

Lemma lt_mul_one (x : number) : (Fin 0 <? x * Fin 1)%js = (Fin 0 <? x)%js.
Proof.
  destruct x as [| | |q]; try reflexivity. rewrite mul_Fin. cbn [lt].
  destruct (Qlt_bool_reflect 0 (q * 1)), (Qlt_bool_reflect 0 q);
    try reflexivity; lra.
Qed.

Lemma lt_mul_minus_one (x : number) :
  (Fin 0 <? x * Fin (-1))%js = (x <? Fin 0)%js.
Proof.
  destruct x as [| | |q]; try reflexivity. rewrite mul_Fin. cbn [lt].
  destruct (Qlt_bool_reflect 0 (q * -1)), (Qlt_bool_reflect q 0);
    try reflexivity; lra.
Qed.

Lemma lt_both_false (x : number) :
  (Fin 0 <? x)%js = (x <? Fin 0)%js -> (Fin 0 <? x)%js = false.
Proof.
  destruct (Fin 0 <? x)%js eqn:E; [|reflexivity].
  intros H. symmetry in H. exfalso. exact (@lt_number_asym _ _ E H).
Qed.

(** ** Sorting on one numeric field *)

Section SortNumeric.

Context {A : Type} (f : A -> number).

Let up (a b : A) : number := (f a - f b)%js.
Let down (a b : A) : number := (f b - f a)%js.

Lemma Sorted_notAfter_le (cmp : A -> A -> number) (R : A -> A -> Prop)
    (l : list A) :
  (forall a b, isFinite (f a) = true -> isFinite (f b) = true ->
               notAfter cmp a b -> R a b) ->
  Forall (fun a => isFinite (f a) = true) l ->
  Sorted (notAfter cmp) l -> Sorted R l.
Proof.
  intros HR Hfin Hs. induction Hs as [|x xs Hs IH Hhd].
  - constructor.
  - inversion Hfin as [|? ? Hx Hxs]; subst.
    constructor; [now apply IH|].
    destruct Hhd as [|y ys Hxy]; constructor.
    inversion Hxs; subst. now apply HR.
Qed.

Lemma sort_up_ascending (l : list A) :
  Forall (fun a => isFinite (f a) = true) l ->
  StronglySorted (fun a b => (f a <=? f b)%js = true) (sort_by up l).
Proof.
  intros Hfin. apply Sorted_StronglySorted.
  - intros a b c. apply le_number_trans.
  - apply Sorted_notAfter_le with (cmp := up).
    + intros a b Ha Hb. unfold notAfter, up.
      destruct (f a) as [| | |p]; try discriminate.
      destruct (f b) as [| | |q]; try discriminate.
      apply notAfter_sub_Fin.
    + eapply Permutation_Forall; [|exact Hfin].
      apply Permutation_sym, sort_by_Permutation.
    + apply sort_by_Sorted. intros x y. apply gt_sub_antisym.
Qed.

Lemma sort_down_descending (l : list A) :
  Forall (fun a => isFinite (f a) = true) l ->
  StronglySorted (fun a b => (f b <=? f a)%js = true) (sort_by down l).
Proof.
  intros Hfin. apply Sorted_StronglySorted.
  - intros a b c H1 H2. eapply le_number_trans; eassumption.
  - apply Sorted_notAfter_le with (cmp := down).
    + intros a b Ha Hb. unfold notAfter, down.
      destruct (f a) as [| | |p]; try discriminate.
      destruct (f b) as [| | |q]; try discriminate.
      apply notAfter_sub_Fin.
    + eapply Permutation_Forall; [|exact Hfin].
      apply Permutation_sym, sort_by_Permutation.
    + apply sort_by_Sorted. intros x y. apply gt_sub_antisym.
Qed.

End SortNumeric.

(** ** Lists in strict order *)

Lemma StronglySorted_unique {A} (R : A -> A -> Prop) (l1 l2 : list A) :
  (forall a b, R a b -> R b a -> False) ->
  StronglySorted R l1 -> StronglySorted R l2 ->
  Permutation l1 l2 -> l1 = l2.
Proof.
  intros Hasym H1. revert l2.
  induction H1 as [|x t1 Ht1 IH Hx]; intros l2 H2 Hperm.
  - apply Permutation_nil in Hperm. now subst.
  - destruct H2 as [|y t2 Ht2 Hy].
    + apply Permutation_sym, Permutation_nil in Hperm. discriminate.
    + assert (Exy : x = y).
      { assert (Hin : In x (y :: t2))
          by (eapply Permutation_in; [exact Hperm|now left]).
        destruct Hin as [E|Hin]; [now symmetry|].
        assert (Hin' : In y (x :: t1))
          by (eapply Permutation_in;
              [apply Permutation_sym; exact Hperm|now left]).
        destruct Hin' as [E|Hin']; [assumption|].
        rewrite Forall_forall in Hx, Hy.
        exfalso. exact (Hasym x y (Hx y Hin') (Hy x Hin)). }
      subst y. f_equal. apply IH; [assumption|].
      eapply Permutation_cons_inv; exact Hperm.
Qed.

Lemma StronglySorted_rev {A} (R : A -> A -> Prop) (l : list A) :
  StronglySorted R l -> StronglySorted (fun a b => R b a) (rev l).
Proof.
  induction 1 as [|x xs Hs IH Hx]; cbn [rev].
  - constructor.
  - clear Hs. revert IH. generalize (rev xs) (in_rev xs).
    intros r Hr IH.
    assert (Hall : Forall (fun a => R x a) r).
    { rewrite Forall_forall in *. intros a Ha. apply Hx. now apply Hr. }
    clear Hr Hx. induction IH as [|y ys Hys IHys Hy]; cbn [app].
    + repeat constructor.
    + inversion Hall; subst. constructor.
      * now apply IHys.
      * apply Forall_app. split; [assumption|]. now repeat constructor.
Qed.

Lemma StronglySorted_strict {A} (R S : A -> A -> Prop) (l : list A) :
  (forall a b, In a l -> In b l -> a <> b -> R a b -> S a b) ->
  NoDup l -> StronglySorted R l -> StronglySorted S l.
Proof.
  intros HRS Hnd Hs. induction Hs as [|x xs Hs IH Hx].
  - constructor.
  - inversion Hnd as [|? ? Hnotin Hnd']; subst. constructor.
    + apply IH; [|assumption].
      intros a b Ha Hb. apply HRS; now right.
    + rewrite Forall_forall in *. intros b Hb.
      apply HRS; [now left|now right| |now apply Hx].
      intros ->. contradiction.
Qed.
Lemma sort_by_ext {A} (cmp cmp' : A -> A -> number) (l : list A) :
  (forall a b, cmp a b = cmp' a b) -> sort_by cmp l = sort_by cmp' l.
Proof.
  intros H. unfold sort_by. induction l as [|x xs IH]; cbn [fold_right].
  - reflexivity.
  - rewrite IH. generalize (fold_right (insert_by cmp') [] xs). intros l.
    induction l as [|y ys IHl]; cbn [insert_by]; [reflexivity|].
    rewrite H, IHl. reflexivity.
Qed.

Lemma Forall_filter_keep {A} (P : A -> Prop) (f : A -> bool) (l : list A) :
  Forall P l -> Forall P (filter f l).
Proof.
  intros H. rewrite Forall_forall in *. intros x Hx.
  apply filter_In in Hx. now apply H.
Qed.

(** ** The budgets view under a sort *)

Section SortedBudgets.

Variable localeCompare : string -> string -> number.
Variable numberToString : number -> string.

#[local] Abbreviation budgetsView :=
  (filteredBudgets localeCompare numberToString).
#[local] Abbreviation fieldCompare :=
  (compareFields localeCompare numberToString).

(** Sorting by a numeric column puts the view in ascending, respectively
    descending, order of that column, when its values are finite. *)
Theorem filteredBudgets_sorted_numeric (bs : list Budget)
    (search filterDept filterRegion filterCategory : string)
    (k : BudgetKey) (f : Budget -> number) :
  (forall b, budgetField k b = NumberValue (f b)) ->
  Forall (fun b => isFinite (f b) = true) bs ->
  StronglySorted (fun a b => (f a <=? f b)%js = true)
    (budgetsView bs search filterDept filterRegion filterCategory
       (mkSort (Some k) asc)) /\
  StronglySorted (fun a b => (f b <=? f a)%js = true)
    (budgetsView bs search filterDept filterRegion filterCategory
       (mkSort (Some k) desc)).
Proof.
  intros Hk Hfin. rewrite !filteredBudgets_sorted_form. cbn [sort_key sort_direction].
  set (data := filter _ bs).
  assert (Hdata : Forall (fun b => isFinite (f b) = true) data)
    by now apply Forall_filter_keep.
  split.
  - rewrite (@sort_by_ext _ _ (fun a b => (f a - f b)%js)).
    + now apply sort_up_ascending.
    + intros a b. now rewrite !Hk.
  - rewrite (@sort_by_ext _ _ (fun a b => (f b - f a)%js)).
    + now apply sort_down_descending.
    + intros a b. now rewrite !Hk.
Qed.

(** The two verdicts of [localeCompare] on a pair agree: one is positive
    exactly when the other is negative. *)
Hypothesis localeCompare_sign :
  forall a b, (Fin 0 <? localeCompare a b)%js = (localeCompare b a <? Fin 0)%js.

Lemma compareFields_antisym (dir : SortDirection) (av bv : FieldValue) :
  (fieldCompare dir av bv >? Fin 0)%js = true ->
  (fieldCompare dir bv av >? Fin 0)%js = false.
Proof.
  assert (Hstr : forall s t,
    (localeCompare s t
     * match dir with asc => Fin 1 | desc => Fin (-1) end >? Fin 0)%js = true ->
    (localeCompare t s
     * match dir with asc => Fin 1 | desc => Fin (-1) end >? Fin 0)%js = false).
  { intros s t. unfold gt. destruct dir.
    - rewrite !lt_mul_one, localeCompare_sign. intros H.
      destruct (Fin 0 <? localeCompare t s)%js eqn:E; [|reflexivity].
      exfalso. exact (@lt_number_asym _ _ E H).
    - rewrite !lt_mul_minus_one. intros H.
      destruct (localeCompare t s <? Fin 0)%js eqn:E; [|reflexivity].
      pose proof (localeCompare_sign t s) as S. rewrite H in S.
      exfalso. exact (@lt_number_asym _ _ S E). }
  destruct av as [a|s], bv as [b|t]; cbn [compareFields String_of];
    try apply Hstr.
  destruct dir; apply gt_sub_antisym.
Qed.

Lemma compareFields_same (dir : SortDirection) (av bv v : FieldValue) :
  strictEquals av v = true -> strictEquals bv v = true ->
  (fieldCompare dir av bv >? Fin 0)%js = false.
Proof.
  destruct av as [[| | |a]|s], bv as [[| | |b]|t], v as [[| | |c]|u];
    cbn [strictEquals]; try discriminate; intros Ha Hb;
    cbn [compareFields String_of].
  - destruct dir; reflexivity.
  - destruct dir; reflexivity.
  - apply Qeq_bool_iff in Ha, Hb.
    destruct dir; unfold gt; rewrite sub_Fin; cbn [lt].
    + destruct (Qlt_bool_reflect 0 (a - b)); [lra|reflexivity].
    + destruct (Qlt_bool_reflect 0 (b - a)); [lra|reflexivity].
  - apply String.eqb_eq in Ha, Hb. subst s t.
    pose proof (lt_both_false _ (localeCompare_sign u u)) as H0.
    unfold gt. destruct dir.
    + now rewrite lt_mul_one.
    + now rewrite lt_mul_minus_one, <- localeCompare_sign.
Qed.

End SortedBudgets.

(** ** Stability and idempotence of the sorted view

    Both are stated for a consistent comparator: a consistent
    [localeCompare] and finite numbers in the sorted column.  That is
    where [Array.prototype.sort] is determined (a stable sort by a total
    preorder), and [sort_by] is that sort. *)

(** For a consistent [localeCompare] and finite numbers in the sorted
    column, the sort of the view is stable: the budgets that carry one and
    the same value in the sorted column come in the order the store has
    them in. *)
Theorem filteredBudgets_stable (localeCompare : string -> string -> number)
    (numberToString : number -> string) (bs : list Budget)
    (search filterDept filterRegion filterCategory : string)
    (k : BudgetKey) (dir : SortDirection) (v : FieldValue) :
  consistentCompare localeCompare ->
  finiteColumn k bs ->
  filter (fun b => strictEquals (budgetField k b) v)
    (filteredBudgets localeCompare numberToString bs search filterDept
       filterRegion filterCategory (mkSort (Some k) dir))
  = filter (fun b => strictEquals (budgetField k b) v)
      (filteredBudgets localeCompare numberToString bs search filterDept
         filterRegion filterCategory (mkSort None dir)).
Proof.
  intros (_ & Hsign & _) _.
  rewrite !filteredBudgets_sorted_form. cbn [sort_key sort_direction].
  apply sort_by_stable. intros x y Hx Hy. unfold notAfter.
  exact (@compareFields_same localeCompare numberToString Hsign dir _ _ _
           Hx Hy).
Qed.

(** For a consistent [localeCompare] and finite numbers in the sorted
    column, running the view on its own result, with the same search,
    filters and sort, gives the same list again. *)
Theorem filteredBudgets_idempotent
    (localeCompare : string -> string -> number)
    (numberToString : number -> string) (bs : list Budget)
    (search filterDept filterRegion filterCategory : string)
    (cfg : SortConfig BudgetKey) :
  consistentCompare localeCompare ->
  finiteSortColumn cfg bs ->
  filteredBudgets localeCompare numberToString
    (filteredBudgets localeCompare numberToString bs search filterDept
       filterRegion filterCategory cfg)
    search filterDept filterRegion filterCategory cfg
  = filteredBudgets localeCompare numberToString bs search filterDept
      filterRegion filterCategory cfg.
Proof.
  intros (_ & Hsign & _) _.
  rewrite (filteredBudgets_sorted_form localeCompare numberToString
             (filteredBudgets localeCompare numberToString bs search
                filterDept filterRegion filterCategory cfg)).
  assert (Hall : filter (keepsBudget search filterDept filterRegion
                           filterCategory)
                   (filteredBudgets localeCompare numberToString bs search
                      filterDept filterRegion filterCategory cfg)
                 = filteredBudgets localeCompare numberToString bs search
                     filterDept filterRegion filterCategory cfg).
  { apply filter_all. intros b Hb.
    rewrite (filteredBudgets_sorted_form localeCompare numberToString) in Hb.
    assert (Hin : In b (filter (keepsBudget search filterDept filterRegion
                                  filterCategory) bs)).
    { destruct (sort_key cfg); [|exact Hb].
      eapply Permutation_in; [apply sort_by_Permutation|exact Hb]. }
    apply filter_In in Hin. apply Hin. }
  rewrite Hall. destruct (sort_key cfg) as [k|] eqn:Ek; [|reflexivity].
  rewrite (filteredBudgets_sorted_form localeCompare numberToString), Ek.
  apply sort_by_idempotent.
  intros x y.
  apply (@compareFields_antisym localeCompare numberToString Hsign).
Qed.

Lemma BudgetKey_eqb_refl (k : BudgetKey) : BudgetKey_eqb k k = true.
Proof. now destruct k. Qed.

Lemma BudgetKey_eqb_eq (a b : BudgetKey) : BudgetKey_eqb a b = true <-> a = b.
Proof. destruct a, b; cbn; split; congruence. Qed.

Lemma le_not_le_lt (x y : number) :
  isFinite x = true -> isFinite y = true ->
  (y <=? x)%js = true -> (x <=? y)%js <> true -> (y <? x)%js = true.
Proof.
  destruct x as [| | |a], y as [| | |b]; try discriminate. intros _ _.
  rewrite !le_Fin, lt_Fin. intros H1 H2.
  destruct (Qlt_le_dec b a); [assumption|contradiction].
Qed.

Section SecondClick.

Variable localeCompare : string -> string -> number.
Variable numberToString : number -> string.

(** Clicking the header of the column the view is sorted by, ascending,
    flips the direction, and a further click flips it back.  On a numeric
    column whose values are finite and differ from budget to budget, the
    first of these clicks shows the same rows in exactly the reverse
    order. *)
Theorem second_click_reverses_budgets (bs : list Budget)
    (search filterDept filterRegion filterCategory : string)
    (k : BudgetKey) (f : Budget -> number) :
  (forall b, budgetField k b = NumberValue (f b)) ->
  Forall (fun b => isFinite (f b) = true) bs ->
  NoDup bs ->
  (forall a b, In a bs -> In b bs ->
               (f a <=? f b)%js = true -> (f b <=? f a)%js = true -> a = b) ->
  handleSortBudgets k (mkSort (Some k) asc) = mkSort (Some k) desc /\
  handleSortBudgets k (mkSort (Some k) desc) = mkSort (Some k) asc /\
  filteredBudgets localeCompare numberToString bs search filterDept
    filterRegion filterCategory (handleSortBudgets k (mkSort (Some k) asc))
  = rev (filteredBudgets localeCompare numberToString bs search filterDept
           filterRegion filterCategory (mkSort (Some k) asc)).
Proof.
  intros Hk Hfin Hnd Hinj.
  assert (Hclick : forall d,
             handleSortBudgets k (mkSort (Some k) d)
             = mkSort (Some k) (match d with asc => desc | desc => asc end)).
  { intros d. unfold handleSortBudgets, handleSort. cbn [sort_key sort_direction].
    now rewrite BudgetKey_eqb_refl. }
  split; [apply Hclick|]. split; [apply Hclick|].
  rewrite Hclick, !filteredBudgets_sorted_form. cbn [sort_key sort_direction].
  set (data := filter _ bs).
  assert (Hsub : forall b, In b data -> In b bs)
    by (intros b Hb; apply filter_In in Hb; apply Hb).
  assert (Hdata : Forall (fun b => isFinite (f b) = true) data)
    by now apply Forall_filter_keep.
  assert (Hnd' : NoDup data) by now apply NoDup_filter.
  rewrite (@sort_by_ext _ _ (fun a b => (f b - f a)%js))
    by (intros a b; now rewrite !Hk).
  rewrite (@sort_by_ext _ (fun a b => compareFields _ _ asc _ _)
             (fun a b => (f a - f b)%js))
    by (intros a b; now rewrite !Hk).
  set (up := sort_by (fun a b => (f a - f b)%js) data).
  set (down := sort_by (fun a b => (f b - f a)%js) data).
  assert (Pup : Permutation up data) by apply sort_by_Permutation.
  assert (Pdown : Permutation down data) by apply sort_by_Permutation.
  assert (Hstrict : forall l, Permutation l data ->
             StronglySorted (fun a b => (f b <=? f a)%js = true) l ->
             StronglySorted (fun a b => (f b <? f a)%js = true) l).
  { intros l Pl. apply StronglySorted_strict.
    - intros a b Ha Hb Hab Hle.
      assert (Ia : In a bs) by (apply Hsub; eapply Permutation_in; eauto).
      assert (Ib : In b bs) by (apply Hsub; eapply Permutation_in; eauto).
      rewrite Forall_forall in Hfin.
      apply le_not_le_lt; auto.
    - eapply Permutation_NoDup; [apply Permutation_sym; exact Pl|assumption]. }
  apply StronglySorted_unique
    with (R := fun a b => (f b <? f a)%js = true).
  - intros a b H1 H2. exact (@lt_number_asym _ _ H1 H2).
  - apply Hstrict; [assumption|]. now apply sort_down_descending.
  - apply Hstrict.
    + eapply perm_trans; [apply Permutation_sym, Permutation_rev|assumption].
    + apply (@StronglySorted_rev _ (fun a b => (f a <=? f b)%js = true)).
      now apply sort_up_ascending.
  - eapply perm_trans; [exact Pdown|].
    eapply perm_trans; [apply Permutation_sym; exact Pup|].
    apply Permutation_rev.
Qed.

End SecondClick.

(** ** The order by code units as a [localeCompare] *)

Lemma codeUnitCompare_sign (a b : string) :
  (Fin 0 <? codeUnitCompare a b)%js = (codeUnitCompare b a <? Fin 0)%js.
Proof.
  unfold codeUnitCompare, defaultCompare.
  rewrite (String.compare_antisym b a).
  destruct (String.compare a b); reflexivity.
Qed.
(** ** Sets of strings and the filter options *)

Lemma Set_has_false (ids : list string) (id : string) :
  Set_has ids id = false <-> ~ In id ids.
Proof.
  rewrite <- Set_has_In. destruct (Set_has ids id); intuition congruence.
Qed.

Lemma Set_add_In (s : list string) (x y : string) :
  In y (Set_add s x) <-> y = x \/ In y s.
Proof.
  unfold Set_add. destruct (Set_has s x) eqn:E.
  - apply Set_has_In in E. intuition congruence.
  - rewrite in_app_iff. simpl. intuition congruence.
Qed.

Lemma Set_add_NoDup (s : list string) (x : string) :
  NoDup s -> NoDup (Set_add s x).
Proof.
  intros Hnd. unfold Set_add. destruct (Set_has s x) eqn:E; [assumption|].
  apply Set_has_false in E.
  apply NoDup_app; [assumption|repeat constructor; intros []|].
  intros y Hy [<-|[]]. contradiction.
Qed.

Lemma Set_delete_In (s : list string) (x y : string) :
  In y (Set_delete s x) <-> y <> x /\ In y s.
Proof.
  unfold Set_delete. rewrite filter_In, negb_true_iff, String.eqb_neq. tauto.
Qed.

Lemma Set_delete_absent (s : list string) (x : string) :
  ~ In x s -> Set_delete s x = s.
Proof.
  intros H. unfold Set_delete. apply filter_all. intros y Hy.
  apply negb_true_iff, String.eqb_neq. intros ->. contradiction.
Qed.

Lemma Set_from_spec (xs : list string) :
  NoDup (Set_from xs) /\ (forall y, In y (Set_from xs) <-> In y xs).
Proof.
  unfold Set_from.
  assert (H : forall acc, NoDup acc ->
            NoDup (fold_left Set_add xs acc) /\
            (forall y, In y (fold_left Set_add xs acc) <-> In y acc \/ In y xs)).
  { induction xs as [|x xs IH]; intros acc Hacc; cbn [fold_left].
    - split; [assumption|]. simpl. tauto.
    - destruct (IH (Set_add acc x) (Set_add_NoDup x Hacc)) as [Hnd Hin].
      split; [assumption|]. intros y. rewrite Hin, Set_add_In. simpl.
      intuition congruence. }
  destruct (H [] (NoDup_nil _)) as [Hnd Hin]. split; [assumption|].
  intros y. rewrite Hin. simpl. tauto.
Qed.

Lemma defaultCompare_antisym (x y : string) :
  (defaultCompare x y >? Fin 0)%js = true -> notAfter defaultCompare y x.
Proof.
  unfold notAfter, defaultCompare, gt.
  rewrite (String.compare_antisym y x).
  destruct (String.compare x y); cbn; congruence.
Qed.

Lemma notAfter_defaultCompare (x y : string) :
  notAfter defaultCompare x y -> x <> y -> String.compare x y = Lt.
Proof.
  unfold notAfter, defaultCompare, gt. intros H Hne.
  destruct (String.compare x y) eqn:E.
  - apply String.compare_eq_iff in E. contradiction.
  - reflexivity.
  - discriminate.
Qed.

Lemma compare_Lt_trans (x y z : string) :
  String.compare x y = Lt -> String.compare y z = Lt ->
  String.compare x z = Lt.
Proof.
  intros H1 H2. apply String_as_OT.cmp_lt.
  eapply String_as_OT.lt_trans; apply String_as_OT.cmp_lt; eassumption.
Qed.

Lemma Sorted_codeUnits (l : list string) :
  Sorted (notAfter defaultCompare) l -> NoDup l ->
  Sorted (fun a b => String.compare a b = Lt) l.
Proof.
  induction 1 as [|x xs Hs IH Hhd]; intros Hnd.
  - constructor.
  - inversion Hnd as [|? ? Hnotin Hnd']; subst.
    constructor; [now apply IH|].
    destruct Hhd as [|y ys Hxy]; constructor.
    apply notAfter_defaultCompare; [assumption|].
    intros ->. apply Hnotin. now left.
Qed.

(** The options of a filter: "All" first, then every value that occurs,
    once each, in ascending order. *)
Lemma options_spec (values : list string) :
  exists rest,
    options values = "All" :: rest /\
    (forall v, In v rest <-> In v values) /\
    NoDup rest /\
    StronglySorted (fun a b => String.compare a b = Lt) rest.
Proof.
  unfold options. eexists. split; [reflexivity|].
  destruct (Set_from_spec values) as [Hnd Hin].
  pose proof (sort_by_Permutation defaultCompare (Set_from values)) as Hperm.
  assert (Hnd' : NoDup (sort_by defaultCompare (Set_from values))).
  { eapply Permutation_NoDup; [apply Permutation_sym; exact Hperm|assumption]. }
  split; [|split; [assumption|]].
  - intros v. rewrite <- Hin. split; apply Permutation_in;
      [assumption|now apply Permutation_sym].
  - apply Sorted_StronglySorted.
    + intros a b c. apply compare_Lt_trans.
    + apply Sorted_codeUnits; [|assumption].
      apply sort_by_Sorted. exact defaultCompare_antisym.
Qed.

(** The department, region and category options: "All", then exactly the
    values carried by the records (budgets; for regions, budgets and
    projects), once each, in ascending order. *)
Theorem filter_options_exact (bs : list Budget) (ps : list Project) :
  (exists rest,
      departments bs = "All" :: rest /\
      (forall d, In d rest <-> exists b, In b bs /\ b_department b = d) /\
      NoDup rest /\
      StronglySorted (fun a b => String.compare a b = Lt) rest) /\
  (exists rest,
      regions bs ps = "All" :: rest /\
      (forall r, In r rest <->
                 (exists b, In b bs /\ b_region b = r) \/
                 (exists p, In p ps /\ p_region p = r)) /\
      NoDup rest /\
      StronglySorted (fun a b => String.compare a b = Lt) rest) /\
  (exists rest,
      categories bs = "All" :: rest /\
      (forall c, In c rest <-> exists b, In b bs /\ b_category b = c) /\
      NoDup rest /\
      StronglySorted (fun a b => String.compare a b = Lt) rest).
Proof.
  split; [|split].
  - destruct (options_spec (map b_department bs)) as (rest & E & Hin & Hnd & Hs).
    exists rest. repeat split; try assumption.
    + intros H. apply Hin, in_map_iff in H. destruct H as (b & <- & Hb). eauto.
    + intros (b & Hb & <-). apply Hin. now apply in_map.
  - destruct (options_spec (map b_region bs ++ map p_region ps))
      as (rest & E & Hin & Hnd & Hs).
    exists rest. repeat split; try assumption.
    + intros H. apply Hin, in_app_iff in H.
      destruct H as [H|H]; apply in_map_iff in H;
        destruct H as (x & <- & Hx); eauto.
    + intros [(b & Hb & <-)|(p & Hp & <-)]; apply Hin, in_app_iff;
        [left|right]; now apply in_map.
  - destruct (options_spec (map b_category bs)) as (rest & E & Hin & Hnd & Hs).
    exists rest. repeat split; try assumption.
    + intros H. apply Hin, in_map_iff in H. destruct H as (b & <- & Hb). eauto.
    + intros (b & Hb & <-). apply Hin. now apply in_map.
Qed.

Section FilterOptions.

Variable localeCompare : string -> string -> number.
Variable numberToString : number -> string.

(** Picking a department that the options offer, other than "All", with
    no search and no other filter, never gives an empty budgets view, and
    the view holds exactly the budgets of that department. *)
Theorem offered_department_has_budgets (bs : list Budget) (d : string)
    (cfg : SortConfig BudgetKey) :
  In d (departments bs) -> d <> "All" ->
  let out := filteredBudgets localeCompare numberToString bs EmptyString d
               "All" "All" cfg in
  out <> [] /\
  (forall b, In b out <-> In b bs /\ b_department b = d).
Proof.
  intros Hd Hne. cbv zeta.
  assert (Hiff : forall b,
             In b (filteredBudgets localeCompare numberToString bs
                     EmptyString d "All" "All" cfg)
             <-> In b bs /\ b_department b = d).
  { intros b.
    rewrite (filteredBudgets_sorted_form localeCompare numberToString).
    assert (Hk : keepsBudget EmptyString d "All" "All" b = true
                 <-> b_department b = d).
    { rewrite keepsBudget_spec. split.
      - intros (_ & [H|H] & _); [contradiction|exact H].
      - intros H. split; [now left|]. split; [now right|].
        split; now left. }
    split.
    - intros Hin.
      assert (Hin' : In b (filter (keepsBudget EmptyString d "All" "All") bs)).
      { destruct (sort_key cfg); [|exact Hin].
        eapply Permutation_in; [apply sort_by_Permutation|exact Hin]. }
      apply filter_In in Hin'. now rewrite Hk in Hin'.
    - intros [Hin Hdep].
      assert (Hin' : In b (filter (keepsBudget EmptyString d "All" "All") bs))
        by (apply filter_In; now rewrite Hk).
      destruct (sort_key cfg); [|exact Hin'].
      eapply Permutation_in;
        [apply Permutation_sym, sort_by_Permutation|exact Hin']. }
  split; [|exact Hiff].
  destruct (options_spec (map b_department bs)) as (rest & E & Hin & _).
  unfold departments in Hd. rewrite E in Hd.
  destruct Hd as [Hd|Hd]; [congruence|].
  apply Hin, in_map_iff in Hd. destruct Hd as (b & Hb & Hbs).
  intros Hempty.
  assert (Hbin : In b (filteredBudgets localeCompare numberToString bs
                         EmptyString d "All" "All" cfg))
    by (apply Hiff; auto).
  rewrite Hempty in Hbin. contradiction.
Qed.

End FilterOptions.

(** ** The seeded budgets as an example for the sorted views *)

Lemma initialBudgets_spent_finite (now : string) :
  Forall (fun b => isFinite (b_spent b) = true) (initialBudgets now).
Proof. repeat constructor. Qed.

Lemma initialBudgets_NoDup (now : string) : NoDup (initialBudgets now).
Proof.
  apply (NoDup_map_inv b_id).
  repeat constructor; cbn; intros H;
    repeat (destruct H as [H|H]; [discriminate H|]); exact H.
Qed.

Lemma initialBudgets_spent_distinct (now : string) (a b : Budget) :
  In a (initialBudgets now) -> In b (initialBudgets now) ->
  (b_spent a <=? b_spent b)%js = true ->
  (b_spent b <=? b_spent a)%js = true -> a = b.
Proof.
  intros Ha Hb.
  cbn in Ha, Hb.
  repeat (destruct Ha as [<-|Ha]; [|]); try contradiction;
    repeat (destruct Hb as [<-|Hb]; [|]); try contradiction;
    intros H1 H2; try reflexivity;
    (vm_compute in H1; discriminate H1) || (vm_compute in H2; discriminate H2).
Qed.

Lemma filteredBudgets_sorted_numeric_witness :
  (forall b, budgetField Bk_spent b = NumberValue (b_spent b)) /\
  StronglySorted (fun a b => (b_spent a <=? b_spent b)%js = true)
    (filteredBudgets codeUnitCompare noDigits (initialBudgets "t0")
       EmptyString "All" "National" "All" (mkSort (Some Bk_spent) asc)) /\
  StronglySorted (fun a b => (b_spent b <=? b_spent a)%js = true)
    (filteredBudgets codeUnitCompare noDigits (initialBudgets "t0")
       EmptyString "All" "National" "All" (mkSort (Some Bk_spent) desc)).
Proof.
  split; [reflexivity|].
  exact (@filteredBudgets_sorted_numeric codeUnitCompare noDigits
           (initialBudgets "t0") EmptyString "All" "National" "All"
           Bk_spent b_spent (fun b => eq_refl)
           (initialBudgets_spent_finite "t0")).
Defined.

Lemma codeUnitCompare_consistent : consistentCompare codeUnitCompare.
Proof.
  split; [|split].
  - intros a b. unfold codeUnitCompare, defaultCompare.
    now destruct (String.compare a b).
  - exact codeUnitCompare_sign.
  - intros a b c. unfold codeUnitCompare, defaultCompare.
    destruct (String.compare a b) eqn:Eab; try discriminate;
      destruct (String.compare b c) eqn:Ebc; try discriminate; intros _ _.
    + apply String.compare_eq_iff in Eab, Ebc. subst.
      pose proof (String.compare_antisym c c) as H.
      destruct (String.compare c c); try discriminate H; reflexivity.
    + apply String.compare_eq_iff in Eab. subst. now rewrite Ebc.
    + apply String.compare_eq_iff in Ebc. subst. now rewrite Eab.
    + now rewrite (compare_Lt_trans _ _ _ Eab Ebc).
Qed.

Lemma initialBudgets_finiteColumn (now : string) (k : BudgetKey) :
  finiteColumn k (initialBudgets now).
Proof. destruct k; repeat constructor. Qed.

Lemma filteredBudgets_stable_witness :
  consistentCompare codeUnitCompare /\
  finiteColumn Bk_category (initialBudgets "t0") /\
  filter (fun b => strictEquals (budgetField Bk_category b)
                     (StringValue "Infrastructure"))
    (filteredBudgets codeUnitCompare noDigits (initialBudgets "t0")
       EmptyString "All" "All" "All" (mkSort (Some Bk_category) desc))
  = filter (fun b => strictEquals (budgetField Bk_category b)
                       (StringValue "Infrastructure"))
      (filteredBudgets codeUnitCompare noDigits (initialBudgets "t0")
         EmptyString "All" "All" "All" (mkSort None desc)).
Proof.
  split; [exact codeUnitCompare_consistent|].
  split; [exact (initialBudgets_finiteColumn "t0" Bk_category)|].
  exact (@filteredBudgets_stable codeUnitCompare noDigits
           (initialBudgets "t0") EmptyString "All" "All" "All" Bk_category
           desc (StringValue "Infrastructure") codeUnitCompare_consistent
           (initialBudgets_finiteColumn "t0" Bk_category)).
Defined.

Lemma filteredBudgets_idempotent_witness :
  consistentCompare codeUnitCompare /\
  finiteSortColumn (mkSort (Some Bk_department) asc) (initialBudgets "t0") /\
  let view := fun bs =>
    filteredBudgets codeUnitCompare noDigits bs "ic" "All" "National" "All"
      (mkSort (Some Bk_department) asc) in
  view (view (initialBudgets "t0")) = view (initialBudgets "t0").
Proof.
  split; [exact codeUnitCompare_consistent|].
  split; [exact (initialBudgets_finiteColumn "t0" Bk_department)|].
  exact (@filteredBudgets_idempotent codeUnitCompare noDigits
           (initialBudgets "t0") "ic" "All" "National" "All"
           (mkSort (Some Bk_department) asc) codeUnitCompare_consistent
           (initialBudgets_finiteColumn "t0" Bk_department)).
Defined.

Lemma second_click_reverses_budgets_witness :
  handleSortBudgets Bk_spent (mkSort (Some Bk_spent) asc)
  = mkSort (Some Bk_spent) desc /\
  handleSortBudgets Bk_spent (mkSort (Some Bk_spent) desc)
  = mkSort (Some Bk_spent) asc /\
  filteredBudgets codeUnitCompare noDigits (initialBudgets "t0") EmptyString
    "All" "All" "All"
    (handleSortBudgets Bk_spent (mkSort (Some Bk_spent) asc))
  = rev (filteredBudgets codeUnitCompare noDigits (initialBudgets "t0")
           EmptyString "All" "All" "All" (mkSort (Some Bk_spent) asc)).
Proof.
  exact (@second_click_reverses_budgets codeUnitCompare noDigits
           (initialBudgets "t0") EmptyString "All" "All" "All" Bk_spent
           b_spent (fun b => eq_refl) (initialBudgets_spent_finite "t0")
           (initialBudgets_NoDup "t0")
           (fun a b => @initialBudgets_spent_distinct "t0" a b)).
Defined.

Lemma offered_department_has_budgets_witness :
  In "Health" (departments (initialBudgets "t0")) /\
  "Health" <> "All" /\
  let out := filteredBudgets codeUnitCompare noDigits (initialBudgets "t0")
               EmptyString "Health" "All" "All" (mkSort None asc) in
  out <> [] /\
  (forall b, In b out <-> In b (initialBudgets "t0") /\ b_department b = "Health").
Proof.
  assert (Hin : In "Health" (departments (initialBudgets "t0")))
    by (vm_compute; tauto).
  assert (Hne : "Health" <> "All") by discriminate.
  split; [exact Hin|]. split; [exact Hne|].
  exact (@offered_department_has_budgets codeUnitCompare noDigits
           (initialBudgets "t0") "Health" (mkSort None asc) Hin Hne).
Defined.

(* ===================================================================== *)
(** ** Comparison set, watchlist and comparison panel *)
(* ===================================================================== *)

Lemma Set_has_add (s : list string) (x y : string) :
  Set_has (Set_add s x) y = String.eqb y x || Set_has s y.
Proof.
  apply eq_true_iff_eq.
  rewrite orb_true_iff, !Set_has_In, Set_add_In, String.eqb_eq. tauto.
Qed.

Lemma Set_has_delete (s : list string) (x y : string) :
  Set_has (Set_delete s x) y = negb (String.eqb y x) && Set_has s y.
Proof.
  apply eq_true_iff_eq.
  rewrite andb_true_iff, negb_true_iff, !Set_has_In, Set_delete_In,
    String.eqb_neq.
  tauto.
Qed.

Lemma Set_delete_NoDup (s : list string) (x : string) :
  NoDup s -> NoDup (Set_delete s x).
Proof. intros H. unfold Set_delete. now apply NoDup_filter. Qed.

Lemma Set_delete_length (s : list string) (x : string) :
  NoDup s -> In x s -> S (List.length (Set_delete s x)) = List.length s.
Proof.
  unfold Set_delete. induction s as [|y ys IH]; intros Hnd Hin.
  - destruct Hin.
  - inversion Hnd as [|? ? Hy Hys]; subst. cbn [filter].
    destruct (String.eqb y x) eqn:E; cbn [negb List.length].
    + apply String.eqb_eq in E. subst y. f_equal.
      fold (Set_delete ys x). now rewrite Set_delete_absent.
    + f_equal. apply IH; [assumption|].
      destruct Hin as [->|Hin]; [|assumption].
      now rewrite String.eqb_refl in E.
Qed.

Lemma toggle_flips (id : string) (prev : list string) :
  NoDup prev ->
  let n := addOrRemoveCompare id prev in
  NoDup n /\
  Set_has n id = negb (Set_has prev id) /\
  (forall x, x <> id -> Set_has n x = Set_has prev x) /\
  List.length n = (if Set_has prev id then pred (List.length prev)
              else S (List.length prev)).
Proof.
  intros Hnd. cbv zeta. unfold addOrRemoveCompare.
  destruct (Set_has prev id) eqn:E.
  - split; [now apply Set_delete_NoDup|].
    split; [now rewrite Set_has_delete, String.eqb_refl|].
    split.
    + intros x Hx. rewrite Set_has_delete.
      apply String.eqb_neq in Hx. now rewrite Hx.
    + apply Set_has_In in E.
      now rewrite <- (@Set_delete_length prev id Hnd E).
  - split; [now apply Set_add_NoDup|].
    split; [now rewrite Set_has_add, String.eqb_refl|].
    split.
    + intros x Hx. rewrite Set_has_add.
      apply String.eqb_neq in Hx. now rewrite Hx.
    + unfold Set_add. rewrite E, length_app. cbn. lia.
Qed.

(** One click on a compare box, or on a watch star, flips the membership
    of that one identifier, leaves every other identifier as it was,
    keeps the set free of duplicates and changes its size by exactly
    one. *)
Theorem toggle_flips_one_membership (id : string) (prev : list string) :
  NoDup prev ->
  (let n := addOrRemoveCompare id prev in
   NoDup n /\
   Set_has n id = negb (Set_has prev id) /\
   (forall x, x <> id -> Set_has n x = Set_has prev x) /\
   List.length n = (if Set_has prev id then pred (List.length prev)
               else S (List.length prev))) /\
  (let n := toggleWatch id prev in
   NoDup n /\
   Set_has n id = negb (Set_has prev id) /\
   (forall x, x <> id -> Set_has n x = Set_has prev x) /\
   List.length n = (if Set_has prev id then pred (List.length prev)
               else S (List.length prev))).
Proof.
  intros Hnd. split; exact (@toggle_flips id prev Hnd).
Qed.

(** Two clicks on the same compare box bring back the same members, but
    not always the same order: an identifier that was in the set ends up
    last, where the panel lists it last; one that was not in the set
    leaves the set exactly as it was. *)
Theorem toggle_twice_moves_to_end (id : string) (prev : list string) :
  addOrRemoveCompare id (addOrRemoveCompare id prev)
  = (if Set_has prev id then (Set_delete prev id ++ [id])%list else prev) /\
  (forall x, Set_has (addOrRemoveCompare id (addOrRemoveCompare id prev)) x
             = Set_has prev x).
Proof.
  assert (E1 : addOrRemoveCompare id (addOrRemoveCompare id prev)
               = (if Set_has prev id then (Set_delete prev id ++ [id])%list
                  else prev)).
  { unfold addOrRemoveCompare at 2. destruct (Set_has prev id) eqn:E.
    - unfold addOrRemoveCompare.
      rewrite Set_has_delete, String.eqb_refl. cbn [negb andb].
      unfold Set_add. now rewrite Set_has_delete, String.eqb_refl.
    - unfold addOrRemoveCompare.
      rewrite Set_has_add, String.eqb_refl. cbn [orb].
      unfold Set_add. rewrite E. unfold Set_delete.
      rewrite filter_app. cbn [filter]. rewrite String.eqb_refl.
      cbn [negb]. rewrite app_nil_r.
      apply filter_all. intros y Hy.
      apply negb_true_iff, String.eqb_neq. intros ->.
      apply Set_has_In in Hy. congruence. }
  split; [exact E1|].
  intros x. rewrite E1. destruct (Set_has prev id) eqn:E; [|reflexivity].
  apply eq_true_iff_eq.
  rewrite !Set_has_In, in_app_iff, Set_delete_In. cbn [In].
  apply Set_has_In in E.
  destruct (string_dec x id) as [->|Hx]; intuition congruence.
Qed.

(** ** The comparison panel *)

Lemma budgetMatches_shape (id : string) (b : Budget) :
  budgetIdShape b -> budgetMatches id b = String.eqb (b_id b) id.
Proof.
  intros (t & E). unfold budgetMatches. rewrite E. cbn [slice1 append].
  apply orb_diag.
Qed.

Lemma find_ext_Forall {A} (P : A -> Prop) (f g : A -> bool) (l : list A) :
  Forall P l -> (forall x, P x -> f x = g x) -> find f l = find g l.
Proof.
  intros HP Hfg. induction HP as [|x xs Hx _ IH]; [reflexivity|].
  cbn [find]. rewrite (Hfg x Hx), IH. reflexivity.
Qed.

Lemma find_existsb {A} (f : A -> bool) (l : list A) :
  existsb f l = match find f l with Some _ => true | None => false end.
Proof.
  induction l as [|x xs IH]; [reflexivity|].
  cbn [existsb find]. destruct (f x); [reflexivity|exact IH].
Qed.

Lemma resolveCompare_spec (bs : list Budget) (ps : list Project) (id : string) :
  Forall budgetIdShape bs ->
  match resolveCompare bs ps id with
  | Some x => itemId x = id /\ inStore bs ps id = true /\
              match x with inl b => In b bs | inr p => In p ps end
  | None => inStore bs ps id = false
  end.
Proof.
  intros Hshape. unfold resolveCompare, inStore.
  rewrite (find_ext_Forall (budgetMatches id)
             (fun b => String.eqb (b_id b) id) Hshape)
    by (intros b Hb; now apply budgetMatches_shape).
  rewrite !find_existsb.
  destruct (find (fun b => String.eqb (b_id b) id) bs) as [b|] eqn:Eb.
  - apply find_some in Eb. destruct Eb as [Hin Heq].
    apply String.eqb_eq in Heq. cbn. tauto.
  - destruct (find (fun p => String.eqb (p_id p) id) ps) as [p|] eqn:Ep.
    + apply find_some in Ep. destruct Ep as [Hin Heq].
      apply String.eqb_eq in Heq. cbn. tauto.
    + reflexivity.
Qed.

(** When the budget identifiers are written with a leading "b", the
    panel lists, in the order the identifiers were added, one record for
    each identifier that some budget or project carries, that record
    carrying the identifier and coming from the store; an identifier
    that nothing carries is left out, so the panel may hold fewer entries
    than the set's size announces. *)
Theorem compareItems_resolved_by_id (compareSet : list string)
    (bs : list Budget) (ps : list Project) :
  Forall budgetIdShape bs ->
  let items := compareItems compareSet bs ps in
  map itemId items = filter (inStore bs ps) compareSet /\
  (forall x, In x items ->
             match x with inl b => In b bs | inr p => In p ps end) /\
  (List.length items <= List.length compareSet)%nat /\
  (List.length items = List.length compareSet <->
   Forall (fun id => inStore bs ps id = true) compareSet).
Proof.
  intros Hshape. cbv zeta. unfold compareItems.
  induction compareSet as [|id ids IH].
  - cbn. repeat split; auto. intros x [].
  - destruct IH as (IHm & IHin & IHle & IHeq).
    pose proof (resolveCompare_spec ps id Hshape) as Hr.
    cbn [map filterBoolean filter List.length].
    destruct (resolveCompare bs ps id) as [x|].
    + destruct Hr as (Hid & Hst & Hx). rewrite Hst.
      cbn [map List.length]. split; [now rewrite Hid, IHm|].
      split; [intros y [<-|Hy]; [exact Hx|now apply IHin]|].
      split; [lia|].
      split.
      * intros H. constructor; [exact Hst|]. apply IHeq. lia.
      * intros H. inversion H; subst. f_equal. now apply IHeq.
    + rewrite Hr. split; [exact IHm|]. split; [exact IHin|].
      split; [lia|]. split.
      * intros H. lia.
      * intros H. inversion H; subst. congruence.
Qed.

Lemma initialBudgets_idShape (now : string) :
  Forall budgetIdShape (initialBudgets now).
Proof. repeat constructor; eexists; reflexivity. Qed.

Lemma toggle_flips_one_membership_witness :
  NoDup ["b1"; "p2"] /\
  (let n := addOrRemoveCompare "p2" ["b1"; "p2"] in
   NoDup n /\
   Set_has n "p2" = negb (Set_has ["b1"; "p2"] "p2") /\
   (forall x, x <> "p2" -> Set_has n x = Set_has ["b1"; "p2"] x) /\
   List.length n = (if Set_has ["b1"; "p2"] "p2"
                    then pred (List.length ["b1"; "p2"])
                    else S (List.length ["b1"; "p2"]))) /\
  (let n := toggleWatch "p2" ["b1"; "p2"] in
   NoDup n /\
   Set_has n "p2" = negb (Set_has ["b1"; "p2"] "p2") /\
   (forall x, x <> "p2" -> Set_has n x = Set_has ["b1"; "p2"] x) /\
   List.length n = (if Set_has ["b1"; "p2"] "p2"
                    then pred (List.length ["b1"; "p2"])
                    else S (List.length ["b1"; "p2"]))).
Proof.
  assert (Hnd : NoDup ["b1"; "p2"]).
  { repeat constructor; cbn; intros H;
      repeat (destruct H as [H|H]; [discriminate H|]); exact H. }
  split; [exact Hnd|].
  exact (@toggle_flips_one_membership "p2" ["b1"; "p2"] Hnd).
Defined.

Lemma compareItems_resolved_by_id_witness :
  Forall budgetIdShape (initialBudgets "t0") /\
  let items := compareItems ["b3"; "gone"; "p2"] (initialBudgets "t0")
                 (initialProjects "t0") in
  map itemId items
  = filter (inStore (initialBudgets "t0") (initialProjects "t0"))
      ["b3"; "gone"; "p2"] /\
  (forall x, In x items ->
             match x with
             | inl b => In b (initialBudgets "t0")
             | inr p => In p (initialProjects "t0")
             end) /\
  (List.length items <= List.length ["b3"; "gone"; "p2"])%nat /\
  (List.length items = List.length ["b3"; "gone"; "p2"] <->
   Forall (fun id => inStore (initialBudgets "t0") (initialProjects "t0") id
                     = true) ["b3"; "gone"; "p2"]).
Proof.
  split; [exact (initialBudgets_idShape "t0")|].
  exact (@compareItems_resolved_by_id ["b3"; "gone"; "p2"]
           (initialBudgets "t0") (initialProjects "t0")
           (initialBudgets_idShape "t0")).
Defined.

(* ===================================================================== *)
(** ** Report workflow: what the handlers do to the stored reports *)
(* ===================================================================== *)

Lemma truthy_opt_filled (o : option string) :
  truthy_opt o = true <-> filled o.
Proof.
  unfold filled. destruct o as [v|]; cbn.
  - split.
    + intros H. exists v. split; [reflexivity|].
      intros ->. discriminate H.
    + intros (w & [= <-] & Hne). destruct v; [contradiction|reflexivity].
  - split; [discriminate|]. intros (w & H & _). discriminate H.
Qed.

Lemma handleReportEvent_reports (s : ReportPage) (e : ReportEvent) :
  match e with
  | ConfirmSubmit now_ms now_iso =>
      exists r, page_reports (handleReportEvent s e) = r :: page_reports s /\
                r_status r = Submitted /\ r_type r <> EmptyString /\
                r_id r = reportId now_ms /\ createdAt r = now_iso
  | _ => page_reports (handleReportEvent s e) = page_reports s
  end.
Proof.
  destruct e; cbn [handleReportEvent]; try reflexivity.
  - unfold submitReport. now destruct (_ || _).
  - eexists. split; [reflexivity|]. cbn. repeat split.
    unfold draftTypeOrDefault.
    destruct (d_type (reportDraft s)) as [t|]; [|discriminate].
    destruct t; cbn; discriminate.
Qed.

(** Whatever the user does with the form and the two dialogs, in any
    order, no stored report is ever removed, changed or moved: the list
    only grows at its front, by exactly one report for each confirmation,
    and each of these has the status Submitted and a non-empty type. *)
Theorem reports_grow_only_by_confirmation (s : ReportPage)
    (es : list ReportEvent) :
  exists added,
    page_reports (handleReportEvents s es) = (added ++ page_reports s)%list /\
    List.length added = List.length (filter isConfirm es) /\
    Forall (fun r => r_status r = Submitted /\ r_type r <> EmptyString) added.
Proof.
  unfold handleReportEvents. revert s.
  induction es as [|e es IH]; intros s; cbn [fold_left].
  - exists []. repeat split. constructor.
  - destruct (IH (handleReportEvent s e)) as (added & E & Hlen & Hall).
    pose proof (handleReportEvent_reports s e) as He.
    destruct e; cbn [filter isConfirm];
      try (exists added; rewrite E, He; repeat split; assumption).
    destruct He as (r & Er & Hst & Hty & _).
    exists (added ++ [r])%list. rewrite E, Er, <- app_assoc. cbn [app].
    split; [reflexivity|]. split.
    + rewrite length_app. cbn. lia.
    + apply Forall_app. split; [assumption|]. now repeat constructor.
Qed.

(** The Submit button opens the confirmation exactly when the draft has
    a non-empty subject and a non-empty description, and does nothing at
    all otherwise; the report that the confirmation then stores is a new
    first entry that carries these two texts. *)
Theorem submit_requires_subject_and_description (s : ReportPage)
    (now_ms : Z) (now_iso : string) :
  showReportConfirmation s = false ->
  (showReportConfirmation (submitReport s) = true <->
   filled (d_subject (reportDraft s)) /\
   filled (d_description (reportDraft s))) /\
  (showReportConfirmation (submitReport s) = false -> submitReport s = s) /\
  (showReportConfirmation (submitReport s) = true ->
   exists r,
     page_reports (confirmSubmitReport now_ms now_iso (submitReport s))
     = r :: page_reports s /\
     r_subject r = d_subject (reportDraft s) /\ filled (r_subject r) /\
     r_description r = d_description (reportDraft s) /\
     filled (r_description r)).
Proof.
  intros Hoff. unfold submitReport.
  destruct (truthy_opt (d_subject (reportDraft s))) eqn:Es;
    destruct (truthy_opt (d_description (reportDraft s))) eqn:Ed;
    cbn [negb orb showReportConfirmation];
    rewrite ?Hoff.
  1: { apply truthy_opt_filled in Es, Ed. split; [tauto|].
       split; [discriminate|]. intros _. eexists.
       split; [reflexivity|]. cbn. tauto. }
  all: split; [|split; [reflexivity|discriminate]].
  all: split; [discriminate|].
  all: rewrite <- !truthy_opt_filled, Es, Ed; intros [? ?]; discriminate.
Qed.

(** Cancelling the confirmation brings the page back to where Submit
    found it: the form still open, the draft as typed, the stored
    reports untouched. *)
Theorem cancel_returns_to_the_draft (s : ReportPage) :
  showReportConfirmation s = false ->
  cancelSubmitReport (submitReport s) = s /\
  workflowState (cancelSubmitReport (submitReport s)) = Drafting.
Proof.
  intros Hoff. destruct s as [m c d rs]. cbn in Hoff. subst c.
  unfold submitReport. cbn [reportDraft].
  destruct (_ || _); split; reflexivity.
Qed.

Lemma handleReportEvent_classified (s : ReportPage) (e : ReportEvent) :
  draftClassified (reportDraft s) ->
  draftClassified (reportDraft (handleReportEvent s e)).
Proof.
  unfold draftClassified. intros [Ht Hs].
  destruct e; cbn [handleReportEvent]; try (cbn; split; (assumption || discriminate)).
  - cbn. split.
    + destruct (d_type defaults); discriminate.
    + destruct (d_severity defaults); discriminate.
  - unfold submitReport. destruct (_ || _); cbn; split; assumption.
Qed.

(** From the page as it is first shown, whatever the user does, the
    draft always carries a type and a severity, so that a confirmation
    stores the severity the draft shows and never has to fall back on
    Medium. *)
Theorem draft_always_classified (es : list ReportEvent) (now_ms : Z)
    (now_iso : string) :
  let s := handleReportEvents initialPage es in
  draftClassified (reportDraft s) /\
  exists r,
    page_reports (confirmSubmitReport now_ms now_iso s) = r :: page_reports s /\
    d_severity (reportDraft s) = Some (r_severity r).
Proof.
  cbv zeta.
  assert (H : draftClassified (reportDraft (handleReportEvents initialPage es))).
  { unfold handleReportEvents.
    assert (G : forall s, draftClassified (reportDraft s) ->
                          draftClassified
                            (reportDraft (fold_left handleReportEvent es s))).
    { induction es as [|e es IH]; intros s Hs; cbn [fold_left];
        [assumption|]. apply IH. now apply handleReportEvent_classified. }
    apply G. split; discriminate. }
  split; [exact H|]. eexists. split; [reflexivity|].
  cbn. unfold draftSeverityOrDefault.
  destruct H as [_ Hsev].
  destruct (d_severity (reportDraft (handleReportEvents initialPage es)));
    [reflexivity|contradiction].
Qed.

Lemma submit_requires_subject_and_description_witness :
  showReportConfirmation typedPage = false /\
  showReportConfirmation (submitReport typedPage) = true /\
  exists r,
    page_reports (confirmSubmitReport 1735689600000 "2025-01-01T00:00:00.000Z"
                    (submitReport typedPage))
    = r :: page_reports typedPage /\
    r_subject r = d_subject (reportDraft typedPage) /\ filled (r_subject r) /\
    r_description r = d_description (reportDraft typedPage) /\
    filled (r_description r).
Proof.
  assert (Hoff : showReportConfirmation typedPage = false) by reflexivity.
  assert (Hon : showReportConfirmation (submitReport typedPage) = true)
    by reflexivity.
  split; [exact Hoff|]. split; [exact Hon|].
  exact (proj2 (proj2 (@submit_requires_subject_and_description typedPage
                         1735689600000 "2025-01-01T00:00:00.000Z" Hoff)) Hon).
Defined.

Lemma cancel_returns_to_the_draft_witness :
  showReportConfirmation typedPage = false /\
  cancelSubmitReport (submitReport typedPage) = typedPage /\
  workflowState (cancelSubmitReport (submitReport typedPage)) = Drafting.
Proof.
  assert (Hoff : showReportConfirmation typedPage = false) by reflexivity.
  split; [exact Hoff|].
  exact (@cancel_returns_to_the_draft typedPage Hoff).
Defined.

(* ===================================================================== *)
(** ** Relative time *)
(* ===================================================================== *)

Lemma Qfloor_lt_int (x : Q) (k : Z) :
  (inject_Z (Qfloor x) < inject_Z k)%Q <-> (x < inject_Z k)%Q.
Proof.
  split.
  - intros H. rewrite <- Zlt_Qlt in H.
    apply Qlt_le_trans with (inject_Z (Qfloor x + 1)); [apply Qlt_floor|].
    rewrite <- Zle_Qle. lia.
  - intros H. rewrite <- Zlt_Qlt.
    destruct (Z_lt_ge_dec (Qfloor x) k) as [Hlt|Hge]; [assumption|].
    exfalso. apply Z.ge_le in Hge. rewrite Zle_Qle in Hge.
    pose proof (Qfloor_le x). lra.
Qed.

Lemma Qdiv_lt_iff (d u k : Q) :
  (0 < u)%Q -> (d / u < k <-> d < k * u)%Q.
Proof.
  intros Hu. rewrite <- (Qmult_lt_r (d / u) k u Hu).
  assert (E : (d / u * u == d)%Q) by (field; lra).
  rewrite E. reflexivity.
Qed.

Lemma Qfloor_div_nested (x : Q) (n : positive) :
  Qfloor (inject_Z (Qfloor x) / inject_Z (Zpos n))
  = Qfloor (x / inject_Z (Zpos n)).
Proof.
  destruct x as [a b].
  unfold Qdiv, Qmult, Qinv, inject_Z, Qfloor; cbn [Qnum Qden].
  rewrite !Z.mul_1_r, Pos.mul_1_l, Pos2Z.inj_mul.
  apply Z.div_div; lia.
Qed.

Section RelativeTimeFacts.

Variable getTime : string -> number.
Variable numberToString : number -> string.

#[local] Abbreviation ago := (relativeTime getTime numberToString).

(** What [relativeTime] shows for a timestamp [d] milliseconds before
    the clock reading: "just now" below one minute (a timestamp in the
    future included), then the whole minutes below one hour, the whole
    hours below one day, and the whole days from there on.  A string
    that is not a date is shown as the text of NaN followed by "d ago". *)
Theorem relativeTime_units (now : Q) (iso : string) :
  (forall t d, getTime iso = Fin t -> d = (now - t)%Q ->
     ((d < 60000)%Q -> ago (Fin now) iso = "just now") /\
     ((60000 <= d < 3600000)%Q ->
        ago (Fin now) iso = numberToString (wholeUnits d 60000) ++ "m ago") /\
     ((3600000 <= d < 86400000)%Q ->
        ago (Fin now) iso = numberToString (wholeUnits d 3600000) ++ "h ago") /\
     ((86400000 <= d)%Q ->
        ago (Fin now) iso = numberToString (wholeUnits d 86400000) ++ "d ago")) /\
  (getTime iso = NaN ->
     ago (Fin now) iso = numberToString NaN ++ "d ago").
Proof.
  split.
  2: { intros E. unfold relativeTime. rewrite E. reflexivity. }
  intros t d E ->. unfold relativeTime. rewrite E, sub_Fin.
  set (d := (now - t)%Q).
  rewrite (@div_Fin d 60000) by (intros H; discriminate H).
  cbn [Math_floor].
  set (m := Qfloor (d / 60000)).
  assert (Hm1 : (Fin (inject_Z m) <? Fin 1)%js = true <-> (d < 60000)%Q).
  { rewrite lt_Fin. change 1%Q with (inject_Z 1).
    unfold m. rewrite Qfloor_lt_int. change (inject_Z 1) with 1%Q.
    rewrite Qdiv_lt_iff by reflexivity. split; intros H; lra. }
  assert (Hm60 : (Fin (inject_Z m) <? Fin 60)%js = true <-> (d < 3600000)%Q).
  { rewrite lt_Fin. change 60%Q with (inject_Z 60).
    unfold m. rewrite Qfloor_lt_int. change (inject_Z 60) with 60%Q.
    rewrite Qdiv_lt_iff by reflexivity. split; intros H; lra. }
  rewrite (@div_Fin (inject_Z m) 60) by (intros H; discriminate H).
  cbn [Math_floor].
  assert (Eh : Qfloor (inject_Z m / 60) = Qfloor (d / 3600000)).
  { unfold m. change 60%Q with (inject_Z (Zpos 60)).
    rewrite Qfloor_div_nested. apply Qfloor_comp.
    change (inject_Z 60) with 60%Q. field. }
  rewrite Eh. set (h := Qfloor (d / 3600000)).
  assert (Hh24 : (Fin (inject_Z h) <? Fin 24)%js = true <-> (d < 86400000)%Q).
  { rewrite lt_Fin. change 24%Q with (inject_Z 24).
    unfold h. rewrite Qfloor_lt_int. change (inject_Z 24) with 24%Q.
    rewrite Qdiv_lt_iff by reflexivity. split; intros H; lra. }
  rewrite (@div_Fin (inject_Z h) 24) by (intros H; discriminate H).
  cbn [Math_floor].
  assert (Ed : Qfloor (inject_Z h / 24) = Qfloor (d / 86400000)).
  { unfold h. change 24%Q with (inject_Z (Zpos 24)).
    rewrite Qfloor_div_nested. apply Qfloor_comp.
    change (inject_Z 24) with 24%Q. field. }
  rewrite Ed.
  destruct (Fin (inject_Z m) <? Fin 1)%js eqn:E1;
    destruct (Fin (inject_Z m) <? Fin 60)%js eqn:E60;
    destruct (Fin (inject_Z h) <? Fin 24)%js eqn:E24;
    unfold wholeUnits; fold m; fold h;
    repeat split; intros; try reflexivity; exfalso;
    repeat match goal with
           | H : true = true <-> _ |- _ => apply proj1 in H; specialize (H eq_refl)
           | H : false = true <-> _ |- _ =>
               apply proj2 in H;
               assert (~ _) by (let G := fresh in intros G; apply H in G; discriminate G);
               clear H
           end; lra.
Qed.

End RelativeTimeFacts.

Lemma relativeTime_units_witness :
  epochUnlessEmpty "1970-01-01T00:00:00.000Z" = Fin 0 /\
  (3600000 <= 7200000 - 0 < 86400000)%Q /\
  relativeTime epochUnlessEmpty showWhole (Fin 7200000) "1970-01-01T00:00:00.000Z"
  = showWhole (wholeUnits (7200000 - 0) 3600000) ++ "h ago" /\
  showWhole (wholeUnits (7200000 - 0) 3600000) ++ "h ago" = "2h ago" /\
  relativeTime epochUnlessEmpty showWhole (Fin 7200000) EmptyString = "NaNd ago".
Proof.
  assert (E : epochUnlessEmpty "1970-01-01T00:00:00.000Z" = Fin 0) by reflexivity.
  assert (Hd : (3600000 <= 7200000 - 0 < 86400000)%Q) by (split; [discriminate|reflexivity]).
  split; [exact E|]. split; [exact Hd|].
  split.
  - exact (proj1 (proj2 (proj2
             (proj1 (@relativeTime_units epochUnlessEmpty showWhole 7200000
                       "1970-01-01T00:00:00.000Z") 0 (7200000 - 0)%Q E
                eq_refl))) Hd).
  - split; [reflexivity|].
    exact (proj2 (@relativeTime_units epochUnlessEmpty showWhole 7200000 EmptyString)
             eq_refl).
Defined.

(* ===================================================================== *)
(** ** Seeded expenditures *)
(* ===================================================================== *)

Lemma string_length_append (a b : string) :
  String.length (a ++ b) = (String.length a + String.length b)%nat.
Proof. induction a as [|c a IH]; cbn; [reflexivity|now rewrite IH]. Qed.

Lemma append_inj_same_length (a b s t : string) :
  String.length s = String.length t ->
  a ++ s = b ++ t -> a = b /\ s = t.
Proof.
  intros Hlen. revert b. induction a as [|c a IH]; intros [|d b] H; cbn in H.
  - now split.
  - exfalso. apply (f_equal String.length) in H. cbn in H.
    rewrite string_length_append in H. lia.
  - exfalso. apply (f_equal String.length) in H. cbn in H.
    rewrite string_length_append in H. lia.
  - injection H as -> H. destruct (IH b H) as [-> ->]. now split.
Qed.

Lemma expenditureId_inj (a b : string) (i j : nat) :
  (i < 3)%nat -> (j < 3)%nat ->
  a ++ "-tx" ++ indexToString i = b ++ "-tx" ++ indexToString j ->
  a = b /\ i = j.
Proof.
  intros Hi Hj H.
  assert (Hlen : String.length ("-tx" ++ indexToString i)
                 = String.length ("-tx" ++ indexToString j)).
  { destruct i as [|[|[|i]]]; [| | |lia];
      destruct j as [|[|[|j]]]; try lia; reflexivity. }
  destruct (append_inj_same_length a b _ _ Hlen H) as [Hab Hs].
  split; [exact Hab|].
  destruct i as [|[|[|i]]]; [| | |lia];
    destruct j as [|[|[|j]]]; try lia; try reflexivity; discriminate Hs.
Qed.

Section SampleExpendituresFacts.

Variable random : nat -> Q.
Variable now_ms : nat -> number.
Variable toISOString : number -> string.

Hypothesis random_range : forall k, (0 <= random k < 1)%Q.

#[local] Abbreviation seedRow := (sampleExpenditure random now_ms toISOString).
#[local] Abbreviation seedRows := (projectExpenditures random now_ms toISOString).
#[local] Abbreviation seedAll := (sampleExpenditures random now_ms toISOString).

Lemma sampleExpenditure_fields (p : Project) (i : nat) (w : World) :
  let e := fst (seedRow p i w) in
  e_id e = p_id p ++ "-tx" ++ indexToString i /\
  e_projectId e = Some (p_id p) /\
  e_department e = p_department p /\
  e_category e = cats_at i /\
  e_description e = e_category e ++ " expense" /\
  exists a, amount e = Fin (inject_Z a) /\ (20000 <= a <= 220000)%Z.
Proof.
  cbv zeta. unfold sampleExpenditure, bind, Math_random, Date_now, ret.
  cbn [fst snd random_calls clock_calls e_id e_projectId e_department
       e_category e_description amount].
  repeat (split; [reflexivity|]).
  rewrite mul_Fin. cbn [Math_round]. rewrite add_Fin.
  set (q := (random (random_calls w) * 200000)%Q).
  exists (Qfloor (q + (1 # 2)) + 20000)%Z. split.
  - f_equal. rewrite inject_Z_plus. reflexivity.
  - pose proof (random_range (random_calls w)) as [H0 H1].
    assert (Hq : (inject_Z 0 <= q <= inject_Z 200000)%Q).
    { unfold q. change (inject_Z 0) with 0%Q.
      change (inject_Z 200000) with 200000%Q. split; nra. }
    pose proof (Qfloor_half_bounds Hq). lia.
Qed.

Lemma projectExpenditures_rows (p : Project) (w : World) :
  exists e0 e1 e2 w0 w1 w2,
    fst (seedRows p w) = [e0; e1; e2] /\
    e0 = fst (seedRow p 0%nat w0) /\
    e1 = fst (seedRow p 1%nat w1) /\
    e2 = fst (seedRow p 2%nat w2).
Proof.
  unfold projectExpenditures. cbn [mapM]. unfold bind, ret.
  destruct (seedRow p 0%nat w) as [e0 wa] eqn:E0.
  destruct (seedRow p 1%nat wa) as [e1 wb] eqn:E1.
  destruct (seedRow p 2%nat wb) as [e2 wc] eqn:E2.
  exists e0, e1, e2, w, wa, wb. cbn [fst].
  rewrite E0, E1, E2. now repeat split.
Qed.

Lemma sampleExpenditures_cons (p : Project) (ps : list Project) (w : World) :
  exists w',
    fst (seedAll (p :: ps) w)
    = (fst (seedRows p w) ++ fst (seedAll ps w'))%list.
Proof.
  unfold sampleExpenditures. cbn [mapM]. unfold bind, ret.
  destruct (seedRows p w) as [row w1].
  exists w1. destruct (mapM seedRows ps w1) as [rows w2]. reflexivity.
Qed.

Lemma seededFrom_weaken (p : Project) (ps : list Project) (e : Expenditure) :
  seededFrom ps e -> seededFrom (p :: ps) e.
Proof.
  intros (q & i & Hin & H). exists q, i. split; [now right|exact H].
Qed.

(** The seeding writes three expenditures for each project, in the order
    of the projects.  Each names its project and that project's
    department, carries one of the first three categories and a whole
    amount between 20,000 and 220,000; and when no two projects share an
    identifier, no two expenditures do. *)
Theorem sampleExpenditures_shape (ps : list Project) (w : World) :
  let out := fst (seedAll ps w) in
  List.length out = (3 * List.length ps)%nat /\
  map e_id out = flat_map expenditureIds ps /\
  Forall (seededFrom ps) out /\
  (NoDup (map p_id ps) -> NoDup (map e_id out)).
Proof.
  cbv zeta.
  assert (H : forall w,
             map e_id (fst (seedAll ps w)) = flat_map expenditureIds ps /\
             Forall (seededFrom ps) (fst (seedAll ps w))).
  { induction ps as [|p ps IH]; intros w0.
    - split; [reflexivity|constructor].
    - destruct (sampleExpenditures_cons p ps w0) as (w' & E). rewrite E.
      destruct (projectExpenditures_rows p w0)
        as (e0 & e1 & e2 & w1 & w2 & w3 & Er & E0 & E1 & E2).
      rewrite Er. destruct (IH w') as [IHm IHf].
      pose proof (sampleExpenditure_fields p 0%nat w1) as F0.
      pose proof (sampleExpenditure_fields p 1%nat w2) as F1.
      pose proof (sampleExpenditure_fields p 2%nat w3) as F2.
      cbv zeta in F0, F1, F2. rewrite <- E0 in F0. rewrite <- E1 in F1.
      rewrite <- E2 in F2.
      split.
      + cbn [app map flat_map expenditureIds]. rewrite IHm.
        destruct F0 as (-> & _), F1 as (-> & _), F2 as (-> & _).
        reflexivity.
      + cbn [app].
        constructor; [exists p, 0%nat; split; [now left|split; [lia|exact F0]]|].
        constructor; [exists p, 1%nat; split; [now left|split; [lia|exact F1]]|].
        constructor; [exists p, 2%nat; split; [now left|split; [lia|exact F2]]|].
        eapply Forall_impl; [|exact IHf]. intros e. apply seededFrom_weaken. }
  destruct (H w) as [Hm Hf].
  assert (Hlen : List.length (fst (seedAll ps w)) = (3 * List.length ps)%nat).
  { rewrite <- (length_map e_id), Hm. clear.
    induction ps as [|p ps IH]; [reflexivity|].
    cbn [flat_map expenditureIds app List.length]. rewrite IH. lia. }
  split; [exact Hlen|]. split; [exact Hm|]. split; [exact Hf|].
  intros Hnd. rewrite Hm. clear - Hnd.
  induction ps as [|p ps IH]; [constructor|].
  cbn [map] in Hnd. inversion Hnd as [|? ? Hp Hps]; subst.
  assert (Hrest : forall i, (i < 3)%nat ->
            ~ In (p_id p ++ "-tx" ++ indexToString i)
                 (flat_map expenditureIds ps)).
  { intros i Hi Hin. apply in_flat_map in Hin.
    destruct Hin as (q & Hq & Hin). apply Hp.
    assert (E : p_id p = p_id q).
    { destruct Hin as [Hin|[Hin|[Hin|[]]]]; symmetry in Hin.
      - exact (proj1 (@expenditureId_inj _ _ i 0%nat Hi ltac:(lia) Hin)).
      - exact (proj1 (@expenditureId_inj _ _ i 1%nat Hi ltac:(lia) Hin)).
      - exact (proj1 (@expenditureId_inj _ _ i 2%nat Hi ltac:(lia) Hin)). }
    rewrite E. now apply in_map. }
  cbn [flat_map expenditureIds app].
  constructor.
  { intros [Hin|[Hin|Hin]].
    - apply (@expenditureId_inj _ _ 1%nat 0%nat) in Hin; lia.
    - apply (@expenditureId_inj _ _ 2%nat 0%nat) in Hin; lia.
    - exact (Hrest 0%nat ltac:(lia) Hin). }
  constructor.
  { intros [Hin|Hin].
    - apply (@expenditureId_inj _ _ 2%nat 1%nat) in Hin; lia.
    - exact (Hrest 1%nat ltac:(lia) Hin). }
  constructor.
  { exact (Hrest 2%nat ltac:(lia)). }
  now apply IH.
Qed.

End SampleExpendituresFacts.

Lemma NoDup_map_id_inj (ps : list Project) (p q : Project) :
  NoDup (map p_id ps) -> In p ps -> In q ps -> p_id p = p_id q -> p = q.
Proof.
  induction ps as [|x xs IH]; intros Hnd Hp Hq E; [destruct Hp|].
  cbn [map] in Hnd. inversion Hnd as [|? ? Hx Hxs]; subst.
  destruct Hp as [->|Hp], Hq as [->|Hq].
  - reflexivity.
  - exfalso. apply Hx. rewrite E. now apply in_map.
  - exfalso. apply Hx. rewrite <- E. now apply in_map.
  - now apply IH.
Qed.

Section SeededRegionFilter.

Variable random : nat -> Q.
Variable now_ms : nat -> number.
Variable toISOString : number -> string.
Variable getTime : string -> number.

#[local] Abbreviation seedOne := (sampleExpenditure random now_ms toISOString).
#[local] Abbreviation seedThree :=
  (projectExpenditures random now_ms toISOString).
#[local] Abbreviation seeded := (sampleExpenditures random now_ms toISOString).

Lemma sampleExpenditure_projectId (p : Project) (i : nat) (w : World) :
  e_projectId (fst (seedOne p i w)) = Some (p_id p).
Proof. reflexivity. Qed.

Lemma seeded_names_project (ps : list Project) (w : World) (e : Expenditure) :
  In e (fst (seeded ps w)) ->
  exists p, In p ps /\ e_projectId e = Some (p_id p).
Proof.
  revert w. induction ps as [|p ps IH]; intros w Hin; [destruct Hin|].
  destruct (sampleExpenditures_cons random now_ms toISOString p ps w)
    as (w' & E).
  rewrite E in Hin. apply in_app_iff in Hin. destruct Hin as [Hin|Hin].
  - destruct (projectExpenditures_rows random now_ms toISOString p w)
      as (e0 & e1 & e2 & w0 & w1 & w2 & Er & E0 & E1 & E2).
    rewrite Er in Hin. exists p. split; [now left|].
    destruct Hin as [<-|[<-|[<-|[]]]]; subst;
      apply sampleExpenditure_projectId.
  - destruct (IH w' Hin) as (q & Hq & He). exists q. split; [now right|exact He].
Qed.

Lemma seeded_rows_count (f : Expenditure -> bool) (g : Project -> bool)
    (ps : list Project) (w : World) :
  (forall p e, In p ps -> e_projectId e = Some (p_id p) -> f e = g p) ->
  List.length (filter f (fst (seeded ps w)))
  = (3 * List.length (filter g ps))%nat.
Proof.
  revert w. induction ps as [|p ps IH]; intros w Hfg; [reflexivity|].
  destruct (sampleExpenditures_cons random now_ms toISOString p ps w)
    as (w' & E).
  rewrite E, filter_app, length_app.
  rewrite (IH w') by (intros q e Hq; apply Hfg; now right).
  destruct (projectExpenditures_rows random now_ms toISOString p w)
    as (e0 & e1 & e2 & w0 & w1 & w2 & Er & E0 & E1 & E2).
  rewrite Er. cbn [filter].
  rewrite (Hfg p e0), (Hfg p e1), (Hfg p e2);
    try (now left); try (subst; apply sampleExpenditure_projectId).
  destruct (g p); cbn [List.length]; lia.
Qed.

(** With the seeded expenditures, when the projects carry distinct,
    non-empty identifiers, a concrete region filter (no search, no other
    filter) keeps exactly the expenditures of the projects that lie in the
    region: three for each such project. *)
Theorem seeded_expenditures_follow_region (ps : list Project) (w : World)
    (region : string) :
  NoDup (map p_id ps) ->
  Forall (fun p => p_id p <> EmptyString) ps ->
  region <> "All" ->
  let out := fst (seeded ps w) in
  let view :=
    filteredExpenditures getTime out EmptyString "All" region "All" ps in
  (forall e, In e view <->
             In e out /\
             exists p, In p ps /\ e_projectId e = Some (p_id p) /\
                       p_region p = region) /\
  List.length view
  = (3 * List.length (filter (fun p => String.eqb (p_region p) region) ps))%nat.
Proof.
  intros Hnd Hids Hregion. cbv zeta.
  assert (Hsel : negb (String.eqb region "All") = true).
  { apply negb_true_iff. now apply String.eqb_neq. }
  set (rp := map p_id (filter (fun p => String.eqb (p_region p) region) ps)).
  assert (Hview : filteredExpenditures getTime (fst (seeded ps w)) EmptyString
                    "All" region "All" ps
                  = sort_by (byDateDesc getTime)
                      (filter (passesRegion rp) (fst (seeded ps w)))).
  { unfold filteredExpenditures. cbv zeta. rewrite Hsel. reflexivity. }
  assert (Hpass : forall p e, In p ps -> e_projectId e = Some (p_id p) ->
                    passesRegion rp e = String.eqb (p_region p) region).
  { intros p e Hp He. unfold passesRegion. rewrite He.
    rewrite Forall_forall in Hids. specialize (Hids p Hp).
    assert (Ht : truthy_opt (Some (p_id p)) = true).
    { cbn. destruct (p_id p); [contradiction|reflexivity]. }
    rewrite Ht. cbn [negb orb].
    apply eq_true_iff_eq. unfold rp.
    rewrite Set_has_In, in_map_iff, String.eqb_eq. split.
    - intros (q & Hid & Hq). apply filter_In in Hq. destruct Hq as [Hq Hr].
      apply String.eqb_eq in Hr.
      now rewrite (@NoDup_map_id_inj ps p q Hnd Hp Hq (eq_sym Hid)).
    - intros Hr. exists p. split; [reflexivity|].
      apply filter_In. split; [assumption|now apply String.eqb_eq]. }
  split.
  - intros e. rewrite Hview, sort_by_In, filter_In. split.
    + intros [Hin Hp]. split; [exact Hin|].
      destruct (seeded_names_project ps w e Hin) as (p & Hpin & He).
      exists p. split; [exact Hpin|]. split; [exact He|].
      rewrite (Hpass p e Hpin He) in Hp. now apply String.eqb_eq.
    + intros [Hin (p & Hpin & He & Hr)]. split; [exact Hin|].
      rewrite (Hpass p e Hpin He). now apply String.eqb_eq.
  - rewrite Hview, (Permutation_length (sort_by_Permutation _ _)).
    now apply seeded_rows_count.
Qed.

End SeededRegionFilter.

Lemma initialProjects_ids (now : string) :
  NoDup (map p_id (initialProjects now)) /\
  Forall (fun p => p_id p <> EmptyString) (initialProjects now).
Proof.
  split.
  - repeat constructor; cbn; intros H;
      repeat (destruct H as [H|H]; [discriminate H|]); exact H.
  - repeat constructor; discriminate.
Qed.

Lemma sampleExpenditures_shape_witness :
  (forall k, (0 <= steady (1 # 10) k < 1)%Q) /\
  let out := fst (sampleExpenditures (steady (1 # 10)) frozenNow frozenISO
                    (initialProjects "t0") world0) in
  List.length out = (3 * List.length (initialProjects "t0"))%nat /\
  map e_id out = flat_map expenditureIds (initialProjects "t0") /\
  Forall (seededFrom (initialProjects "t0")) out /\
  (NoDup (map p_id (initialProjects "t0")) -> NoDup (map e_id out)).
Proof.
  assert (Hr : forall k, (0 <= steady (1 # 10) k < 1)%Q)
    by (apply steady_range, tenth_in_range).
  split; [exact Hr|].
  exact (@sampleExpenditures_shape (steady (1 # 10)) frozenNow frozenISO Hr
           (initialProjects "t0") world0).
Defined.

Lemma seeded_expenditures_follow_region_witness :
  NoDup (map p_id (initialProjects "t0")) /\
  Forall (fun p => p_id p <> EmptyString) (initialProjects "t0") /\
  "Rural" <> "All" /\
  let out := fst (sampleExpenditures (steady (1 # 10)) frozenNow frozenISO
                    (initialProjects "t0") world0) in
  let view :=
    filteredExpenditures epochOnly out EmptyString "All" "Rural" "All"
      (initialProjects "t0") in
  (forall e, In e view <->
             In e out /\
             exists p, In p (initialProjects "t0") /\
                       e_projectId e = Some (p_id p) /\
                       p_region p = "Rural") /\
  List.length view
  = (3 * List.length (filter (fun p => String.eqb (p_region p) "Rural")
                        (initialProjects "t0")))%nat.
Proof.
  assert (Hne : "Rural" <> "All") by discriminate.
  split; [exact (proj1 (initialProjects_ids "t0"))|].
  split; [exact (proj2 (initialProjects_ids "t0"))|].
  split; [exact Hne|].
  exact (@seeded_expenditures_follow_region (steady (1 # 10)) frozenNow
           frozenISO epochOnly (initialProjects "t0") world0 "Rural"
           (proj1 (initialProjects_ids "t0"))
           (proj2 (initialProjects_ids "t0")) Hne).
Defined.

(* ===================================================================== *)
(** ** Reports and the transparency index *)
(* ===================================================================== *)

Lemma Qfloor_plus_int (q : Q) (z : Z) :
  Qfloor (q + inject_Z z) = (Qfloor q + z)%Z.
Proof.
  pose proof (Qfloor_le q) as H1. pose proof (Qlt_floor q) as H2.
  pose proof (Qfloor_le (q + inject_Z z)) as H3.
  pose proof (Qlt_floor (q + inject_Z z)) as H4.
  rewrite inject_Z_plus in H2, H4. change (inject_Z 1) with 1%Q in H2, H4.
  assert (A : (inject_Z (Qfloor q + z) < inject_Z (Qfloor (q + inject_Z z) + 1))%Q).
  { rewrite !inject_Z_plus. change (inject_Z 1) with 1%Q. lra. }
  assert (B : (inject_Z (Qfloor (q + inject_Z z)) < inject_Z (Qfloor q + z + 1))%Q).
  { rewrite !inject_Z_plus. change (inject_Z 1) with 1%Q. lra. }
  rewrite <- Zlt_Qlt in A, B. lia.
Qed.

Lemma resolutionRatio_unresolved (rs : list IrregularityReport) :
  rs <> [] ->
  Forall (fun r => r_status r <> Resolved) rs ->
  exists q, resolutionRatio rs = Fin q /\ (q == 0)%Q.
Proof.
  intros Hne Hrs. unfold resolutionRatio.
  assert (E : filter (fun r => ReportStatus_eqb (r_status r) Resolved) rs = []).
  { clear Hne. induction Hrs as [|r rs' Hr _ IH]; [reflexivity|].
    cbn [filter].
    destruct (r_status r); cbn [ReportStatus_eqb]; try exact IH.
    contradiction. }
  rewrite E. cbn [List.length].
  destruct (@of_nat_pos (List.length rs)) as (n & En & Hn).
  { destruct rs; [congruence|discriminate]. }
  rewrite En.
  assert (Ht : truthy (Fin n) = true).
  { unfold truthy. destruct (Qeq_bool_reflect n 0); [lra|reflexivity]. }
  rewrite Ht. unfold of_nat. cbn [Z.of_nat].
  rewrite div_Fin by lra. eexists. split; [reflexivity|].
  change (inject_Z 0) with 0%Q. field. lra.
Qed.

Lemma handleReportEvents_submitted (s : ReportPage) (es : list ReportEvent) :
  Forall (fun r => r_status r = Submitted) (page_reports s) ->
  Forall (fun r => r_status r = Submitted)
    (page_reports (handleReportEvents s es)).
Proof.
  unfold handleReportEvents. revert s.
  induction es as [|e es IH]; intros s Hs; cbn [fold_left]; [exact Hs|].
  apply IH. pose proof (handleReportEvent_reports s e) as He.
  destruct e; try (rewrite He; exact Hs).
  destruct He as (r & -> & Hst & _). now constructor.
Qed.

Lemma transparencyIndex_unresolved (bs : list Budget)
    (rs : list IrregularityReport) :
  bs <> [] ->
  Forall (fun b => isNaN (utilization b) = false) bs ->
  rs <> [] ->
  Forall (fun r => r_status r <> Resolved) rs ->
  exists m,
    transparencyIndex bs [] = Fin (inject_Z m) /\
    transparencyIndex bs rs = Fin (inject_Z (m - 20)).
Proof.
  intros Hne Hbs Hrs Hun. unfold transparencyIndex. cbv zeta.
  assert (Hus : Forall (fun u => isNaN u = false) (map utilization bs))
    by (apply Forall_map; exact Hbs).
  assert (Hne' : map utilization bs <> [])
    by (destruct bs; [congruence|discriminate]).
  destruct (@norm_range _ (avgDeviation_nonneg Hne' Hus)) as (n & -> & Hn).
  destruct (resolutionRatio_unresolved Hrs Hun) as (q & -> & Hq).
  change (resolutionRatio []) with (Fin 0.5).
  js_fin. cbn [Math_round].
  exists (Qfloor ((0.6 * n + 0.4 * q) * 100 + (1 # 2)) + 20)%Z.
  split.
  - do 2 f_equal. rewrite <- Qfloor_plus_int. apply Qfloor_comp.
    change (inject_Z 20) with 20%Q. rewrite Hq. field.
  - do 2 f_equal. lia.
Qed.

(** No handler ever resolves a report, so every report the page holds is
    Submitted and counts as unresolved; and as soon as it holds one, the
    transparency index is lower than what the same budgets give with no
    report at all, by 19 to 21 points: the 0.4 share of the resolution
    ratio, 20 points before rounding, is lost. *)
Theorem filed_reports_lower_transparency (bs : list Budget)
    (es : list ReportEvent) :
  bs <> [] ->
  Forall (fun b => isNaN (utilization b) = false) bs ->
  let rs := page_reports (handleReportEvents initialPage es) in
  Forall (fun r => r_status r = Submitted) rs /\
  (rs <> [] ->
   (transparencyIndex bs rs <? transparencyIndex bs [])%js = true /\
   (transparencyIndex bs [] - Fin 21 <=? transparencyIndex bs rs)%js = true /\
   (transparencyIndex bs rs <=? transparencyIndex bs [] - Fin 19)%js = true).
Proof.
  intros Hne Hbs. cbv zeta.
  assert (Hsub : Forall (fun r => r_status r = Submitted)
                   (page_reports (handleReportEvents initialPage es)))
    by (apply handleReportEvents_submitted; constructor).
  split; [exact Hsub|]. intros Hrs.
  destruct (@transparencyIndex_unresolved bs
              (page_reports (handleReportEvents initialPage es)) Hne Hbs Hrs)
    as (m & -> & ->).
  { eapply Forall_impl; [|exact Hsub]. intros r ->. discriminate. }
  rewrite !sub_Fin, lt_Fin, !le_Fin.
  assert (E : (inject_Z (m - 20) == inject_Z m - 20)%Q).
  { unfold Z.sub. rewrite inject_Z_plus. reflexivity. }
  rewrite E. repeat split; lra.
Qed.

Lemma filed_reports_lower_transparency_witness :
  initialBudgets "t0" <> [] /\
  Forall (fun b => isNaN (utilization b) = false) (initialBudgets "t0") /\
  let rs := page_reports
              (handleReportEvents typedPage
                 [SubmitReport;
                  ConfirmSubmit 1735689600000 "2025-01-01T00:00:00.000Z"]) in
  rs <> [] /\
  (transparencyIndex (initialBudgets "t0") rs
   <? transparencyIndex (initialBudgets "t0") [])%js = true /\
  (transparencyIndex (initialBudgets "t0") [] - Fin 21
   <=? transparencyIndex (initialBudgets "t0") rs)%js = true /\
  (transparencyIndex (initialBudgets "t0") rs
   <=? transparencyIndex (initialBudgets "t0") [] - Fin 19)%js = true.
Proof.
  assert (Hne : initialBudgets "t0" <> []) by discriminate.
  assert (Hbs : Forall (fun b => isNaN (utilization b) = false)
                  (initialBudgets "t0"))
    by (repeat constructor).
  split; [exact Hne|]. split; [exact Hbs|]. cbv zeta.
  assert (Hrs : page_reports
                  (handleReportEvents typedPage
                     [SubmitReport;
                      ConfirmSubmit 1735689600000 "2025-01-01T00:00:00.000Z"])
                <> []) by discriminate.
  split; [exact Hrs|].
  exact (proj2 (@filed_reports_lower_transparency (initialBudgets "t0")
                  [OpenReport defaultDraft;
                   ChangeSubject "Budget Concern: Health";
                   ChangeDescription "Spending above plan.";
                   SubmitReport;
                   ConfirmSubmit 1735689600000 "2025-01-01T00:00:00.000Z"]
                  Hne Hbs) Hrs).
Defined.

(* ===================================================================== *)
(** ** Help system: the guided tour *)
(* ===================================================================== *)

Section HelpTourFacts.

Variable t : string -> string.

#[local] Abbreviation steps := (helpSteps t).

Lemma helpSteps_length : List.length steps = 5%nat.
Proof. reflexivity. Qed.

Lemma speakTitle_in_range (i : nat) (s : Tour) :
  (i < 5)%nat ->
  exists text, speakTitle t i s = Some (speak text s).
Proof.
  intros Hi. unfold speakTitle.
  destruct i as [|[|[|[|[|i]]]]]; try lia; eexists; reflexivity.
Qed.

Lemma handleTourEvent_in_range (s : Tour) (e : TourEvent) :
  (currentStep s < 5)%nat ->
  exists s', handleTourEvent t s e = Some s' /\ (currentStep s' < 5)%nat.
Proof.
  intros Hs.
  assert (Hnext : exists s', nextStep t s = Some s' /\ (currentStep s' < 5)%nat).
  { unfold nextStep. rewrite helpSteps_length. cbn [Nat.sub].
    destruct (Nat.ltb_spec (currentStep s) 4) as [Hlt|Hge].
    - destruct (@speakTitle_in_range (currentStep s + 1)
                  (setCurrentStep (currentStep s + 1) s) ltac:(lia))
        as (text & ->).
      eexists. split; [reflexivity|]. cbn. lia.
    - eexists. split; [reflexivity|]. cbn. lia. }
  assert (Hprev : exists s', prevStep t s = Some s' /\ (currentStep s' < 5)%nat).
  { unfold prevStep.
    destruct (Nat.ltb_spec 0 (currentStep s)) as [Hlt|Hge].
    - destruct (@speakTitle_in_range (currentStep s - 1)
                  (setCurrentStep (currentStep s - 1) s) ltac:(lia))
        as (text & ->).
      eexists. split; [reflexivity|]. cbn. lia.
    - eexists. split; [reflexivity|]. exact Hs. }
  destruct e; cbn [handleTourEvent]; try assumption.
  - eexists. split; [reflexivity|]. cbn. lia.
  - eexists. split; [reflexivity|]. cbn. lia.
  - unfold handleKeyDown.
    destruct (negb (showTour s)); [eexists; split; [reflexivity|exact Hs]|].
    destruct (_ || _); [exact Hnext|].
    destruct (String.eqb key "ArrowLeft"); [exact Hprev|].
    destruct (String.eqb key "Escape");
      eexists; (split; [reflexivity|]); [cbn; lia|exact Hs].
Qed.

Lemma handleTourEvents_in_range (s : Tour) (es : list TourEvent) :
  (currentStep s < 5)%nat ->
  exists s', handleTourEvents t s es = Some s' /\ (currentStep s' < 5)%nat.
Proof.
  revert s. induction es as [|e es IH]; intros s Hs; cbn [handleTourEvents].
  - exists s. now split.
  - destruct (@handleTourEvent_in_range s e Hs) as (s1 & -> & H1).
    now apply IH.
Qed.

(** Whatever the user clicks and types, in any order, the tour never
    reads a step outside [helpSteps]: no handler throws, the current
    step always names one of the five steps, and the step counter the
    overlay shows never exceeds their number. *)
Theorem tour_step_always_defined (es : list TourEvent) :
  exists s step,
    handleTourEvents t initialTour es = Some s /\
    nth_error steps (currentStep s) = Some step /\
    (currentStep s + 1 <= List.length steps)%nat.
Proof.
  destruct (@handleTourEvents_in_range initialTour es ltac:(cbn; lia))
    as (s & E & Hs).
  destruct (nth_error steps (currentStep s)) as [step|] eqn:En.
  - exists s, step. split; [exact E|]. split; [exact En|].
    rewrite helpSteps_length. lia.
  - exfalso. apply nth_error_None in En. rewrite helpSteps_length in En. lia.
Qed.

Lemma next_presses (k : nat) (s : Tour) :
  (currentStep s + k <= 4)%nat ->
  exists s',
    handleTourEvents t s (repeat ClickNext k) = Some s' /\
    currentStep s' = (currentStep s + k)%nat /\
    showTour s' = showTour s /\ tracked s' = tracked s.
Proof.
  revert s. induction k as [|k IH]; intros s Hk; cbn [repeat handleTourEvents].
  - exists s. repeat split. lia.
  - cbn [handleTourEvent]. unfold nextStep. rewrite helpSteps_length.
    cbn [Nat.sub].
    destruct (Nat.ltb_spec (currentStep s) 4) as [Hlt|Hge]; [|lia].
    destruct (@speakTitle_in_range (currentStep s + 1)
                (setCurrentStep (currentStep s + 1) s) ltac:(lia))
      as (text & ->).
    destruct (IH (speak text (setCurrentStep (currentStep s + 1) s)))
      as (s' & E & Hstep & Hshow & Htr).
    { cbn. lia. }
    exists s'. split; [exact E|]. cbn in Hstep, Hshow, Htr.
    repeat split; [lia|assumption|assumption].
Qed.

(** Starting the tour and pressing Next [k] times shows step [k] while
    [k] is below five, with nothing tracked but the start; the fifth
    press ends the tour: the overlay closes, the step goes back to the
    first and one completion is tracked. *)
Theorem tour_walkthrough (s : Tour) (k : nat) :
  (k <= 5)%nat ->
  exists s',
    handleTourEvents t s (ClickStart :: repeat ClickNext k) = Some s' /\
    currentStep s' = (if (k =? 5)%nat then 0%nat else k) /\
    showTour s' = negb (k =? 5)%nat /\
    tracked s'
    = (tracked s ++ "help_tour_start"
         :: (if (k =? 5)%nat then ["help_tour_complete"] else []))%list.
Proof.
  intros Hk. cbn [handleTourEvents handleTourEvent].
  destruct (Nat.eqb_spec k 5) as [->|Hne].
  - change (repeat ClickNext 5) with (repeat ClickNext 4 ++ [ClickNext])%list.
    destruct (@next_presses 4 (startTour s) ltac:(cbn; lia))
      as (s1 & E1 & Hstep & Hshow & Htr).
    assert (Happ : forall a es1 es2 b,
               handleTourEvents t a es1 = Some b ->
               handleTourEvents t a (es1 ++ es2)
               = handleTourEvents t b es2).
    { intros a es1. revert a.
      induction es1 as [|e es1 IH]; intros a es2 b H; cbn in *.
      - now injection H as ->.
      - destruct (handleTourEvent t a e); [now apply IH|discriminate]. }
    rewrite (Happ _ _ [ClickNext] _ E1).
    cbn [handleTourEvents handleTourEvent]. unfold nextStep.
    rewrite helpSteps_length, Hstep. cbn.
    eexists. split; [reflexivity|]. cbn. rewrite Htr. cbn.
    repeat split. now rewrite <- app_assoc.
  - destruct (@next_presses k (startTour s) ltac:(cbn; lia))
      as (s1 & E1 & Hstep & Hshow & Htr).
    exists s1. split; [exact E1|]. cbn in Hstep, Hshow, Htr.
    repeat split; assumption.
Qed.

End HelpTourFacts.

Lemma tour_walkthrough_witness :
  (5 <= 5)%nat /\
  exists s',
    handleTourEvents (fun key => key) initialTour
      (ClickStart :: repeat ClickNext 5) = Some s' /\
    currentStep s' = 0%nat /\
    showTour s' = false /\
    tracked s' = ["help_tour_start"; "help_tour_complete"].
Proof.
  split; [lia|].
  exact (@tour_walkthrough (fun key => key) initialTour 5 (le_n 5)).
Defined.

(* ===================================================================== *)
(** ** Privacy-respecting analytics *)
(* ===================================================================== *)

Lemma substring_length_le (m : nat) (s : string) :
  (String.length (substring 0 m s) <= m)%nat.
Proof.
  revert s. induction m as [|m IH]; intros s.
  - destruct s; cbn; lia.
  - destruct s as [|c s]; cbn; [lia|]. specialize (IH s). lia.
Qed.

Lemma assign_Forall (P : string * DataValue -> Prop) (key : string)
    (value : DataValue) (obj : DataRecord) :
  P (key, value) -> Forall P obj -> Forall P (assign key value obj).
Proof.
  intros Hkv Hobj. induction Hobj as [|[k v] rest Hx Hrest IH]; cbn [assign].
  - now repeat constructor.
  - destruct (String.eqb_spec k key) as [->|Hne]; constructor; assumption.
Qed.

Lemma slice_last_length {A} (n : nat) (l : list A) :
  (List.length (slice_last n l) <= n)%nat.
Proof. unfold slice_last. rewrite length_skipn. lia. Qed.

Lemma slice_last_Forall {A} (P : A -> Prop) (n : nat) (l : list A) :
  Forall P l -> Forall P (slice_last n l).
Proof.
  intros H. unfold slice_last.
  rewrite <- (firstn_skipn (List.length l - n) l) in H.
  now apply Forall_app in H.
Qed.

Section AnalyticsFacts.

Variable redact : string -> string.
Variable now_ms : nat -> number.

#[local] Abbreviation call := (analyticsCall redact now_ms).
#[local] Abbreviation calls := (analyticsCalls redact now_ms).

Lemma sanitizeData_sanitized (data : DataRecord) :
  sanitizedRecord (sanitizeData redact data).
Proof.
  unfold sanitizeData, sanitizedRecord.
  assert (H : forall acc,
             sanitizedRecord acc ->
             sanitizedRecord (fold_left (sanitizeEntry redact) data acc)).
  { induction data as [|[key value] data IH]; intros acc Hacc;
      cbn [fold_left]; [exact Hacc|].
    apply IH. unfold sanitizeEntry.
    destruct (isSensitiveField key) eqn:Ek; [exact Hacc|].
    destruct value as [s|n|b|items|]; try exact Hacc;
      apply assign_Forall; try exact Hacc; cbn [fst snd];
      (split; [exact Ek|]); cbn [sanitizedValue]; try exact I.
    - apply substring_length_le.
    - apply Forall_map, Forall_forall. intros [s| | | |] _;
        cbn [sanitizeItem shortIfString]; try exact I.
      apply substring_length_le. }
  apply H. constructor.
Qed.

Lemma cleanupOldEvents_spec (P : AnalyticsEvent -> Prop) (a : PrivacyAnalytics)
    (w : World) :
  let a' := fst (cleanupOldEvents now_ms a w) in
  (List.length (pa_events a') <= maxEvents)%nat /\
  (Forall P (pa_events a) -> Forall P (pa_events a')) /\
  pa_sessionId a' = pa_sessionId a /\
  pa_preferences a' = pa_preferences a.
Proof.
  cbv zeta. unfold cleanupOldEvents, bind, Date_now, ret. cbn [fst snd].
  cbn [pa_events pa_sessionId pa_preferences].
  set (kept := filter _ (pa_events a)).
  split; [|split; [|split; reflexivity]].
  - destruct (Nat.ltb_spec maxEvents (List.length kept)) as [Hlt|Hge];
      [apply slice_last_length|exact Hge].
  - intros HP.
    assert (Hk : Forall P kept).
    { unfold kept. rewrite Forall_forall in *. intros x Hx.
      apply filter_In in Hx. now apply HP. }
    destruct (maxEvents <? List.length kept)%nat;
      [now apply slice_last_Forall|exact Hk].
Qed.

Lemma analyticsCall_invariant (a : PrivacyAnalytics) (c : AnalyticsCall)
    (w : World) :
  storeInvariant a ->
  storeInvariant (fst (call a c w)) /\
  pa_sessionId (fst (call a c w)) = pa_sessionId a.
Proof.
  intros [Hlen Hall]. destruct c as [type data|preferences|];
    cbn [analyticsCall].
  - unfold track.
    destruct (negb (analyticsEnabled (pa_preferences a)));
      [cbn; repeat split; assumption|].
    unfold bind at 1. unfold Date_now at 1. cbn [fst snd].
    set (a1 := mkAnalytics _ _ _ _). set (w1 := mkWorld _ _).
    destruct (@cleanupOldEvents_spec
                (fun e => ev_sessionId e = pa_sessionId a /\
                          sanitizedRecord (ev_data e)) a1 w1)
      as (Hl & Hf & Hs & _).
    cbn [pa_sessionId a1] in Hs. unfold storeInvariant. rewrite Hs.
    split; [split; [exact Hl|]|reflexivity].
    apply Hf. unfold a1. cbn [pa_events]. apply Forall_app.
    split; [exact Hall|]. repeat constructor.
    apply sanitizeData_sanitized.
  - unfold setPreferences. cbv zeta.
    destruct (negb _); unfold storeInvariant, clearAllData;
      cbn [ret fst pa_events pa_sessionId List.length].
    + split; [split|reflexivity]; [apply Nat.le_0_l|constructor].
    + split; [split|reflexivity]; assumption.
  - unfold storeInvariant, clearAllData.
    cbn [ret fst pa_events pa_sessionId List.length].
    split; [split|reflexivity]; [apply Nat.le_0_l|constructor].
Qed.

Lemma analyticsCalls_invariant (cs : list AnalyticsCall) (a : PrivacyAnalytics)
    (w : World) :
  storeInvariant a ->
  storeInvariant (fst (calls a cs w)) /\
  pa_sessionId (fst (calls a cs w)) = pa_sessionId a.
Proof.
  revert a w. induction cs as [|c cs IH]; intros a w Ha;
    cbn [analyticsCalls].
  - now split.
  - unfold bind. destruct (call a c w) as [a1 w1] eqn:E.
    destruct (@analyticsCall_invariant a c w Ha) as [H1 Hs1].
    rewrite E in H1, Hs1. cbn [fst] in H1, Hs1.
    destruct (IH a1 w1 H1) as [H2 Hs2]. split; [exact H2|congruence].
Qed.

(** However the object is used after its construction, it never holds
    more than 1000 events, and each of them carries the session identifier
    of the object.  The fields of a stored event are sanitized one level
    deep: no field has a name that contains one of the sensitive words or
    holds an object, and the strings a field holds, as its value or as an
    item of the array that is its value, have at most 100 characters.
    Below that level nothing is done: an item of an array that is not a
    string (an object, a nested array with strings of any length) is
    stored as it was given. *)
Theorem analytics_store_bounded_and_sanitized (sessionId : string)
    (loaded : option UserPreferences) (cs : list AnalyticsCall) (w : World) :
  let a := fst ((a0 <- newPrivacyAnalytics now_ms sessionId loaded ;;
                 calls a0 cs) w) in
  (List.length (pa_events a) <= 1000)%nat /\
  Forall (fun e => ev_sessionId e = sessionId /\
                   sanitizedRecord (ev_data e)) (pa_events a) /\
  (forall item, (forall s, item <> StringData s) ->
                sanitizeItem redact item = item).
Proof.
  cbv zeta.
  refine ((fun H => conj (proj1 H) (conj (proj2 H) _)) _).
  { intros item Hitem. destruct item as [s| | | |]; try reflexivity.
    now destruct (Hitem s). }
  destruct (newPrivacyAnalytics now_ms sessionId loaded w) as [a0 w0] eqn:E0.
  assert (E : fst ((a0 <- newPrivacyAnalytics now_ms sessionId loaded ;;
                    calls a0 cs) w)
              = fst (calls a0 cs w0))
    by (unfold bind; now rewrite E0).
  rewrite E. clear E.
  assert (H0 : storeInvariant a0 /\ pa_sessionId a0 = sessionId).
  { unfold newPrivacyAnalytics in E0.
    unfold cleanupOldEvents, bind, Date_now, ret in E0. cbn in E0.
    injection E0 as <- _. unfold storeInvariant.
    cbn [pa_events pa_sessionId filter List.length Nat.ltb Nat.leb maxEvents].
    split; [split|reflexivity]; [apply Nat.le_0_l|constructor]. }
  destruct H0 as [H0 Hs0].
  destruct (@analyticsCalls_invariant cs a0 w0 H0) as [[Hlen Hall] Hs].
  rewrite Hs, Hs0 in Hall. split; [exact Hlen|exact Hall].
Qed.

Lemma analyticsCall_opted_out (a : PrivacyAnalytics) (c : AnalyticsCall)
    (w : World) :
  analyticsEnabled (pa_preferences a) = false -> pa_events a = [] ->
  keepsOptOut c ->
  analyticsEnabled (pa_preferences (fst (call a c w))) = false /\
  pa_events (fst (call a c w)) = [] /\
  snd (call a c w) = w.
Proof.
  intros Hoff Hev Hc. destruct c as [type data|preferences|];
    cbn [analyticsCall keepsOptOut] in *.
  - unfold track. rewrite Hoff. cbn. auto.
  - unfold setPreferences, mergePreferences. cbv zeta.
    destruct (pp_analyticsEnabled preferences) as [[|]|];
      [congruence| |]; cbn; rewrite ?Hoff; cbn; auto.
  - cbn. auto.
Qed.

(** Opting out empties the store at once, and from then on nothing is
    stored and the clock is not even read, whatever is tracked, until a
    call switches the analytics on again. *)
Theorem opt_out_stores_nothing (a : PrivacyAnalytics)
    (days : option number) (cs : list AnalyticsCall) (w : World) :
  Forall keepsOptOut cs ->
  let a1 := setPreferences (mkPartialPreferences (Some false) days) a in
  pa_events a1 = [] /\
  pa_savedPreferences a1 = Some (pa_preferences a1) /\
  pa_events (fst (calls a1 cs w)) = [] /\
  snd (calls a1 cs w) = w.
Proof.
  intros Hcs. cbv zeta.
  set (a1 := setPreferences (mkPartialPreferences (Some false) days) a).
  assert (Hoff : analyticsEnabled (pa_preferences a1) = false) by reflexivity.
  assert (Hev : pa_events a1 = []) by reflexivity.
  split; [exact Hev|]. split; [reflexivity|].
  clearbody a1. revert a1 w Hoff Hev.
  induction Hcs as [|c cs Hc _ IH]; intros a1 w Hoff Hev;
    cbn [analyticsCalls]; [now split|].
  unfold bind. destruct (call a1 c w) as [a2 w2] eqn:E.
  destruct (@analyticsCall_opted_out a1 c w Hoff Hev Hc) as (H1 & H2 & H3).
  rewrite E in H1, H2, H3. cbn [fst snd] in H1, H2, H3. subst w2.
  now apply IH.
Qed.

End AnalyticsFacts.

Lemma opt_out_stores_nothing_witness :
  Forall keepsOptOut
    [Track SearchEvent [("query", StringData "road works")]; ClearData] /\
  let a0 := fst (newPrivacyAnalytics frozenNow "session_1" None world0) in
  let a1 := setPreferences (mkPartialPreferences (Some false) None) a0 in
  pa_events a1 = [] /\
  pa_savedPreferences a1 = Some (pa_preferences a1) /\
  pa_events (fst (analyticsCalls noRedaction frozenNow a1
                    [Track SearchEvent [("query", StringData "road works")];
                     ClearData] world0)) = [] /\
  snd (analyticsCalls noRedaction frozenNow a1
         [Track SearchEvent [("query", StringData "road works")]; ClearData]
         world0) = world0.
Proof.
  assert (Hcs : Forall keepsOptOut
                  [Track SearchEvent [("query", StringData "road works")];
                   ClearData]) by (repeat constructor).
  split; [exact Hcs|].
  exact (@opt_out_stores_nothing noRedaction frozenNow
           (fst (newPrivacyAnalytics frozenNow "session_1" None world0))
           None _ world0 Hcs).
Defined.

(* ===================================================================== *)
(** ** The views on the seeded records *)
(* ===================================================================== *)

Lemma initialBudgets_ascii (now : string) (search : string) :
  asciiOnly search = true -> asciiBudgetSearch search (initialBudgets now).
Proof. intros H. right. split; [exact H|]. repeat constructor. Qed.

Lemma initialProjects_ascii (now : string) (search : string) :
  asciiOnly search = true -> asciiProjectSearch search (initialProjects now).
Proof. intros H. right. split; [exact H|]. repeat constructor. Qed.

Lemma filteredBudgets_keeps_witness :
  asciiBudgetSearch "INFRA" (initialBudgets "t0") /\
  let out := filteredBudgets codeUnitCompare noDigits (initialBudgets "t0")
               "INFRA" "All" "National" "All" (mkSort (Some Bk_spent) desc) in
  (forall b,
      In b out <->
      In b (initialBudgets "t0") /\
      ("INFRA" = EmptyString \/ matchesBudgetSearch "INFRA" b = true) /\
      ("All" = "All" \/ b_department b = "All") /\
      ("National" = "All" \/ b_region b = "National") /\
      ("All" = "All" \/ b_category b = "All")) /\
  Permutation out
    (filter (keepsBudget "INFRA" "All" "National" "All")
       (initialBudgets "t0")) /\
  (sort_key (mkSort (Some Bk_spent) desc) = None ->
   out = filter (keepsBudget "INFRA" "All" "National" "All")
           (initialBudgets "t0")) /\
  (List.length out <= List.length (initialBudgets "t0"))%nat.
Proof.
  assert (H : asciiBudgetSearch "INFRA" (initialBudgets "t0"))
    by (apply initialBudgets_ascii; reflexivity).
  split; [exact H|].
  exact (@filteredBudgets_keeps codeUnitCompare noDigits
           (initialBudgets "t0") "INFRA" "All" "National" "All"
           (mkSort (Some Bk_spent) desc) H).
Defined.

Lemma filteredProjects_keeps_witness :
  asciiProjectSearch "clinic" (initialProjects "t0") /\
  let out := filteredProjects codeUnitCompare noDigits (initialProjects "t0")
               "clinic" "All" "All" "All" (mkSort None asc) in
  (forall p,
      In p out <->
      In p (initialProjects "t0") /\
      ("clinic" = EmptyString \/ matchesProjectSearch "clinic" p = true) /\
      ("All" = "All" \/ p_department p = "All") /\
      ("All" = "All" \/ p_region p = "All") /\
      ("All" = "All" \/ statusLabel (p_status p) = "All")) /\
  Permutation out
    (filter (keepsProject "clinic" "All" "All" "All") (initialProjects "t0")) /\
  (sort_key (mkSort (K:=ProjectKey) None asc) = None ->
   out = filter (keepsProject "clinic" "All" "All" "All")
           (initialProjects "t0")) /\
  (List.length out <= List.length (initialProjects "t0"))%nat.
Proof.
  assert (H : asciiProjectSearch "clinic" (initialProjects "t0"))
    by (apply initialProjects_ascii; reflexivity).
  split; [exact H|].
  exact (@filteredProjects_keeps codeUnitCompare noDigits
           (initialProjects "t0") "clinic" "All" "All" "All"
           (mkSort None asc) H).
Defined.
